(** * The AD management daemon and the topology diff of the web panel

    A shallow embedding of
      - [ad_management/monitoring_daemon.py] (the RPC handlers of the
        monitoring daemon),
      - [web_scion/ad_manager/views.py] ([_get_changes],
        [compare_remote_topology] and [NewLinkView.form_valid]),
      - [web_scion/ad_manager/models.py] ([AD.fill_from_topology],
        [AD.generate_topology_dict], [AD.get_monitoring_daemon_host] and the
        [get_dict] of the elements),
    together with the properties of the specification that concern them
    and further properties of the code.

    Python values are modelled as follows.  A [str] and a [bytes] object
    are both a [string] (a sequence of 8-bit characters; a [str] is held in
    its UTF-8 encoding).  A Python [int] is a [Z].  A [dict] whose iteration
    order is observable is an association list in iteration order.  A
    function that can raise returns a [result]; a function with side
    effects on the node (files, supervisor, threads, processes) runs in the
    monad [M] over the state [World], where the state reached when an
    exception is raised is kept, as in Python. *)

From Stdlib Require Import ZArith List String Ascii Bool Lia Permutation Sorted.
From stdpp Require Import base option list gmap strings pretty.

Open Scope string_scope.
Open Scope Z_scope.

(** ** Python: exceptions and results *)

Inductive exn : Type :=
| ValueError
| KeyError
| AssertionError
| BinasciiError            (* binascii.Error *)
| UnicodeDecodeError
| IsADirectoryError
| NotADirectoryError
| FileNotFoundError
| FileExistsError
| OSError (errno : string) (* an [OSError] that has no class of its own *)
| ConnectionRefusedError   (* the supervisor's XML-RPC endpoint is down *)
| Fault (code : string)    (* xmlrpc.client.Fault sent by the supervisor *)
| KazooTimeoutError        (* kazoo.handlers.threading.KazooTimeoutError *)
| NoNodeError              (* kazoo.exceptions.NoNodeError *)
| IndexError
| DoesNotExist             (* django: Model.DoesNotExist *)
| MultipleObjectsReturned  (* django: Model.MultipleObjectsReturned *)
| IntegrityError.          (* django.db.IntegrityError *)

Inductive result (A : Type) : Type :=
| Ok (a : A)
| Raise (e : exn).
Arguments Ok {A} a.
Arguments Raise {A} e.

Definition rbind {A B} (r : result A) (k : A -> result B) : result B :=
  match r with
  | Ok a => k a
  | Raise e => Raise e
  end.

Notation "'try!' x := r 'in' k" := (rbind r (fun x => k))
  (at level 10, x name, r at level 100, k at level 200, only parsing).

Fixpoint rmap_list {A B} (f : A -> result B) (l : list A) : result (list B) :=
  match l with
  | [] => Ok []
  | a :: l' => try! b := f a in try! bs := rmap_list f l' in Ok (b :: bs)
  end.

Definition raises {A} (r : result A) : Prop :=
  match r with Ok _ => False | Raise _ => True end.

(** ** Python: strings *)

Definition is_prefix_b : string -> string -> bool := String.prefix.

(** [drop_str n s] is [s[n:]]. *)
Fixpoint drop_str (n : nat) (s : string) : string :=
  match n, s with
  | O, _ => s
  | S n', String _ s' => drop_str n' s'
  | S _, EmptyString => EmptyString
  end.

(** [split_go sep fuel s]: the scan of [str.split(sep)] (a separator of at
    least one character), from the left, over non-overlapping occurrences.
    A character that does not start a separator goes to the front of the
    first field of what follows.  [fuel] bounds the number of steps and is
    the length of the input. *)
Fixpoint split_go (sep : string) (fuel : nat) (s : string) : list string :=
  match fuel with
  | O => [s]
  | S fuel' =>
      match s with
      | EmptyString => [EmptyString]
      | String c s' =>
          if is_prefix_b sep s
          then EmptyString :: split_go sep fuel' (drop_str (String.length sep) s)
          else match split_go sep fuel' s' with
               | field :: fields => String c field :: fields
               | [] => [String c EmptyString]
               end
      end
  end.

(** [s.split(sep)] for a non-empty [sep]. *)
Definition split (sep : string) (s : string) : list string :=
  split_go sep (String.length s) s.

(** [l[-1]] of a list that [split] returned (never empty). *)
Definition last_field (l : list string) : string := List.last l EmptyString.

(** [s.rfind('/') + 1], as an offset from the left. *)
Fixpoint after_last_slash (s : string) : string :=
  match s with
  | EmptyString => EmptyString
  | String c s' =>
      if existsb (Ascii.eqb "/"%char) (list_ascii_of_string s')
      then after_last_slash s'
      else if Ascii.eqb c "/"%char then s' else s
  end.

(** [os.path.basename] of posixpath: [p[p.rfind('/') + 1:]]. *)
Definition basename (p : string) : string := after_last_slash p.

Fixpoint ends_with_slash (p : string) : bool :=
  match p with
  | EmptyString => false
  | String c EmptyString => Ascii.eqb c "/"%char
  | String _ p' => ends_with_slash p'
  end.

Definition starts_with_slash (p : string) : bool :=
  match p with
  | String c _ => Ascii.eqb c "/"%char
  | EmptyString => false
  end.

(** [os.path.join(a, b)] of posixpath, for two components. *)
Definition path_join (a b : string) : string :=
  if starts_with_slash b then b
  else if (String.eqb a EmptyString || ends_with_slash a)%bool then a +:+ b
  else a +:+ "/" +:+ b.

Definition str_rev (s : string) : string :=
  string_of_list_ascii (rev (list_ascii_of_string s)).

Definition has_slash (s : string) : bool :=
  existsb (Ascii.eqb "/"%char) (list_ascii_of_string s).

Definition has_nul (s : string) : bool :=
  existsb (Ascii.eqb "000"%char) (list_ascii_of_string s).

Definition all_slashes (s : string) : bool :=
  forallb (Ascii.eqb "/"%char) (list_ascii_of_string s).

(** [p[:p.rfind('/') + 1]] *)
Fixpoint upto_last_slash (s : string) : string :=
  match s with
  | EmptyString => EmptyString
  | String c s' =>
      if existsb (Ascii.eqb "/"%char) (list_ascii_of_string s')
      then String c (upto_last_slash s')
      else if Ascii.eqb c "/"%char then "/" else EmptyString
  end.

Fixpoint lstrip_slashes (s : string) : string :=
  match s with
  | String c s' => if Ascii.eqb c "/"%char then lstrip_slashes s' else s
  | EmptyString => EmptyString
  end.

(** [s.rstrip('/')] *)
Definition rstrip_slashes (s : string) : string :=
  str_rev (lstrip_slashes (str_rev s)).

(** [os.path.split] of posixpath: the head loses its trailing separators
    unless it consists of separators only. *)
Definition path_split (p : string) : string * string :=
  let head := upto_last_slash p in
  let tail := basename p in
  (if negb (String.eqb head EmptyString) && negb (all_slashes head)
   then rstrip_slashes head else head,
   tail).

(** [os.path.dirname] of posixpath. *)
Definition dirname (p : string) : string := fst (path_split p).

(** The double quote character, as a string. *)
Definition dq : string := String "034"%char EmptyString.

(** ['{}'.format(z)] for an [int]. *)
Definition str_of_Z (z : Z) : string := pretty z.

(** *** [int(s)] for a [str] *)

(** The white space that [int] drops at both ends of an ASCII string
    ([Py_ISSPACE]): the blank and the characters 9 to 13. *)
Definition is_space (c : ascii) : bool :=
  let n := N_of_ascii c in
  ((n =? 32) || ((9 <=? n) && (n <=? 13)))%N%bool.

Definition is_digit (c : ascii) : bool :=
  let n := N_of_ascii c in ((48 <=? n) && (n <=? 57))%N%bool.

Definition digit_val (c : ascii) : Z := Z.of_N (N_of_ascii c) - 48.

Fixpoint lstrip (s : string) : string :=
  match s with
  | String c s' => if is_space c then lstrip s' else s
  | EmptyString => EmptyString
  end.

Definition strip (s : string) : string :=
  str_rev (lstrip (str_rev (lstrip s))).

(** The value of a string of decimal digits read from the left with
    accumulator [acc]; [None] when a character is not a digit. *)
Fixpoint digits_value (acc : Z) (s : string) : option Z :=
  match s with
  | EmptyString => Some acc
  | String c s' =>
      if is_digit c then digits_value (10 * acc + digit_val c) s' else None
  end.

Definition unsigned_int (s : string) : result Z :=
  match s with
  | EmptyString => Raise ValueError
  | _ => match digits_value 0 s with
         | Some z => Ok z
         | None => Raise ValueError
         end
  end.

(** [int(s)] for a plain string: surrounding white space is dropped, one
    sign is allowed, the rest is a non-empty run of decimal digits. *)
Definition ascii_int (s : string) : result Z :=
  match strip s with
  | String c s' =>
      if Ascii.eqb c "-"%char then try! z := unsigned_int s' in Ok (- z)
      else if Ascii.eqb c "+"%char then unsigned_int s'
      else unsigned_int (String c s')
  | EmptyString => Raise ValueError
  end.

(** The strings on which every Python 3 reads the same integer, or none:
    ASCII characters only, no underscore (a separator of digits since
    Python 3.6) and no more than 4300 characters (the limit on the digits
    of a conversion, since Python 3.11). *)
Definition plain_char (c : ascii) : bool :=
  (N_of_ascii c <? 128)%N && negb (Ascii.eqb c "_"%char).

Definition plain (s : string) : bool :=
  forallb plain_char (list_ascii_of_string s)
  && (String.length s <=? 4300)%nat.

(** What the interpreter that runs the web panel makes of the other
    strings: [int] takes the white space and the decimal digits of its
    Unicode database for blanks and ASCII digits, takes or refuses
    underscores between digits, and limits the number of digits or does
    not.  [None] stands for [ValueError], the one exception of [int] on a
    [str]. *)
Class Interpreter : Type := {
  int_other : string -> option Z
}.

(** [int(s)] for a [str]. *)
Definition py_int `{Interpreter} (s : string) : result Z :=
  if plain s then ascii_int s
  else match int_other s with
       | Some z => Ok z
       | None => Raise ValueError
       end.

(** *** [sorted(l, key=...)] *)

Section Sorted.
Context {A K : Type} (leb : K -> K -> bool).

(** Insertion before the first element whose key is not smaller: equal
    keys keep their input order. *)
Fixpoint insert_by (x : K * A) (l : list (K * A)) : list (K * A) :=
  match l with
  | [] => [x]
  | y :: l' => if leb (fst x) (fst y) then x :: y :: l'
               else y :: insert_by x l'
  end.

(** A stable sort of key-decorated elements.  Python's [sorted] is
    stable, and a stable sort has one result. *)
Fixpoint sort_decorated (l : list (K * A)) : list (K * A) :=
  match l with
  | [] => []
  | x :: l' => insert_by x (sort_decorated l')
  end.

(** [sorted(l, key=key)] where [key] can raise: every key is computed
    once, in input order, before any comparison. *)
Definition sorted (key : A -> result K) (l : list A) : result (list A) :=
  try! keys := rmap_list key l in
  Ok (map snd (sort_decorated (combine keys l))).
End Sorted.

(** ** The topology document *)

Record InterfaceT : Type := mkInterface {
  NeighborType : string;
  NeighborISD : Z;
  NeighborAD : Z;
  IfAddr : string;
  IfAddrType : string;
  ToAddr : string;
  UdpPort : Z;
  ToUdpPort : Z;
  IFID : Z
}.

Record Element : Type := mkElement {
  AddrType : string;
  Addr : string
}.

Record RouterElement : Type := mkRouter {
  RAddrType : string;
  RAddr : string;
  Interface : InterfaceT
}.

Record Topology : Type := mkTopology {
  ISDID : Z;
  ADID : Z;
  Core : Z;
  EdgeRouters : list (string * RouterElement);
  PathServers : list (string * Element);
  BeaconServers : list (string * Element);
  CertificateServers : list (string * Element);
  DNSServers : list (string * Element)
}.

(** ** views.py: the topology diff *)

(** A leaf of the document, as [!=] and ['{}'.format] see it. *)
Inductive value : Type :=
| VInt (z : Z)
| VStr (s : string).

Definition value_neq (a b : value) : bool :=
  match a, b with
  | VInt x, VInt y => negb (x =? y)
  | VStr x, VStr y => negb (String.eqb x y)
  | _, _ => true
  end.

Definition fmt (v : value) : string :=
  match v with
  | VInt z => str_of_Z z
  | VStr s => s
  end.

(** An entry of a list of [element_fields]: a [str] key, or a tuple of a
    field name and the keys of the nested dictionary.  A key carries the
    projection that the subscript [rs[key]] stands for. *)
Inductive field_key (E : Type) : Type :=
| StrKey (key : string) (get : E -> value)
| TupleKey (field_name : string) (nested_fields : list (string * (E -> value))).
Arguments StrKey {E} key get.
Arguments TupleKey {E} field_name nested_fields.

Definition server_fields : list (field_key Element) :=
  [StrKey "Addr" (fun e => VStr (Addr e))].

Definition router_fields : list (field_key RouterElement) :=
  [StrKey "Addr" (fun e => VStr (RAddr e));
   TupleKey "Interface"
     [("NeighborAD", fun e => VInt (NeighborAD (Interface e)));
      ("NeighborISD", fun e => VInt (NeighborISD (Interface e)));
      ("NeighborType", fun e => VStr (NeighborType (Interface e)))]].

Section Diff.
Context `{Interpreter}.

(** [key_sort = lambda item: int(item[0])] *)
Definition key_sort {E} (item : string * E) : result Z := py_int (fst item).

Definition scalar_msg (key : string) : string :=
  dq +:+ key +:+ dq +:+ " values differ".

Definition count_msg (server_type : string) : string :=
  "Different number of " +:+ dq +:+ server_type +:+ dq +:+ " servers".

Definition field_msg (key server_type : string) (cs_v rs_v : value) : string :=
  dq +:+ key +:+ dq +:+ " values differ for one of " +:+ server_type +:+
  ". Local: " +:+ fmt cs_v +:+ ", remote: " +:+ fmt rs_v.

Definition nested_msg (field_name field server_type : string)
    (remote_value current_value : value) : string :=
  dq +:+ field_name +:+ ":" +:+ field +:+ dq +:+ " differ for one of " +:+
  server_type +:+ ". Local: " +:+ fmt remote_value +:+
  ", remote: " +:+ fmt current_value.

Section Changes.
Context {E : Type}.

(** The body of [for key in current_fields] for one pair [(rs, cs)]. *)
Definition key_changes (server_type : string) (rs cs : E)
    (key : field_key E) : list string :=
  match key with
  | StrKey k get =>
      if value_neq (get rs) (get cs)
      then [field_msg k server_type (get cs) (get rs)]
      else []
  | TupleKey field_name nested_fields =>
      flat_map (fun '(field, get) =>
                  let remote_value := get rs in
                  let current_value := get cs in
                  if value_neq remote_value current_value
                  then [nested_msg field_name field server_type
                          remote_value current_value]
                  else [])
               nested_fields
  end.

(** The body of [for rs, cs in zip(remote_servers, current_servers)]. *)
Definition pair_changes (server_type : string)
    (current_fields : list (field_key E)) (p : E * E) : list string :=
  flat_map (key_changes server_type (fst p) (snd p)) current_fields.

(** The body of [for server_type in element_fields.keys()]: the entries
    that one collection appends to [changes]. *)
Definition collection_changes (server_type : string)
    (current_fields : list (field_key E))
    (remote current : list (string * E)) : result (list string) :=
  try! remote_sorted_with_name := sorted Z.leb key_sort remote in
  try! current_sorted_with_name := sorted Z.leb key_sort current in
  let remote_servers := map snd remote_sorted_with_name in
  let current_servers := map snd current_sorted_with_name in
  if negb (Nat.eqb (length remote_servers) (length current_servers))
  then Ok [count_msg server_type]
  else Ok (flat_map (pair_changes server_type current_fields)
             (combine remote_servers current_servers)).
End Changes.

Definition scalar_keys : list (string * (Topology -> value)) :=
  [("ADID", fun t => VInt (ADID t));
   ("ISDID", fun t => VInt (ISDID t));
   ("Core", fun t => VInt (Core t))].

Definition scalar_changes (current_topology remote_topology : Topology)
  : list string :=
  flat_map (fun '(key, get) =>
              if value_neq (get remote_topology) (get current_topology)
              then [scalar_msg key] else [])
           scalar_keys.

(** [_get_changes(current_topology, remote_topology)].  The collections are
    visited in the order in which [element_fields] lists them. *)
Definition _get_changes (current_topology remote_topology : Topology)
  : result (list string) :=
  let changes := scalar_changes current_topology remote_topology in
  try! ps := collection_changes "PathServers" server_fields
           (PathServers remote_topology) (PathServers current_topology) in
  try! cs := collection_changes "CertificateServers" server_fields
           (CertificateServers remote_topology)
           (CertificateServers current_topology) in
  try! bs := collection_changes "BeaconServers" server_fields
           (BeaconServers remote_topology) (BeaconServers current_topology) in
  try! er := collection_changes "EdgeRouters" router_fields
           (EdgeRouters remote_topology) (EdgeRouters current_topology) in
  Ok (changes ++ ps ++ cs ++ bs ++ er)%list.

(** The body of the JSON answer of [compare_remote_topology]. *)
Record JsonResponse : Type := mkJson {
  status : string;
  changes : list string;
  errors : list string
}.

(** [compare_remote_topology]: [remote_topology] is what
    [ad.get_remote_topology()] returned ([None] when the daemon did not
    answer with a document), [current_topology] is
    [ad.generate_topology_dict()]. *)
Definition compare_remote_topology (remote_topology : option Topology)
    (current_topology : Topology) : result JsonResponse :=
  match remote_topology with
  | None => Ok (mkJson "FAIL" [] ["Cannot get the remote topology"])
  | Some remote_topology =>
      try! changes := _get_changes current_topology remote_topology in
      let status := match changes with [] => "OK" | _ => "CHANGED" end in
      Ok (mkJson status changes [])
  end.
End Diff.

(** ** Python: [base64], [hashlib] and the UTF-8 codec *)

Definition bytes_of (s : string) : list Z :=
  map (fun c => Z.of_N (N_of_ascii c)) (list_ascii_of_string s).

Definition string_of_bytes (l : list Z) : string :=
  string_of_list_ascii (map (fun z => ascii_of_N (Z.to_N z)) l).

(** *** [base64.b64decode(s)] for a [str] argument *)

(** The six-bit value of a character of the standard alphabet. *)
Definition b64_value (c : Z) : option Z :=
  if (65 <=? c) && (c <=? 90) then Some (c - 65)
  else if (97 <=? c) && (c <=? 122) then Some (c - 71)
  else if (48 <=? c) && (c <=? 57) then Some (c + 4)
  else if c =? 43 then Some 62
  else if c =? 47 then Some 63
  else None.

Definition b64_pad : Z := 61.

Definition b64_valid (c : Z) : bool :=
  match b64_value c with
  | Some _ => true
  | None => c =? b64_pad
  end.

(** [binascii_find_valid(s, slen, num)]: the [(num+1)]-th character of [s]
    that is in the decoding table (where the pad character is, too). *)
Fixpoint find_valid (s : list Z) (num : nat) : option Z :=
  match s with
  | [] => None
  | c :: s' =>
      if b64_valid c
      then match num with
           | O => Some c
           | S num' => find_valid s' num'
           end
      else find_valid s' num
  end.

(** The state of the loop of [binascii.a2b_base64]. *)
Record b64_state : Type := mkB64 {
  quad_pos : Z;
  leftchar : Z;
  leftbits : Z;
  bin_data : list Z          (* the output, last byte first *)
}.

(** The loop of [binascii.a2b_base64] (not in strict mode): characters
    outside the alphabet are skipped, a pad sequence ends the input. *)
Fixpoint a2b_loop (st : b64_state) (s : list Z) : b64_state :=
  match s with
  | [] => st
  | this_ch :: s' =>
      if (127 <? this_ch) || (this_ch =? 13) || (this_ch =? 10)
         || (this_ch =? 32)
      then a2b_loop st s'
      else if this_ch =? b64_pad then
        if (quad_pos st <? 2)
           || ((quad_pos st =? 2)
               && negb (match find_valid s 1 with
                        | Some c => c =? b64_pad
                        | None => false
                        end))
        then a2b_loop st s'
        else mkB64 (quad_pos st) (leftchar st) 0 (bin_data st)
      else
        match b64_value this_ch with
        | None => a2b_loop st s'
        | Some v =>
            let quad_pos' := Z.land (quad_pos st + 1) 3 in
            let leftchar' := Z.lor (Z.shiftl (leftchar st) 6) v in
            let leftbits' := leftbits st + 6 in
            if 8 <=? leftbits' then
              let leftbits'' := leftbits' - 8 in
              a2b_loop
                (mkB64 quad_pos'
                   (Z.land leftchar' (Z.shiftl 1 leftbits'' - 1))
                   leftbits''
                   (Z.land (Z.shiftr leftchar' leftbits'') 255 :: bin_data st))
                s'
            else a2b_loop (mkB64 quad_pos' leftchar' leftbits' (bin_data st)) s'
        end
  end.

(** [base64.b64decode(s)]: a [str] is first encoded to ASCII
    ([ValueError] when it cannot be); bits left over at the end are
    binascii's "Incorrect padding". *)
Definition b64decode (s : string) : result string :=
  let data := bytes_of s in
  if existsb (fun c => 127 <? c) data then Raise ValueError
  else
    let st := a2b_loop (mkB64 0 0 0 []) data in
    if leftbits st =? 0 then Ok (string_of_bytes (rev (bin_data st)))
    else Raise BinasciiError.

(** *** [hashlib.sha1(data).hexdigest()] *)

Definition w32 (x : Z) : Z := Z.land x 4294967295.

Definition rotl (n x : Z) : Z :=
  w32 (Z.lor (Z.shiftl x n) (Z.shiftr x (32 - n))).

(** The message followed by the bit 1, zeros up to 56 modulo 64 and the
    length in bits as a 64-bit big-endian number. *)
Definition sha1_pad (msg : list Z) : list Z :=
  let len := Z.of_nat (length msg) in
  let zeros := Z.to_nat ((55 - len) mod 64) in
  let bits := 8 * len in
  (msg ++ [128] ++ repeat 0 zeros ++
   map (fun i => Z.land (Z.shiftr bits (8 * (7 - Z.of_nat i))) 255)
       (seq 0 8))%list.

Fixpoint be_words (fuel : nat) (l : list Z) : list Z :=
  match fuel, l with
  | S fuel', a :: b :: c :: d :: l' =>
      (Z.shiftl a 24 + Z.shiftl b 16 + Z.shiftl c 8 + d) :: be_words fuel' l'
  | _, _ => []
  end.

(** The message schedule, last word first: [rw] holds [w[i-1], w[i-2], ...]. *)
Fixpoint sha1_schedule (n : nat) (rw : list Z) : list Z :=
  match n with
  | O => rw
  | S n' =>
      let w := rotl 1 (Z.lxor (Z.lxor (nth 2 rw 0) (nth 7 rw 0))
                              (Z.lxor (nth 13 rw 0) (nth 15 rw 0))) in
      sha1_schedule n' (w :: rw)
  end.

Definition sha1_state : Type := (Z * Z * Z * Z * Z)%type.

Definition sha1_round (st : sha1_state) (iw : nat * Z) : sha1_state :=
  let '(a, b, c, d, e) := st in
  let '(i, w) := iw in
  let '(f, k) :=
    if (i <? 20)%nat then
      (Z.lor (Z.land b c) (Z.land (Z.lxor b 4294967295) d), 1518500249)
    else if (i <? 40)%nat then (Z.lxor (Z.lxor b c) d, 1859775393)
    else if (i <? 60)%nat then
      (Z.lor (Z.lor (Z.land b c) (Z.land b d)) (Z.land c d), 2400959708)
    else (Z.lxor (Z.lxor b c) d, 3395469782) in
  (w32 (rotl 5 a + f + e + k + w), a, rotl 30 b, c, d).

Definition sha1_block (h : sha1_state) (block : list Z) : sha1_state :=
  let ws := rev (sha1_schedule 64 (rev (be_words 16 block))) in
  let '(a, b, c, d, e) :=
    fold_left sha1_round (combine (seq 0 80) ws) h in
  let '(h0, h1, h2, h3, h4) := h in
  (w32 (h0 + a), w32 (h1 + b), w32 (h2 + c), w32 (h3 + d), w32 (h4 + e)).

Fixpoint sha1_blocks (fuel : nat) (h : sha1_state) (l : list Z) : sha1_state :=
  match fuel, l with
  | S fuel', _ :: _ => sha1_blocks fuel' (sha1_block h (firstn 64 l)) (skipn 64 l)
  | _, _ => h
  end.

Definition hex_digit (n : Z) : ascii :=
  ascii_of_N (Z.to_N (if n <? 10 then 48 + n else 87 + n)).

Definition hex_word (w : Z) : string :=
  string_of_list_ascii
    (map (fun i => hex_digit (Z.land (Z.shiftr w (4 * (7 - Z.of_nat i))) 15))
         (seq 0 8)).

Definition sha1_hexdigest (data : string) : string :=
  let padded := sha1_pad (bytes_of data) in
  let '(h0, h1, h2, h3, h4) :=
    sha1_blocks (length padded)
      (1732584193, 4023233417, 2562383102, 271733878, 3285377520) padded in
  hex_word h0 +:+ hex_word h1 +:+ hex_word h2 +:+ hex_word h3 +:+ hex_word h4.

(** *** [str(b, 'utf-8')] *)

Definition in_range (lo hi x : Z) : bool := (lo <=? x) && (x <=? hi).

Definition is_cont (x : Z) : bool := in_range 128 191 x.

(** The well-formed byte sequences of UTF-8. *)
Fixpoint utf8_valid (fuel : nat) (l : list Z) : bool :=
  match fuel with
  | O => match l with [] => true | _ => false end
  | S fuel' =>
      match l with
      | [] => true
      | a :: l1 =>
          if a <=? 127 then utf8_valid fuel' l1
          else match l1 with
          | b :: l2 =>
              if in_range 194 223 a then is_cont b && utf8_valid fuel' l2
              else match l2 with
              | c :: l3 =>
                  if in_range 224 239 a then
                    (if a =? 224 then in_range 160 191 b
                     else if a =? 237 then in_range 128 159 b
                     else is_cont b)
                    && is_cont c && utf8_valid fuel' l3
                  else match l3 with
                  | d :: l4 =>
                      in_range 240 244 a
                      && (if a =? 240 then in_range 144 191 b
                          else if a =? 244 then in_range 128 143 b
                          else is_cont b)
                      && is_cont c && is_cont d && utf8_valid fuel' l4
                  | [] => false
                  end
              | [] => false
              end
          | [] => false
          end
      end
  end.

(** [str(b, 'utf-8')]: the text, held in its encoding. *)
Definition str_utf8 (b : string) : result string :=
  if utf8_valid (String.length b) (bytes_of b) then Ok b
  else Raise UnicodeDecodeError.

(** *** A file read as text *)

(** The translation of line ends of a file that is read as text: [\r\n]
    and a lone [\r] become [\n]. *)
Fixpoint universal_newlines (s : string) : string :=
  match s with
  | EmptyString => EmptyString
  | String c s' =>
      if Ascii.eqb c "013"%char then
        match s' with
        | String c' s'' =>
            if Ascii.eqb c' "010"%char
            then String "010"%char (universal_newlines s'')
            else String "010"%char (universal_newlines s')
        | EmptyString => String "010"%char EmptyString
        end
      else String c (universal_newlines s')
  end.

(** [fh.read()] of a file opened with [open(path, 'r')]: the bytes are
    decoded (the preferred encoding of the locale is taken to be UTF-8)
    and the line ends translated. *)
Definition text_of_bytes (data : string) : result string :=
  try! text := str_utf8 data in Ok (universal_newlines text).

(** A text of ASCII characters without carriage return: what it is
    written as is what it is read as. *)
Definition ascii_text (s : string) : bool :=
  forallb (fun c => (N_of_ascii c <? 128)%N && negb (Ascii.eqb c "013"%char))
          (list_ascii_of_string s).

(** ** The node the daemon runs on *)

(** An entry of the file system, keyed by its path. *)
Inductive node : Type :=
| File (contents : string)
| Dir.

(** A process descriptor, as the supervisor reports it. *)
Record procinfo : Type := mkProc {
  group : string;
  proc_name : string;
  statename : string
}.

(** A node of the coordination service: its value and its children. *)
Record znode : Type := mkZnode {
  zdata : string;
  zchildren : list string
}.

(** What a handler does to the node besides returning, oldest first. *)
Inductive event : Type :=
| EvMkdir (path : string)
| EvWrite (path : string) (data : string)
| EvOpenAppend (path : string)
| EvPopen (argv : list string) (log : string)
| EvDerivatives (topology : Topology)
| EvThreadStart (thread_name : string)
| EvStartProcess (name : string)   (* a request to the supervisor *)
| EvStopProcess (name : string).

(** [fs] maps the path of every file and directory of the node, but the
    root, to its entry.  The paths are absolute and normalised (no empty,
    [.] or [..] component, no trailing separator), as the constants of
    the deployment are taken to be; the parent of an entry is a directory
    that is an entry, or the root, and no component is longer than
    [NAME_MAX].  Links, access rights and the limits of the device are
    not modelled: the daemon may read and write where it does.  [trace] records what a handler does to
    the node and what it asks the supervisor to do. *)
Record World : Type := mkWorld {
  fs : gmap string node;
  supervisor : option (list procinfo);   (* [None]: endpoint unreachable *)
  zookeeper : option (gmap string znode); (* [None]: no session possible *)
  trace : list event
}.

(** ** The state and exception monad *)

Definition M (S A : Type) : Type := S -> result A * S.

Definition ret {S A} (a : A) : M S A := fun s => (Ok a, s).
Definition throw {S A} (e : exn) : M S A := fun s => (Raise e, s).
Definition bind {S A B} (m : M S A) (k : A -> M S B) : M S B :=
  fun s => match m s with
           | (Ok a, s') => k a s'
           | (Raise e, s') => (Raise e, s')
           end.
Definition lift {S A} (r : result A) : M S A := fun s => (r, s).
Definition gets {S A} (f : S -> A) : M S A := fun s => (Ok (f s), s).
Definition modify {S} (f : S -> S) : M S unit := fun s => (Ok tt, f s).

(** [try: body except e: pass] *)
Definition except_pass {S} (e : exn -> bool) (body : M S unit) : M S unit :=
  fun s => match body s with
           | (Raise x, s') => if e x then (Ok tt, s') else (Raise x, s')
           | r => r
           end.

Notation "'let!' x := m 'in' k" := (bind m (fun x => k))
  (at level 10, x name, m at level 100, k at level 200, only parsing).
Notation "'do!' m 'in' k" := (bind m (fun _ => k))
  (at level 10, m at level 100, k at level 200, only parsing).

Fixpoint for_each {S A} (l : list A) (body : A -> M S unit) : M S unit :=
  match l with
  | [] => ret tt
  | a :: l' => do! body a in for_each l' body
  end.

(** *** The file system *)

Definition log (e : event) : M World unit :=
  modify (fun w => mkWorld (fs w) (supervisor w) (zookeeper w) (trace w ++ [e])).

Definition set_fs (f : gmap string node -> gmap string node) : M World unit :=
  modify (fun w => mkWorld (f (fs w)) (supervisor w) (zookeeper w) (trace w)).

(** The limits of Linux on the length of a path and of one component,
    in bytes. *)
Definition PATH_MAX : nat := 4096.
Definition NAME_MAX : nat := 255.

(** A path whose last component is empty, [.] or [..] can only name a
    directory: it is never a regular file and cannot be opened for
    writing. *)
Definition names_directory (path : string) : bool :=
  let b := basename path in
  String.eqb b EmptyString || String.eqb b "." || String.eqb b "..".

(** The root directory, written with one or more separators. *)
Definition is_root (p : string) : bool :=
  negb (String.eqb p EmptyString) && all_slashes p.

(** A path that can reach the file system: it holds no NUL byte (Python
    refuses such a path itself), is not empty and is shorter than
    [PATH_MAX]. *)
Definition sane (path : string) : bool :=
  negb (has_nul path) && negb (String.eqb path EmptyString)
  && (String.length path <? PATH_MAX)%nat.

Definition lookup_path (f : gmap string node) (p : string) : option node :=
  if is_root p then Some Dir else f !! p.

(** The directory that a head of [os.path.split] names; the empty head
    is the current directory. *)
Definition lookup_dir (f : gmap string node) (d : string) : option node :=
  if String.eqb d EmptyString then Some Dir else lookup_path f d.

(** [os.path.isfile], [os.path.isdir] and [os.path.exists] (which answer
    [False] when the path cannot reach the file system, since Python 3.8
    also for a NUL byte). *)
Definition is_file (f : gmap string node) (path : string) : bool :=
  sane path && negb (names_directory path)
  && match f !! path with Some (File _) => true | _ => false end.

Definition is_dir (f : gmap string node) (path : string) : bool :=
  sane path && match lookup_path f path with Some Dir => true | _ => false end.

Definition exists_path (f : gmap string node) (path : string) : bool :=
  sane path && match lookup_path f path with Some _ => true | None => false end.

Definition isfile (path : string) : M World bool :=
  gets (fun w => is_file (fs w) path).

Definition isdir (path : string) : M World bool :=
  gets (fun w => is_dir (fs w) path).

Definition path_exists (path : string) : M World bool :=
  gets (fun w => exists_path (fs w) path).

(** The directories that lead to [p], the topmost first: the heads of the
    repeated [os.path.split], but the root and the current directory. *)
Fixpoint ancestors_go (fuel : nat) (p : string) (acc : list string)
  : list string :=
  match fuel with
  | O => acc
  | S fuel' =>
      let d := dirname p in
      if String.eqb d EmptyString || is_root d then acc
      else ancestors_go fuel' d (d :: acc)
  end.

Definition ancestors (p : string) : list string :=
  ancestors_go (String.length p) p [].

(** The walk of the kernel down the directories that lead to a path. *)
Fixpoint walk (f : gmap string node) (dirs : list string) : result unit :=
  match dirs with
  | [] => Ok tt
  | d :: dirs' =>
      if (NAME_MAX <? String.length (basename d))%nat
      then Raise (OSError "ENAMETOOLONG")
      else match f !! d with
           | Some Dir => walk f dirs'
           | Some (File _) => Raise NotADirectoryError
           | None => Raise FileNotFoundError
           end
  end.

(** What [open(path, mode)] answers for the modes ['w'], ['wb'] and
    ['a'], before a byte is written: an exception, or whether the file is
    new. *)
Definition open_for_write (f : gmap string node) (path : string)
  : result bool :=
  if has_nul path then Raise ValueError
  else if String.eqb path EmptyString then Raise FileNotFoundError
  else if (PATH_MAX <=? String.length path)%nat
  then Raise (OSError "ENAMETOOLONG")
  else if names_directory path then
    (* the path names a directory, if anything *)
    let d := dirname path in
    try! _ := walk f (ancestors d) in
    match lookup_dir f d with
    | Some Dir => Raise IsADirectoryError
    | Some (File _) => Raise NotADirectoryError
    | None =>
        if (NAME_MAX <? String.length (basename d))%nat
        then Raise (OSError "ENAMETOOLONG")
        else if String.eqb (basename path) EmptyString
        then Raise IsADirectoryError
        else Raise FileNotFoundError
    end
  else
    match f !! path with
    | Some (File _) => Ok false
    | Some Dir => Raise IsADirectoryError
    | None =>
        try! _ := walk f (ancestors path) in
        if (NAME_MAX <? String.length (basename path))%nat
        then Raise (OSError "ENAMETOOLONG")
        else Ok true
    end.

(** [with open(path, 'w') as fh: fh.write(data)] (also for ['wb']): the
    file is created or truncated. *)
Definition write_file (path data : string) : M World unit :=
  let! f := gets fs in
  let! _ := lift (open_for_write f path) in
  do! set_fs (fun f => <[path := File data]> f) in
  log (EvWrite path data).

(** [open(path, 'a')]: the file is created when it is absent. *)
Definition open_append (path : string) : M World unit :=
  let! f := gets fs in
  let! created := lift (open_for_write f path) in
  do! (if created : bool
       then set_fs (fun f => <[path := File EmptyString]> f)
       else ret tt) in
  log (EvOpenAppend path).

(** [open(path, 'r').read()] *)
Definition read_file (path : string) : M World string :=
  let! f := gets fs in
  if has_nul path then throw ValueError
  else if names_directory path then
    match lookup_dir f (dirname path) with
    | Some Dir => throw IsADirectoryError
    | Some (File _) => throw NotADirectoryError
    | None => throw FileNotFoundError
    end
  else
    match f !! path with
    | Some (File data) => lift (text_of_bytes data)
    | Some Dir => throw IsADirectoryError
    | None => throw FileNotFoundError
    end.

(** What [os.mkdir(path)] answers: an exception, or the directory that it
    makes (a trailing separator does not count). *)
Definition mkdir_check (f : gmap string node) (path : string)
  : result string :=
  if has_nul path then Raise ValueError
  else if String.eqb path EmptyString then Raise FileNotFoundError
  else if (PATH_MAX <=? String.length path)%nat
  then Raise (OSError "ENAMETOOLONG")
  else
    let target :=
      if String.eqb (basename path) EmptyString then dirname path else path in
    if is_root target then Raise FileExistsError
    else if names_directory target then
      (* [d/.] and [d/..] exist when [d] does *)
      try! _ := walk f (ancestors (dirname target)) in
      match lookup_dir f (dirname target) with
      | Some Dir => Raise FileExistsError
      | Some (File _) => Raise NotADirectoryError
      | None => Raise FileNotFoundError
      end
    else
      try! _ := walk f (ancestors target) in
      match f !! target with
      | Some _ => Raise FileExistsError
      | None =>
          if (NAME_MAX <? String.length (basename target))%nat
          then Raise (OSError "ENAMETOOLONG")
          else Ok target
      end.

Definition mkdir (path : string) : M World unit :=
  let! f := gets fs in
  let! made := lift (mkdir_check f path) in
  do! set_fs (fun f => <[made := Dir]> f) in
  log (EvMkdir made).

Definition is_FileExistsError (e : exn) : bool :=
  match e with FileExistsError => true | _ => false end.

(** [os.makedirs(name)]: the missing directories that lead to [name] are
    made first.  [fuel] bounds the depth of the recursion and is the
    length of the name, which every call shortens. *)
Fixpoint makedirs_go (fuel : nat) (name : string) : M World unit :=
  match fuel with
  | O => mkdir name
  | S fuel' =>
      let '(head, tail) := path_split name in
      let '(head, tail) :=
        if String.eqb tail EmptyString then path_split head
        else (head, tail) in
      let! e := path_exists head in
      if negb (String.eqb head EmptyString)
         && negb (String.eqb tail EmptyString) && negb e
      then
        do! except_pass is_FileExistsError (makedirs_go fuel' head) in
        if String.eqb tail "." then ret tt else mkdir name
      else mkdir name
  end.

Definition makedirs (name : string) : M World unit :=
  makedirs_go (String.length name) name.

(** *** The supervisor, through its XML-RPC interface *)

Definition full_name (p : procinfo) : string :=
  group p +:+ ":" +:+ proc_name p.

Definition set_supervisor (l : list procinfo) : M World unit :=
  modify (fun w => mkWorld (fs w) (Some l) (zookeeper w) (trace w)).

Definition supervisor_call : M World (list procinfo) :=
  let! s := gets supervisor in
  match s with
  | Some l => ret l
  | None => throw ConnectionRefusedError
  end.

Definition getAllProcessInfo : M World (list procinfo) := supervisor_call.

Definition getProcessInfo (name : string) : M World procinfo :=
  let! l := supervisor_call in
  match find (fun p => String.eqb (full_name p) name) l with
  | Some p => ret p
  | None => throw (Fault "BAD_NAME")
  end.

Definition active (state : string) : bool :=
  String.eqb state "RUNNING" || String.eqb state "STARTING".

Definition set_state (name state : string) (l : list procinfo) : list procinfo :=
  map (fun p => if String.eqb (full_name p) name
                then mkProc (group p) (proc_name p) state else p) l.

(** *** The coordination service, through a kazoo client *)

Definition kc_start : M World (gmap string znode) :=
  let! z := gets zookeeper in
  match z with
  | Some tree => ret tree
  | None => throw KazooTimeoutError
  end.

Definition kc_get_children (tree : gmap string znode) (path : string)
  : M World (list string) :=
  match tree !! path with
  | Some n => ret (zchildren n)
  | None => throw NoNodeError
  end.

Definition kc_get (tree : gmap string znode) (path : string) : M World string :=
  match tree !! path with
  | Some n => ret (zdata n)
  | None => throw NoNodeError
  end.

(** ** The RPC envelope *)

Inductive rpc_data : Type :=
| DStr (s : string)
| DBool (b : bool)
| DInfo (info : procinfo)
| DInfoList (infos : list procinfo).

(** Modelled from the spec: [response_success], [response_failure] and
    [is_success] of [ad_management.common], which is not among the
    sources.  An envelope is [{ok: bool}] with either [data] (on success)
    or [errors: [string]] (on failure). *)
Inductive response : Type :=
| Success (data : rpc_data)
| Failure (errors : list string).

Definition response_success (data : rpc_data) : response := Success data.
Definition response_failure (errors : list string) : response := Failure errors.
Definition is_success (r : response) : bool :=
  match r with Success _ => true | Failure _ => false end.

(** ** monitoring_daemon.py *)

(** An identifier as it arrives over XML-RPC: an [int] or a [str]. *)
Inductive pyid : Type :=
| IdInt (z : Z)
| IdStr (s : string).

Definition str_of_id (i : pyid) : string :=
  match i with
  | IdInt z => str_of_Z z
  | IdStr s => s
  end.

(** The update payload [data_dict]. *)
Record update_payload : Type := mkPayload {
  name : string;
  data : string;
  digest : string
}.

(** What the daemon takes from modules that are not among the sources:
    the constants of [ad_management.common] and [lib.defines], the
    interpreter path, [ConfigGenerator] of [topology.generator],
    [json.dump] on a topology document, and the supervisor's answer to a
    request to start or to stop a process. *)
Class Deployment : Type := {
  UPDATE_DIR_PATH : string;
  UPDATE_SCRIPT_PATH : string;
  LOGS_DIR : string;
  PROJECT_ROOT : string;
  sys_executable : string;
  (** [ConfigGenerator().path_dict(isd_id, ad_id)['topo_file_abs']] *)
  topo_file_abs : pyid -> pyid -> string;
  (** [ConfigGenerator().write_derivatives(topology)], on the files *)
  write_derivatives :
    Topology -> gmap string node -> result (gmap string node);
  (** the text of [json.dump(topology, fh, sort_keys=True, indent=4)],
      which holds ASCII characters only (the others are escaped) and no
      carriage return *)
  json_dump : Topology -> string;
  json_dump_text : forall topology, ascii_text (json_dump topology) = true;
  (** [server.supervisor.startProcess(name)] and
      [server.supervisor.stopProcess(name)] of the supervisor, which is
      not among the sources: the answer and the processes after the
      request, or the fault that is sent back *)
  supervisor_start :
    string -> list procinfo -> result (bool * list procinfo);
  supervisor_stop :
    string -> list procinfo -> result (bool * list procinfo)
}.

Section Daemon.
Context `{Deployment}.

Definition get_full_ad_name (isd_id ad_id : pyid) : string :=
  "ad" +:+ str_of_id isd_id +:+ "-" +:+ str_of_id ad_id.

Definition get_topo_path (isd_id ad_id : pyid) : string :=
  topo_file_abs isd_id ad_id.

(** The thread is started; its body (a sleep, then the restart of the
    supervisor) runs after the handler has returned. *)
Definition restart_supervisor_async : M World unit :=
  log (EvThreadStart "Restart supervisor daemon").

Definition generator_write_derivatives (topology : Topology) : M World unit :=
  let! f := gets fs in
  let! f' := lift (write_derivatives topology f) in
  do! set_fs (fun _ => f') in
  log (EvDerivatives topology).

Definition update_topology (isd_id ad_id : pyid) (topology : Topology)
  : M World response :=
  let topo_path := get_topo_path isd_id ad_id in
  let! present := isfile topo_path in
  if negb present then ret (response_failure ["No AD topology found"])
  else
    do! write_file topo_path (json_dump topology) in
    do! generator_write_derivatives topology in
    do! restart_supervisor_async in
    ret (response_success (DStr "Topology file is successfully updated")).

Definition get_topology (isd_id ad_id : pyid) : M World response :=
  let isd_id := IdStr (str_of_id isd_id) in
  let ad_id := IdStr (str_of_id ad_id) in
  let topo_path := get_topo_path isd_id ad_id in
  let! present := isfile topo_path in
  if present then
    let! text := read_file topo_path in
    ret (response_success (DStr text))
  else ret (response_failure ["No topology file found"]).

Definition get_ad_info (isd_id ad_id : pyid) : M World response :=
  let ad_name := get_full_ad_name isd_id ad_id in
  let! all_process_info := getAllProcessInfo in
  let ad_process_info :=
    List.filter (fun x => String.eqb (group x) ad_name) all_process_info in
  ret (response_success (DInfoList ad_process_info)).

Definition get_process_info (full_process_name : string) : M World response :=
  let! info := getProcessInfo full_process_name in
  ret (response_success (DInfo info)).

Definition get_process_state (full_process_name : string)
  : M World (option string) :=
  let! info_response := get_process_info full_process_name in
  match info_response with
  | Success (DInfo info) => ret (Some (statename info))
  | Success _ => throw KeyError
  | Failure _ => ret None
  end.

Definition startProcess (name : string) : M World bool :=
  let! l := supervisor_call in
  do! log (EvStartProcess name) in
  let! r := lift (supervisor_start name l) in
  do! set_supervisor (snd r) in
  ret (fst r).

Definition stopProcess (name : string) : M World bool :=
  let! l := supervisor_call in
  do! log (EvStopProcess name) in
  let! r := lift (supervisor_stop name l) in
  do! set_supervisor (snd r) in
  ret (fst r).

Definition state_in_running_starting (st : option string) : bool :=
  match st with
  | Some s => active s
  | None => false
  end.

Definition start_process (process_name : string) : M World bool :=
  let! st := get_process_state process_name in
  if state_in_running_starting st then ret true
  else startProcess process_name.

Definition stop_process (process_name : string) : M World bool :=
  let! st := get_process_state process_name in
  if negb (state_in_running_starting st) then ret true
  else stopProcess process_name.

Definition control_process (isd_id ad_id : pyid)
    (process_name command : string) : M World response :=
  let ad_name := get_full_ad_name isd_id ad_id in
  let full_process_name := ad_name +:+ ":" +:+ process_name in
  if String.eqb command "START" then
    let! res := start_process full_process_name in
    ret (response_success (DBool res))
  else if String.eqb command "STOP" then
    let! res := stop_process full_process_name in
    ret (response_success (DBool res))
  else if String.eqb command "RESTART" then
    do! stop_process full_process_name in
    let! res := start_process full_process_name in
    ret (response_success (DBool res))
  else ret (response_failure ["Invalid command"]).

Definition run_updater (archive path : string) : M World unit :=
  let updater_log := path_join LOGS_DIR "updater.log" in
  do! open_append updater_log in
  log (EvPopen [sys_executable; UPDATE_SCRIPT_PATH; archive; path] updater_log).

Definition send_update (isd_id ad_id : pyid) (data_dict : update_payload)
  : M World response :=
  let base64_data := data data_dict in
  let received_digest := digest data_dict in
  let! raw_data := lift (b64decode base64_data) in
  if negb (String.eqb (sha1_hexdigest raw_data) received_digest) then
    ret (response_failure ["Hash value does not match"])
  else
    let! e := path_exists UPDATE_DIR_PATH in
    do! (if negb e then makedirs UPDATE_DIR_PATH else ret tt) in
    let! d := isdir UPDATE_DIR_PATH in
    if negb d then throw AssertionError
    else
      let archive_name := basename (name data_dict) in
      let out_file_path := path_join UPDATE_DIR_PATH archive_name in
      do! write_file out_file_path raw_data in
      do! run_updater out_file_path PROJECT_ROOT in
      ret (response_success (DStr EmptyString)).

(** [get_id = lambda name: name.split('__')[-1]] *)
Definition get_id (name : string) : string := last_field (split "__" name).

(** [sorted(contenders, key=get_id)[0]] *)
Definition first_by_id (contenders : list string) : result string :=
  try! l := sorted String.leb (fun c => Ok (get_id c)) contenders in
  match l with
  | first :: _ => Ok first
  | [] => Raise IndexError
  end.

Definition NUL : string := String "000"%char EmptyString.

Definition lock_path_of (isd_id ad_id : pyid) (server_type : string) : string :=
  "/ISD" +:+ str_of_id isd_id +:+ "-AD" +:+ str_of_id ad_id +:+ "/" +:+
  server_type +:+ "/lock".

Definition get_master_id (isd_id ad_id : pyid) (server_type : string)
  : M World response :=
  if negb (existsb (String.eqb server_type) ["bs"; "cs"; "ps"]) then
    ret (response_failure ["Invalid server type"])
  else
    let lock_path := lock_path_of isd_id ad_id server_type in
    (* [try: ... except NoNodeError: ... finally: kc.stop()]; closing
       the session leaves no mark on [World]. *)
    fun w =>
      let body : M World response :=
        let! kc := kc_start in
        let! contenders := kc_get_children kc lock_path in
        match contenders with
        | [] => ret (response_failure ["No lock contenders found"])
        | _ =>
            let! lock_holder_file := lift (first_by_id contenders) in
            let lock_holder_path := path_join lock_path lock_holder_file in
            let! lock_contents := kc_get kc lock_holder_path in
            match split NUL lock_contents with
            | [server_id; _; _] =>
                let! server_id := lift (str_utf8 server_id) in
                ret (response_success (DStr server_id))
            | _ => throw ValueError
            end
        end in
      match body w with
      | (Raise NoNodeError, w') =>
          (Ok (response_failure ["No lock data found"]), w')
      | r => r
      end.
End Daemon.

(** ** models.py: [AD.fill_from_topology] *)

(** Modelled from the spec: the [Topology] object of [lib.topology], which
    is not among the sources.  Its elements carry an address and a name;
    a router carries in addition an interface with the identity of the
    neighbor domain, the relationship type, the interface addresses and
    the interface identifier.  The fields are the attributes that
    [fill_from_topology] reads. *)
Record InterfaceObj : Type := mkInterfaceObj {
  neighbor_ad : Z;
  neighbor_isd : Z;
  neighbor_type : string;
  if_addr : string;
  to_addr : string;
  if_id : Z
}.

Record RouterObj : Type := mkRouterObj {
  router_addr : string;
  router_name : string;
  interface : InterfaceObj
}.

Record ServerObj : Type := mkServerObj {
  server_addr : string;
  server_name : string
}.

Record TopologyObj : Type := mkTopologyObj {
  topo_is_core_ad : bool;
  get_all_edge_routers : list RouterObj;
  beacon_servers : list ServerObj;
  certificate_servers : list ServerObj;
  path_servers : list ServerObj;
  dns_servers : list ServerObj
}.

(** The rows of the tables. *)
Record ADrow : Type := mkAD {
  ad_pk : Z;              (* [id] *)
  ad_isd : Z;             (* [isd] *)
  is_core_ad : bool
}.

Record RouterWeb : Type := mkRouterWeb {
  rw_addr : string;
  rw_ad : Z;
  rw_name : string;
  rw_neighbor_ad : Z;
  rw_neighbor_type : string;
  rw_interface_addr : string;
  rw_interface_toaddr : string;
  rw_interface_id : Z
}.

Record ServerWeb : Type := mkServerWeb {
  sw_addr : string;
  sw_ad : Z;
  sw_name : string
}.

Record DB : Type := mkDB {
  ad_table : list ADrow;
  routerweb_set : list RouterWeb;
  pathserverweb_set : list ServerWeb;
  certificateserverweb_set : list ServerWeb;
  beaconserverweb_set : list ServerWeb;
  dnsserverweb_set : list ServerWeb
}.

(** [AD.objects.get(id=pk, isd=isd)] *)
Definition AD_objects_get (pk isd : Z) : M (ADrow * DB) ADrow :=
  let! rows := gets (fun '(_, db) =>
                 List.filter (fun a => (ad_pk a =? pk) && (ad_isd a =? isd))
                             (ad_table db)) in
  match rows with
  | [a] => ret a
  | [] => throw DoesNotExist
  | _ => throw MultipleObjectsReturned
  end.

(** A row violates [unique_together = (("ad", "addr"),)] of its table. *)
Definition router_conflict (r : RouterWeb) (rows : list RouterWeb) : bool :=
  existsb (fun x => (rw_ad x =? rw_ad r) && String.eqb (rw_addr x) (rw_addr r))
          rows.

Definition server_conflict (r : ServerWeb) (rows : list ServerWeb) : bool :=
  existsb (fun x => (sw_ad x =? sw_ad r) && String.eqb (sw_addr x) (sw_addr r))
          rows.

(** The five server tables, as [save] and [delete] address them. *)
Inductive table : Type := PathT | CertificateT | BeaconT | DnsT.

Definition rows_of (t : table) (db : DB) : list ServerWeb :=
  match t with
  | PathT => pathserverweb_set db
  | CertificateT => certificateserverweb_set db
  | BeaconT => beaconserverweb_set db
  | DnsT => dnsserverweb_set db
  end.

Definition set_rows (t : table) (rows : list ServerWeb) (db : DB) : DB :=
  match t with
  | PathT => mkDB (ad_table db) (routerweb_set db) rows
               (certificateserverweb_set db) (beaconserverweb_set db)
               (dnsserverweb_set db)
  | CertificateT => mkDB (ad_table db) (routerweb_set db)
               (pathserverweb_set db) rows (beaconserverweb_set db)
               (dnsserverweb_set db)
  | BeaconT => mkDB (ad_table db) (routerweb_set db) (pathserverweb_set db)
               (certificateserverweb_set db) rows (dnsserverweb_set db)
  | DnsT => mkDB (ad_table db) (routerweb_set db) (pathserverweb_set db)
               (certificateserverweb_set db) (beaconserverweb_set db) rows
  end.

Definition set_routers (rows : list RouterWeb) (db : DB) : DB :=
  mkDB (ad_table db) rows (pathserverweb_set db)
       (certificateserverweb_set db) (beaconserverweb_set db)
       (dnsserverweb_set db).

(** [router_element.save()] of a new row. *)
Definition save_router (r : RouterWeb) : M (ADrow * DB) unit :=
  let! rows := gets (fun '(_, db) => routerweb_set db) in
  if router_conflict r rows then throw IntegrityError
  else modify (fun '(self, db) => (self, set_routers (rows ++ [r]) db)).

(** [element.save()] of a new row of a server table. *)
Definition save_server (t : table) (r : ServerWeb) : M (ADrow * DB) unit :=
  let! rows := gets (fun '(_, db) => rows_of t db) in
  if server_conflict r rows then throw IntegrityError
  else modify (fun '(self, db) => (self, set_rows t (rows ++ [r]) db)).

(** [self.<table>_set.all().delete()] for the five tables. *)
Definition delete_elements (self : ADrow) (db : DB) : DB :=
  let keep (r : ServerWeb) := negb (sw_ad r =? ad_pk self) in
  mkDB (ad_table db)
       (List.filter (fun r => negb (rw_ad r =? ad_pk self)) (routerweb_set db))
       (List.filter keep (pathserverweb_set db))
       (List.filter keep (certificateserverweb_set db))
       (List.filter keep (beaconserverweb_set db))
       (List.filter keep (dnsserverweb_set db)).

Definition is_IntegrityError (e : exn) : bool :=
  match e with IntegrityError => true | _ => false end.

(** The body of [for router in routers]. *)
Definition add_router (router : RouterObj) : M (ADrow * DB) unit :=
  let interface := interface router in
  let! neighbor_ad :=
    AD_objects_get (neighbor_ad interface) (neighbor_isd interface) in
  let! self := gets fst in
  save_router
    (mkRouterWeb (router_addr router) (ad_pk self) (router_name router)
       (ad_pk neighbor_ad) (neighbor_type interface) (if_addr interface)
       (to_addr interface) (if_id interface)).

(** The body of the loops over the servers of one type. *)
Definition add_server (t : table) (s : ServerObj) : M (ADrow * DB) unit :=
  let! self := gets fst in
  save_server t (mkServerWeb (server_addr s) (ad_pk self) (server_name s)).

(** [AD.fill_from_topology(self, topology, clear)]: the state is the
    instance [self] and the database. *)
Definition fill_from_topology (topology : TopologyObj) (clear : bool)
  : M (ADrow * DB) unit :=
  do! (if clear
       then modify (fun '(self, db) => (self, delete_elements self db))
       else ret tt) in
  do! modify (fun '(self, db) =>
        (mkAD (ad_pk self) (ad_isd self) (topo_is_core_ad topology), db)) in
  let routers := get_all_edge_routers topology in
  let beacon_servers := beacon_servers topology in
  let certificate_servers := certificate_servers topology in
  let path_servers := path_servers topology in
  let dns_servers := dns_servers topology in
  except_pass is_IntegrityError
    (do! for_each routers add_router in
     do! for_each beacon_servers (add_server BeaconT) in
     do! for_each certificate_servers (add_server CertificateT) in
     do! for_each path_servers (add_server PathT) in
     for_each dns_servers (add_server DnsT)).

(** ** A sample deployment and sample states, for evaluation *)

(** A stand-in for [json.dump] that prints the core flag only. *)
Definition sample_json_dump (t : Topology) : string :=
  if Core t =? 0 then "{Core: 0, ...}" else "{Core: 1, ...}".

(** The states in which the supervisor takes a process to be running. *)
Definition running_state (state : string) : bool :=
  String.eqb state "RUNNING" || String.eqb state "STARTING"
  || String.eqb state "BACKOFF".

(** A supervisor whose processes come up and go down when asked. *)
Definition sample_start (name : string) (l : list procinfo)
  : result (bool * list procinfo) :=
  match find (fun p => String.eqb (full_name p) name) l with
  | None => Raise (Fault "BAD_NAME")
  | Some p =>
      if running_state (statename p) then Raise (Fault "ALREADY_STARTED")
      else Ok (true, set_state name "RUNNING" l)
  end.

Definition sample_stop (name : string) (l : list procinfo)
  : result (bool * list procinfo) :=
  match find (fun p => String.eqb (full_name p) name) l with
  | None => Raise (Fault "BAD_NAME")
  | Some p =>
      if running_state (statename p) then Ok (true, set_state name "STOPPED" l)
      else Raise (Fault "NOT_RUNNING")
  end.

#[local] Instance sample_deployment : Deployment := {|
  UPDATE_DIR_PATH := "/scion/.update_files";
  UPDATE_SCRIPT_PATH := "/scion/ad_management/updater.py";
  LOGS_DIR := "/scion/logs";
  PROJECT_ROOT := "/scion";
  sys_executable := "/usr/bin/python3";
  topo_file_abs := fun isd_id ad_id =>
    "/scion/topology/ISD" +:+ str_of_id isd_id +:+ "/topologies/ISD:" +:+
    str_of_id isd_id +:+ "-AD:" +:+ str_of_id ad_id +:+ ".json";
  write_derivatives := fun _ f => Ok f;
  json_dump := sample_json_dump;
  json_dump_text := fun t =>
    match Core t =? 0 as b
      return ascii_text (if b then "{Core: 0, ...}" else "{Core: 1, ...}") = true
    with true => eq_refl | false => eq_refl end;
  supervisor_start := sample_start;
  supervisor_stop := sample_stop
|}.

(** An interpreter that reads no other string as an integer. *)
#[local] Instance sample_interpreter : Interpreter := {|
  int_other := fun _ => None
|}.

Definition empty_world : World := mkWorld ∅ (Some []) (Some ∅) [].

(** A node with the project and its directory of logs. *)
Definition sample_node : World :=
  mkWorld {[ "/scion" := Dir; "/scion/logs" := Dir ]} (Some []) (Some ∅) [].

(** ** The vocabulary of the properties, sample states and tactics *)

(** *** The integer that a name denotes *)

(** The place of a character in a string, counted from [n]. *)
Fixpoint place_in (s : string) (n : Z) (c : ascii) : option Z :=
  match s with
  | EmptyString => None
  | String d s' => if Ascii.eqb c d then Some n else place_in s' (n + 1) c
  end.

(** The digit that a character stands for: its place among the decimal
    digits. *)
Definition digit_of (c : ascii) : option Z := place_in "0123456789" 0 c.

(** The value of a run of decimal digits, by position: the last digit
    counts once, the one before it ten times, and so on.  The digits are
    given last first. *)
Fixpoint positional (digits_rev : list ascii) : option Z :=
  match digits_rev with
  | [] => Some 0
  | c :: more =>
      match digit_of c, positional more with
      | Some d, Some v => Some (d + 10 * v)
      | _, _ => None
      end
  end.

(** The number that a non-empty run of decimal digits stands for. *)
Definition numeral_value (s : string) : option Z :=
  match s with
  | EmptyString => None
  | _ => positional (rev (list_ascii_of_string s))
  end.

(** The blanks that may surround an integer literal: the space, the
    tabulators, the line feed, the form feed and the carriage return. *)
Definition blank (c : ascii) : bool :=
  match c with
  | " "%char | "009"%char | "010"%char | "011"%char | "012"%char
  | "013"%char => true
  | _ => false
  end.

Definition blanks (s : string) : bool :=
  forallb blank (list_ascii_of_string s).

(** [s] is a literal of the integer [z]: blanks, a sign or none, a run of
    decimal digits, blanks. *)
Definition int_literal (s : string) (z : Z) : Prop :=
  exists ws1 digits ws2 v,
    blanks ws1 = true /\ blanks ws2 = true /\
    numeral_value digits = Some v /\
    ((s = ws1 +:+ digits +:+ ws2 /\ z = v) \/
     (s = ws1 +:+ "+" +:+ digits +:+ ws2 /\ z = v) \/
     (s = ws1 +:+ "-" +:+ digits +:+ ws2 /\ z = - v)).

(** *** The diff *)

Definition on_snd {K A B} (g : A -> B) (x : K * A) : K * B := (fst x, g (snd x)).

(** The order of two key-decorated elements. *)
Definition key_le {A K : Type} (leb : K -> K -> bool) (a b : K * A) : Prop :=
  leb (fst a) (fst b) = true.


Definition with_edge_routers (er : list (string * RouterElement))
    (t : Topology) : Topology :=
  mkTopology (ISDID t) (ADID t) (Core t) er (PathServers t)
             (BeaconServers t) (CertificateServers t) (DNSServers t).

Definition set_neighbor_type (nt : string) (r : RouterElement) : RouterElement :=
  let i := Interface r in
  mkRouter (RAddrType r) (RAddr r)
    (mkInterface nt (NeighborISD i) (NeighborAD i) (IfAddr i) (IfAddrType i)
       (ToAddr i) (UdpPort i) (ToUdpPort i) (IFID i)).

(** Two documents hold the same scalars and, in each of the four
    collections that are diffed, the same elements under the same names,
    in whatever order each document lists them (two dictionaries are equal
    whatever their orders of iteration). *)
Definition identical_except_dns (t1 t2 : Topology) : Prop :=
  ISDID t2 = ISDID t1 /\ ADID t2 = ADID t1 /\ Core t2 = Core t1 /\
  Permutation (PathServers t2) (PathServers t1) /\
  Permutation (CertificateServers t2) (CertificateServers t1) /\
  Permutation (BeaconServers t2) (BeaconServers t1) /\
  Permutation (EdgeRouters t2) (EdgeRouters t1).


(** [t2] is [t1] but for the [NeighborType] of one edge router, which is
    [nt1] in [t1] and [nt2] in [t2]; each document lists its elements in
    an order of its own. *)
Definition differ_in_neighbor_type (t1 t2 : Topology) (nt1 nt2 : string)
  : Prop :=
  ISDID t2 = ISDID t1 /\ ADID t2 = ADID t1 /\ Core t2 = Core t1 /\
  Permutation (PathServers t2) (PathServers t1) /\
  Permutation (CertificateServers t2) (CertificateServers t1) /\
  Permutation (BeaconServers t2) (BeaconServers t1) /\
  Permutation (DNSServers t2) (DNSServers t1) /\
  exists name r rest,
    Permutation (EdgeRouters t1) ((name, r) :: rest) /\
    Permutation (EdgeRouters t2) ((name, set_neighbor_type nt2 r) :: rest) /\
    NeighborType (Interface r) = nt1 /\
    nt1 <> nt2.


(** The entry of an address that differs. *)
Definition addr_entry (server_type : string) (rs cs : Element) : list string :=
  if String.eqb (Addr rs) (Addr cs) then []
  else [dq +:+ "Addr" +:+ dq +:+ " values differ for one of " +:+ server_type
        +:+ ". Local: " +:+ Addr cs +:+ ", remote: " +:+ Addr rs].

(** The entry of a field of the interface that differs: the value of the
    remote router is printed as the local one, and the other way round. *)
Definition interface_entry (field remote_value current_value : string)
  : string :=
  dq +:+ "Interface:" +:+ field +:+ dq +:+
  " differ for one of EdgeRouters. Local: " +:+ remote_value +:+
  ", remote: " +:+ current_value.

(** The comparison of two routers: the address, then the identity of the
    neighbor and the type of the link. *)
Definition router_entries (rs cs : RouterElement) : list string :=
  ((if String.eqb (RAddr rs) (RAddr cs) then []
    else [dq +:+ "Addr" +:+ dq +:+ " values differ for one of EdgeRouters"
          +:+ ". Local: " +:+ RAddr cs +:+ ", remote: " +:+ RAddr rs])
   ++ (if NeighborAD (Interface rs) =? NeighborAD (Interface cs) then []
       else [interface_entry "NeighborAD"
               (str_of_Z (NeighborAD (Interface rs)))
               (str_of_Z (NeighborAD (Interface cs)))])
   ++ (if NeighborISD (Interface rs) =? NeighborISD (Interface cs) then []
       else [interface_entry "NeighborISD"
               (str_of_Z (NeighborISD (Interface rs)))
               (str_of_Z (NeighborISD (Interface cs)))])
   ++ (if String.eqb (NeighborType (Interface rs))
                     (NeighborType (Interface cs)) then []
       else [interface_entry "NeighborType" (NeighborType (Interface rs))
               (NeighborType (Interface cs))]))%list.



Definition sample_router : RouterElement :=
  mkRouter "IPv4" "10.0.0.1"
    (mkInterface "PARENT" 1 2 "10.0.0.2" "IPv4" "10.0.0.3" 50000 50000 2).

Definition sample_topology : Topology :=
  mkTopology 1 10 0
    [("2", sample_router); ("1", set_neighbor_type "PEER" sample_router)]
    [("1", mkElement "IPv4" "10.0.1.1")]
    [("1", mkElement "IPv4" "10.0.2.1"); ("2", mkElement "IPv4" "10.0.2.2")]
    [("1", mkElement "IPv4" "10.0.3.1")]
    [("1", mkElement "IPv4" "10.0.4.1")].

Definition sample_topology_fewer : Topology :=
  mkTopology 1 10 0
    [("1", set_neighbor_type "PEER" sample_router); ("2", sample_router)]
    [("1", mkElement "IPv4" "10.0.1.9")]
    [("1", mkElement "IPv4" "10.0.2.1")]
    [("1", mkElement "IPv4" "10.0.3.1")]
    [].

(** A document whose names are in the order of the strings, which is not
    the order of the numbers: [10] comes before [9]. *)
Definition sample_topology_ten : Topology :=
  mkTopology 1 10 0
    [("10", mkRouter "IPv4" "10.0.0.10"
              (mkInterface "CHILD" 1 3 "10.0.0.11" "IPv4" "10.0.0.12"
                 50000 50000 3));
     ("9", sample_router)]
    [("10", mkElement "IPv4" "10.0.1.10"); ("9", mkElement "IPv4" "10.0.1.9")]
    [("1", mkElement "IPv4" "10.0.2.1")]
    [("1", mkElement "IPv4" "10.0.3.1")]
    [].



(** A peer that lists [9] before [10], has moved router [9] and runs one
    path server only. *)
Definition sample_topology_ten_moved : Topology :=
  mkTopology 1 10 0
    [("9", mkRouter "IPv4" "10.0.0.99" (Interface sample_router));
     ("10", mkRouter "IPv4" "10.0.0.10"
              (mkInterface "CHILD" 1 3 "10.0.0.11" "IPv4" "10.0.0.12"
                 50000 50000 3))]
    [("9", mkElement "IPv4" "10.0.1.9")]
    [("1", mkElement "IPv4" "10.0.2.1")]
    [("1", mkElement "IPv4" "10.0.3.1")]
    [].


(** A document with the names [1] and [01], which denote one integer. *)
Definition sample_topology_twins : Topology :=
  mkTopology 1 10 0
    [("1", sample_router);
     ("01", mkRouter "IPv4" "10.0.0.10"
              (mkInterface "CHILD" 1 3 "10.0.0.11" "IPv4" "10.0.0.12"
                 50000 50000 3))]
    [] [] [] [].

(** The same document, listed in the order of the strings. *)
Definition sample_topology_twins_relisted : Topology :=
  mkTopology 1 10 0
    [("01", mkRouter "IPv4" "10.0.0.10"
              (mkInterface "CHILD" 1 3 "10.0.0.11" "IPv4" "10.0.0.12"
                 50000 50000 3));
     ("1", sample_router)]
    [] [] [] [].

(** The twins relisted, with the link of router [1] turned into a
    peering link. *)
Definition sample_topology_twins_peer : Topology :=
  with_edge_routers
    [("01", mkRouter "IPv4" "10.0.0.10"
              (mkInterface "CHILD" 1 3 "10.0.0.11" "IPv4" "10.0.0.12"
                 50000 50000 3));
     ("1", set_neighbor_type "PEER" sample_router)]
    sample_topology_twins.

Section DiffVocabulary.
Context `{Interpreter}.

(** The integer that a name denotes for [int]: a plain name is a literal
    of it; the interpreter says what another name denotes. *)
Definition denotes (s : string) (z : Z) : Prop :=
  if plain s then int_literal s z else int_other s = Some z.

(** The names of a collection all denote integers. *)
Definition names_ok {E} (l : list (string * E)) : Prop :=
  Forall (fun it => exists z, denotes (fst it) z) l.

(** The names of the four collections that the diff sorts denote
    integers (the names of the DNS servers are never read). *)
Definition valid_topology (t : Topology) : Prop :=
  names_ok (PathServers t) /\ names_ok (CertificateServers t) /\
  names_ok (BeaconServers t) /\ names_ok (EdgeRouters t).

(** The names of a collection denote the integers [zs], in this order. *)
Definition numbered {E} (l : list (string * E)) (zs : list Z) : Prop :=
  Forall2 (fun it z => denotes (fst it) z) l zs.

(** The names of a collection denote integers that differ from one
    another. *)
Definition distinct_numbers {E} (l : list (string * E)) : Prop :=
  exists zs, numbered l zs /\ List.NoDup zs.

Definition distinctly_numbered (t : Topology) : Prop :=
  distinct_numbers (PathServers t) /\ distinct_numbers (CertificateServers t) /\
  distinct_numbers (BeaconServers t) /\ distinct_numbers (EdgeRouters t).

(** The name [a] denotes an integer that is not above the one of [b]. *)
Definition number_le (a b : string) : Prop :=
  exists za zb, denotes a za /\ denotes b zb /\ za <= zb.

(** [s] holds the items of [l] in the order of the integers that their
    names denote. *)
Definition numeric_sort {E} (l s : list (string * E)) : Prop :=
  Permutation s l /\
  StronglySorted (fun a b => number_le (fst a) (fst b)) s.

(** What one collection adds to the diff, in the words of the
    specification: one entry when the counts differ, else the entries of
    the pairwise comparison of the two sides in sorted order. *)
Definition collection_spec {E} (count_entry : string)
    (cmp : E -> E -> list string) (remote current : list (string * E))
    (out : list string) : Prop :=
  (length remote <> length current -> out = [count_entry]) /\
  (length remote = length current ->
   exists rs cs,
     numeric_sort remote rs /\ numeric_sort current cs /\
     out = flat_map (fun p => cmp (fst p) (snd p))
             (combine (map snd rs) (map snd cs))).


(** The number that [int] reads ([0] when it reads none), and the items
    of a collection as the stable sort by this number arranges them. *)
Definition int_of (s : string) : Z :=
  match py_int s with Ok z => z | Raise _ => 0 end.

Definition sorted_decorated_items {E} (l : list (string * E))
  : list (Z * (string * E)) :=
  sort_decorated Z.leb (combine (map (fun it => int_of (fst it)) l) l).

Definition sorted_items {E} (l : list (string * E)) : list (string * E) :=
  map snd (sorted_decorated_items l).

End DiffVocabulary.

(** *** The daemon *)

(** Runs the combinators of the monad. *)
Ltac run_monad :=
  cbv beta iota zeta delta
    [bind ret throw lift gets modify log set_fs isfile isdir path_exists].

(** Reduces the projections of a [World] that is given by its fields. *)
Ltac world_proj := cbn [fs supervisor zookeeper trace negb].

Definition sample_topo_path : string :=
  "/scion/topology/ISD1/topologies/ISD:1-AD:10.json".

Definition world_with_topology : World :=
  mkWorld {[ sample_topo_path := File "{}" ]} (Some []) (Some ∅) [].

Definition all_digits (s : string) : bool :=
  forallb is_digit (list_ascii_of_string s).

Definition known_server_type (server_type : string) : bool :=
  existsb (String.eqb server_type) ["bs"; "cs"; "ps"].

(** [w1] is [w] but for directories that have been made where nothing
    was, each at a path that the path [d] starts with (the directories
    that lead to [d], and [d]). *)
Definition directories_made (d : string) (w w1 : World) : Prop :=
  supervisor w1 = supervisor w /\ zookeeper w1 = zookeeper w /\
  (exists evs, trace w1 = (trace w ++ evs)%list /\
               Forall (fun ev => exists q, ev = EvMkdir q) evs) /\
  forall q, fs w1 !! q = fs w !! q \/
            (fs w !! q = None /\ fs w1 !! q = Some Dir /\
             exists rest, d = q +:+ rest).

Section SendUpdateRun.
Context `{Deployment}.

Definition updater_log : string := path_join LOGS_DIR "updater.log".

Definition out_path (p : update_payload) : string :=
  path_join UPDATE_DIR_PATH (basename (name p)).

(** [if not os.path.exists(UPDATE_DIR_PATH): os.makedirs(UPDATE_DIR_PATH)] *)
Definition staging : M World unit :=
  let! e := path_exists UPDATE_DIR_PATH in
  if negb e then makedirs UPDATE_DIR_PATH else ret tt.

Definition after_write (path data : string) (w : World) : World :=
  mkWorld (<[path := File data]> (fs w)) (supervisor w) (zookeeper w)
          (trace w ++ [EvWrite path data]).

Definition after_updater (archive : string) (w : World) : World :=
  mkWorld (match fs w !! updater_log with
           | Some _ => fs w
           | None => <[updater_log := File EmptyString]> (fs w)
           end)
          (supervisor w) (zookeeper w)
          (trace w ++ [EvOpenAppend updater_log;
                       EvPopen [sys_executable; UPDATE_SCRIPT_PATH; archive;
                                PROJECT_ROOT] updater_log]).

(** [open(path, 'wb')] or [open(path, 'a')] raises nothing. *)
Definition can_open (f : gmap string node) (path : string) : bool :=
  match open_for_write f path with Ok _ => true | Raise _ => false end.

(** The run of [send_update] once the digest has been checked. *)
Definition verified_run (p : update_payload) (raw_data : string) (w : World)
  : result response * World :=
  match staging w with
  | (Raise e, w1) => (Raise e, w1)
  | (Ok _, w1) =>
      if negb (is_dir (fs w1) UPDATE_DIR_PATH) then (Raise AssertionError, w1)
      else
        match open_for_write (fs w1) (out_path p) with
        | Raise e => (Raise e, w1)
        | Ok _ =>
            let w2 := after_write (out_path p) raw_data w1 in
            match open_for_write (fs w2) updater_log with
            | Raise e => (Raise e, w2)
            | Ok _ =>
                (Ok (Success (DStr EmptyString)), after_updater (out_path p) w2)
            end
        end
  end.

(** A path directly inside a directory: the directory joined with one
    name that holds no separator and is not empty, [.] or [..]. *)
Definition inside_directory (d path : string) : Prop :=
  exists b, path = path_join d b /\ has_slash b = false /\
            b <> EmptyString /\ b <> "." /\ b <> "..".

(** *** The methods of the daemon and their outcomes *)

(** A call of one of the methods that the daemon registers with its RPC
    server ([to_register]). *)
Inductive call : Type :=
| GetTopology (isd_id ad_id : pyid)
| GetProcessInfo (full_process_name : string)
| ControlProcess (isd_id ad_id : pyid) (process_name command : string)
| GetAdInfo (isd_id ad_id : pyid)
| SendUpdate (isd_id ad_id : pyid) (data_dict : update_payload)
| UpdateTopology (isd_id ad_id : pyid) (topology : Topology)
| GetMasterId (isd_id ad_id : pyid) (server_type : string).

Definition dispatch (c : call) : M World response :=
  match c with
  | GetTopology isd_id ad_id => get_topology isd_id ad_id
  | GetProcessInfo full_process_name => get_process_info full_process_name
  | ControlProcess isd_id ad_id process_name command =>
      control_process isd_id ad_id process_name command
  | GetAdInfo isd_id ad_id => get_ad_info isd_id ad_id
  | SendUpdate isd_id ad_id data_dict => send_update isd_id ad_id data_dict
  | UpdateTopology isd_id ad_id topology =>
      update_topology isd_id ad_id topology
  | GetMasterId isd_id ad_id server_type =>
      get_master_id isd_id ad_id server_type
  end.

(** The conditions that a handler tests itself, with the errors of the
    failure envelope that it then returns. *)
Definition tested (c : call) (w : World) (errors : list string) : Prop :=
  match c with
  | GetTopology isd_id ad_id =>
      is_file (fs w) (get_topo_path (IdStr (str_of_id isd_id))
                                    (IdStr (str_of_id ad_id))) = false /\
      errors = ["No topology file found"]
  | UpdateTopology isd_id ad_id _ =>
      is_file (fs w) (get_topo_path isd_id ad_id) = false /\
      errors = ["No AD topology found"]
  | GetProcessInfo _ => False
  | GetAdInfo _ _ => False
  | ControlProcess _ _ _ command =>
      ~ In command ["START"; "STOP"; "RESTART"] /\
      errors = ["Invalid command"]
  | SendUpdate _ _ p =>
      (exists raw_data, b64decode (data p) = Ok raw_data /\
                        sha1_hexdigest raw_data <> digest p) /\
      errors = ["Hash value does not match"]
  | GetMasterId isd_id ad_id server_type =>
      (known_server_type server_type = false /\
       errors = ["Invalid server type"]) \/
      (known_server_type server_type = true /\
       exists tree,
         zookeeper w = Some tree /\
         match tree !! lock_path_of isd_id ad_id server_type with
         | None => errors = ["No lock data found"]
         | Some n =>
             (zchildren n = [] /\ errors = ["No lock contenders found"]) \/
             (exists holder,
                zchildren n <> [] /\
                first_by_id (zchildren n) = Ok holder /\
                tree !! path_join (lock_path_of isd_id ad_id server_type)
                                  holder = None /\
                errors = ["No lock data found"])
         end)
  end.

(** The faults of a look-up of a process with the supervisor. *)
Inductive lookup_fault (name : string) (w : World) : exn -> Prop :=
| lookup_unreachable :
    supervisor w = None -> lookup_fault name w ConnectionRefusedError
| lookup_unknown l :
    supervisor w = Some l ->
    find (fun p => String.eqb (full_name p) name) l = None ->
    lookup_fault name w (Fault "BAD_NAME").

(** The faults of [start_process] and of [stop_process]: those of the
    look-up, and the fault that the supervisor sends back when it is asked
    to start a process that the daemon takes to be idle, or to stop one
    that it takes to be active. *)
Inductive start_fault (name : string) (w : World) : exn -> Prop :=
| start_lookup e : lookup_fault name w e -> start_fault name w e
| start_refused l p e :
    supervisor w = Some l ->
    find (fun p => String.eqb (full_name p) name) l = Some p ->
    active (statename p) = false ->
    supervisor_start name l = Raise e ->
    start_fault name w e.

Inductive stop_fault (name : string) (w : World) : exn -> Prop :=
| stop_lookup e : lookup_fault name w e -> stop_fault name w e
| stop_refused l p e :
    supervisor w = Some l ->
    find (fun p => String.eqb (full_name p) name) l = Some p ->
    active (statename p) = true ->
    supervisor_stop name l = Raise e ->
    stop_fault name w e.

(** The node after [stop_process] has returned: as it was when the
    daemon takes the process to be idle, else with the request to stop it
    recorded and the processes as the supervisor leaves them. *)
Inductive after_stop (name : string) (w : World) : World -> Prop :=
| stop_idle l p :
    supervisor w = Some l ->
    find (fun p => String.eqb (full_name p) name) l = Some p ->
    active (statename p) = false ->
    after_stop name w w
| stop_done l p r :
    supervisor w = Some l ->
    find (fun p => String.eqb (full_name p) name) l = Some p ->
    active (statename p) = true ->
    supervisor_stop name l = Ok r ->
    after_stop name w
      (mkWorld (fs w) (Some (snd r)) (zookeeper w)
               (trace w ++ [EvStopProcess name])).

(** The faults of a call: the exception of the first operation of the
    handler that fails, where the handler has no test of its own. *)
Inductive fault : call -> World -> exn -> Prop :=
| fault_read isd_id ad_id w data e :
    is_file (fs w) (get_topo_path (IdStr (str_of_id isd_id))
                                  (IdStr (str_of_id ad_id))) = true ->
    fs w !! get_topo_path (IdStr (str_of_id isd_id)) (IdStr (str_of_id ad_id))
    = Some (File data) ->
    text_of_bytes data = Raise e ->
    fault (GetTopology isd_id ad_id) w e
| fault_derivatives isd_id ad_id topology w e :
    is_file (fs w) (get_topo_path isd_id ad_id) = true ->
    write_derivatives topology
      (<[get_topo_path isd_id ad_id := File (json_dump topology)]> (fs w))
    = Raise e ->
    fault (UpdateTopology isd_id ad_id topology) w e
| fault_ad_info isd_id ad_id w :
    supervisor w = None ->
    fault (GetAdInfo isd_id ad_id) w ConnectionRefusedError
| fault_process_info full_process_name w e :
    lookup_fault full_process_name w e ->
    fault (GetProcessInfo full_process_name) w e
| fault_start isd_id ad_id process_name w e :
    start_fault (get_full_ad_name isd_id ad_id +:+ ":" +:+ process_name) w e ->
    fault (ControlProcess isd_id ad_id process_name "START") w e
| fault_stop isd_id ad_id process_name w e :
    stop_fault (get_full_ad_name isd_id ad_id +:+ ":" +:+ process_name) w e ->
    fault (ControlProcess isd_id ad_id process_name "STOP") w e
| fault_restart_stop isd_id ad_id process_name w e :
    stop_fault (get_full_ad_name isd_id ad_id +:+ ":" +:+ process_name) w e ->
    fault (ControlProcess isd_id ad_id process_name "RESTART") w e
| fault_restart_start isd_id ad_id process_name w w1 e :
    after_stop (get_full_ad_name isd_id ad_id +:+ ":" +:+ process_name) w w1 ->
    start_fault (get_full_ad_name isd_id ad_id +:+ ":" +:+ process_name) w1 e ->
    fault (ControlProcess isd_id ad_id process_name "RESTART") w e
| fault_decode isd_id ad_id p w e :
    b64decode (data p) = Raise e ->
    fault (SendUpdate isd_id ad_id p) w e
| fault_staging isd_id ad_id p w raw_data w1 e :
    b64decode (data p) = Ok raw_data ->
    sha1_hexdigest raw_data = digest p ->
    staging w = (Raise e, w1) ->
    fault (SendUpdate isd_id ad_id p) w e
| fault_assert isd_id ad_id p w raw_data w1 :
    b64decode (data p) = Ok raw_data ->
    sha1_hexdigest raw_data = digest p ->
    staging w = (Ok tt, w1) ->
    is_dir (fs w1) UPDATE_DIR_PATH = false ->
    fault (SendUpdate isd_id ad_id p) w AssertionError
| fault_archive isd_id ad_id p w raw_data w1 e :
    b64decode (data p) = Ok raw_data ->
    sha1_hexdigest raw_data = digest p ->
    staging w = (Ok tt, w1) ->
    is_dir (fs w1) UPDATE_DIR_PATH = true ->
    open_for_write (fs w1) (out_path p) = Raise e ->
    fault (SendUpdate isd_id ad_id p) w e
| fault_log isd_id ad_id p w raw_data w1 e :
    b64decode (data p) = Ok raw_data ->
    sha1_hexdigest raw_data = digest p ->
    staging w = (Ok tt, w1) ->
    is_dir (fs w1) UPDATE_DIR_PATH = true ->
    can_open (fs w1) (out_path p) = true ->
    open_for_write (fs (after_write (out_path p) raw_data w1)) updater_log
    = Raise e ->
    fault (SendUpdate isd_id ad_id p) w e
| fault_session isd_id ad_id server_type w :
    known_server_type server_type = true ->
    zookeeper w = None ->
    fault (GetMasterId isd_id ad_id server_type) w KazooTimeoutError
| fault_lock_value isd_id ad_id server_type w tree n holder hn :
    known_server_type server_type = true ->
    zookeeper w = Some tree ->
    tree !! lock_path_of isd_id ad_id server_type = Some n ->
    zchildren n <> [] ->
    first_by_id (zchildren n) = Ok holder ->
    tree !! path_join (lock_path_of isd_id ad_id server_type) holder
    = Some hn ->
    length (split NUL (zdata hn)) <> 3%nat ->
    fault (GetMasterId isd_id ad_id server_type) w ValueError
| fault_identity isd_id ad_id server_type w tree n holder hn server_id f2 f3 e :
    known_server_type server_type = true ->
    zookeeper w = Some tree ->
    tree !! lock_path_of isd_id ad_id server_type = Some n ->
    zchildren n <> [] ->
    first_by_id (zchildren n) = Ok holder ->
    tree !! path_join (lock_path_of isd_id ad_id server_type) holder
    = Some hn ->
    split NUL (zdata hn) = [server_id; f2; f3] ->
    str_utf8 server_id = Raise e ->
    fault (GetMasterId isd_id ad_id server_type) w e.

End SendUpdateRun.

(** The SHA-1 digest of [hello], which [aGVsbG8=] encodes. *)
Definition hello_digest : string := "aaf4c61ddcc5e8a2dabede0f3b482cd9aea9434d".

(** A payload whose digest is that of the body and whose name ends in a
    separator. *)
Definition payload_trailing_slash : update_payload :=
  mkPayload "packages/" "aGVsbG8=" hello_digest.

(** The payload of the specification's example of a path traversal. *)
Definition payload_traversal : update_payload :=
  mkPayload "../../etc/passwd" "aGVsbG8=" hello_digest.

(** A single bit of the digest flipped: [a] (0x61) to [c] (0x63). *)
Definition payload_bit_flip : update_payload :=
  mkPayload "update.tar" "aGVsbG8=" "caf4c61ddcc5e8a2dabede0f3b482cd9aea9434d".

(** *** The lock queue *)

(** The suffix of a contender is a run of [width] decimal digits. *)
Definition fixed_width_digits (width : nat) (s : string) : Prop :=
  String.length s = width /\ all_digits s = true.

(** The value that a server stores in its lock node. *)
Definition lock_value (server_id : string) : string :=
  server_id +:+ NUL +:+ "127.0.0.1" +:+ NUL +:+ "30040".

(** The lock queue of the beacon servers of the domain 1-10. *)
Definition lock_world (entries : list (string * string)) : World :=
  mkWorld ∅ (Some [])
    (Some (list_to_map
             (("/ISD1-AD10/bs/lock", mkZnode EmptyString (map fst entries))
              :: map (fun e => ("/ISD1-AD10/bs/lock/" +:+ fst e,
                                mkZnode (snd e) [])) entries)))
    [].

(** The children of the example of the specification, in the order of
    their arrival in the listing. *)
Definition world_three_contenders : World :=
  lock_world [("c7f1__lock__0000000003", lock_value "bs1-10-3");
              ("a2d4__lock__0000000001", lock_value "bs1-10-1");
              ("e9b0__lock__0000000007", lock_value "bs1-10-2")].

(** A lock queue whose sequence numbers are not padded to one width. *)
Definition world_unpadded : World :=
  lock_world [("n__10", lock_value "bs1-10-2"); ("n__9", lock_value "bs1-10-1")].

(** A lock holder whose value is its identity alone. *)
Definition world_malformed_lock : World :=
  lock_world [("a2d4__lock__0000000001", "bs1-10-1")].

(** A body that is not base64: one character of the alphabet. *)
Definition payload_malformed : update_payload :=
  mkPayload "update.tar" "a" hello_digest.


(** *** The database *)

(** The neighbor reference of a router resolves against the domain
    records. *)
Definition resolves (db : DB) (router : RouterObj) : bool :=
  existsb (fun a => (ad_pk a =? neighbor_ad (interface router))
                    && (ad_isd a =? neighbor_isd (interface router)))
          (ad_table db).

(** The state when the loops start: the element tables cleared on demand,
    the core flag taken from the topology. *)
Definition prepared (topology : TopologyObj) (clear : bool)
    (st : ADrow * DB) : ADrow * DB :=
  (mkAD (ad_pk (fst st)) (ad_isd (fst st)) (topo_is_core_ad topology),
   if clear then delete_elements (fst st) (snd st) else snd st).

(** The body of the [try] block: the loops over the routers and over the
    servers of each type. *)
Definition add_elements (topology : TopologyObj) : M (ADrow * DB) unit :=
  do! for_each (get_all_edge_routers topology) add_router in
  do! for_each (beacon_servers topology) (add_server BeaconT) in
  do! for_each (certificate_servers topology) (add_server CertificateT) in
  do! for_each (path_servers topology) (add_server PathT) in
  for_each (dns_servers topology) (add_server DnsT).

Definition sample_db : DB :=
  mkDB [mkAD 10 1 false; mkAD 11 1 true]
       [mkRouterWeb "10.0.9.9" 10 "9" 11 "PARENT" "10.0.9.1" "10.0.9.2" 11]
       [] [] [mkServerWeb "10.0.2.9" 10 "9"] [].

(** Two routers, the second towards a domain without record, and a beacon
    server. *)
Definition sample_remote_topology : TopologyObj :=
  mkTopologyObj false
    [mkRouterObj "10.0.0.1" "1" (mkInterfaceObj 11 1 "PARENT" "10.0.0.2" "10.0.0.3" 11);
     mkRouterObj "10.0.0.4" "2" (mkInterfaceObj 99 1 "CHILD" "10.0.0.5" "10.0.0.6" 99)]
    [mkServerObj "10.0.2.1" "1"] [] [] [].

(** Two beacon servers with one address, and a path server. *)
Definition sample_twin_topology : TopologyObj :=
  mkTopologyObj false []
    [mkServerObj "10.0.2.1" "1"; mkServerObj "10.0.2.1" "2"] []
    [mkServerObj "10.0.1.1" "1"] [].

(** ** More of views.py *)

(** [NewLinkView.form_valid]: the arguments with which [link_ads] is
    called. *)
Definition form_valid_link {A : Type} (this_ad end_point : A)
    (link_type : string) : A * A * string :=
  let from_ad := this_ad in
  let to_ad := end_point in
  let '(from_ad, to_ad) :=
    if String.eqb link_type "PARENT" then (to_ad, from_ad)
    else (from_ad, to_ad) in
  let link_type :=
    if existsb (String.eqb link_type) ["CHILD"; "PARENT"]
    then "PARENT_CHILD" else link_type in
  (from_ad, to_ad, link_type).

(** ** More of models.py *)

(** [self.beaconserverweb_set.first()]: the rows of a table are held in
    the order of their primary keys. *)
Definition first_beacon_server (self : ADrow) (db : DB) : option ServerWeb :=
  List.find (fun r => sw_ad r =? ad_pk self) (beaconserverweb_set db).

(** [AD.get_monitoring_daemon_host] *)
Definition get_monitoring_daemon_host (self : ADrow) (db : DB) : string :=
  let monitoring_daemon_host := "127.0.0.1" in
  match first_beacon_server self db with
  | Some beacon_server =>
      if negb (String.prefix "127." (sw_addr beacon_server))
      then sw_addr beacon_server
      else monitoring_daemon_host
  | None => monitoring_daemon_host
  end.

(** [d[key] = value] on a dictionary held in insertion order. *)
Fixpoint dict_set {V : Type} (key : string) (v : V) (d : list (string * V))
  : list (string * V) :=
  match d with
  | [] => [(key, v)]
  | (k, x) :: d' =>
      if String.eqb k key then (k, v) :: d' else (k, x) :: dict_set key v d'
  end.

(** [SCIONWebElement.get_dict] *)
Definition server_get_dict (s : ServerWeb) : Element :=
  mkElement "IPv4" (sw_addr s).

(** [RouterWeb.get_dict]; [self.neighbor_ad] fetches the row that the
    foreign key names.  [PORT] is a constant of [topology.generator],
    which is not among the sources. *)
Definition router_get_dict (PORT : Z) (db : DB) (r : RouterWeb)
  : result RouterElement :=
  match List.filter (fun a => ad_pk a =? rw_neighbor_ad r) (ad_table db) with
  | [neighbor] =>
      let port := PORT in
      let if_id := ad_pk neighbor in
      Ok (mkRouter "IPv4" (rw_addr r)
            (mkInterface (rw_neighbor_type r) (ad_isd neighbor) (ad_pk neighbor)
               (rw_interface_addr r) "IPv4" (rw_interface_toaddr r)
               port port if_id))
  | [] => Raise DoesNotExist
  | _ => Raise MultipleObjectsReturned
  end.

(** The dictionary that [generate_topology_dict] builds: it has no key
    [DNSServers]. *)
Record TopologyDict : Type := mkTopologyDict {
  td_ISDID : Z;
  td_ADID : Z;
  td_Core : Z;
  td_EdgeRouters : list (string * RouterElement);
  td_PathServers : list (string * Element);
  td_BeaconServers : list (string * Element);
  td_CertificateServers : list (string * Element)
}.

Definition servers_of (self : ADrow) (rows : list ServerWeb) : list ServerWeb :=
  List.filter (fun r => sw_ad r =? ad_pk self) rows.

Definition routers_of (self : ADrow) (db : DB) : list RouterWeb :=
  List.filter (fun r => rw_ad r =? ad_pk self) (routerweb_set db).

(** [for s in rows: d[str(s.name)] = s.get_dict()] *)
Definition fill_servers (rows : list ServerWeb) : list (string * Element) :=
  fold_left (fun d s => dict_set (sw_name s) (server_get_dict s) d) rows [].

Fixpoint fill_routers (PORT : Z) (db : DB) (rows : list RouterWeb)
    (d : list (string * RouterElement)) : result (list (string * RouterElement)) :=
  match rows with
  | [] => Ok d
  | router :: rows' =>
      try! e := router_get_dict PORT db router in
      fill_routers PORT db rows' (dict_set (rw_name router) e d)
  end.

(** [AD.generate_topology_dict]: the subscript [out_dict['DNSServers']] of
    the last loop finds no such key. *)
Definition generate_topology_dict (PORT : Z) (self : ADrow) (db : DB)
  : result TopologyDict :=
  try! edge_routers := fill_routers PORT db (routers_of self db) [] in
  let path_servers := fill_servers (servers_of self (pathserverweb_set db)) in
  let beacon_servers := fill_servers (servers_of self (beaconserverweb_set db)) in
  let certificate_servers :=
    fill_servers (servers_of self (certificateserverweb_set db)) in
  match servers_of self (dnsserverweb_set db) with
  | [] => Ok (mkTopologyDict (ad_isd self) (ad_pk self)
                (Z.b2z (is_core_ad self)) edge_routers path_servers
                beacon_servers certificate_servers)
  | _ :: _ => Raise KeyError
  end.

(** The rows that [fill_from_topology] makes of the elements of a
    topology. *)
Definition server_row (self : ADrow) (s : ServerObj) : ServerWeb :=
  mkServerWeb (server_addr s) (ad_pk self) (server_name s).

Definition router_row (self : ADrow) (router : RouterObj) : RouterWeb :=
  mkRouterWeb (router_addr router) (ad_pk self) (router_name router)
    (neighbor_ad (interface router)) (neighbor_type (interface router))
    (if_addr (interface router)) (to_addr (interface router))
    (if_id (interface router)).

(** *** The vocabulary of the further properties *)

(** A supervisor with two processes of the domain 1-10 and one of
    another domain. *)
Definition world_two_processes : World :=
  mkWorld ∅
    (Some [mkProc "ad1-10" "bs1-10-1" "RUNNING";
           mkProc "ad1-11" "bs1-11-1" "RUNNING";
           mkProc "ad1-10" "ps1-10-1" "STOPPED"])
    (Some ∅) [].

(** The number of [EvPopen] events of a trace. *)
Definition count_popen (evs : list event) : nat :=
  length (List.filter (fun e => match e with EvPopen _ _ => true | _ => false end)
                      evs).

(** *** The database, further *)

(** The rows [rows'] are the rows [rows] followed by rows of the domain
    [pk]. *)
Definition extends {R : Type} (owner : R -> Z) (pk : Z) (rows rows' : list R)
  : Prop :=
  exists added, rows' = (rows ++ added)%list /\
                Forall (fun r => owner r = pk) added.

(** The database [db'] is [db] with rows of the domain [pk] added to the
    tables of the elements. *)
Definition grows (pk : Z) (db db' : DB) : Prop :=
  ad_table db' = ad_table db /\
  extends rw_ad pk (routerweb_set db) (routerweb_set db') /\
  forall t, extends sw_ad pk (rows_of t db) (rows_of t db').

(** The state [st'] is [st] with rows of the domain of the instance
    added; the instance is the same. *)
Definition adds_rows (st st' : ADrow * DB) : Prop :=
  fst st' = fst st /\ grows (ad_pk (fst st)) (snd st) (snd st').

(** The neighbor reference of a router names one domain record. *)
Definition resolves_once (db : DB) (router : RouterObj) : Prop :=
  exists a,
    List.filter (fun a => (ad_pk a =? neighbor_ad (interface router))
                          && (ad_isd a =? neighbor_isd (interface router)))
                (ad_table db) = [a].

(** The elements of a topology have distinct addresses within each
    collection. *)
Definition distinct_addresses (topology : TopologyObj) : Prop :=
  List.NoDup (map router_addr (get_all_edge_routers topology)) /\
  List.NoDup (map server_addr (beacon_servers topology)) /\
  List.NoDup (map server_addr (certificate_servers topology)) /\
  List.NoDup (map server_addr (path_servers topology)) /\
  List.NoDup (map server_addr (dns_servers topology)).

(** The database with a row for every element of a topology. *)
Definition filled (topology : TopologyObj) (self : ADrow) (db : DB) : DB :=
  mkDB (ad_table db)
    (routerweb_set db ++ map (router_row self) (get_all_edge_routers topology))
    (pathserverweb_set db ++ map (server_row self) (path_servers topology))
    (certificateserverweb_set db
       ++ map (server_row self) (certificate_servers topology))
    (beaconserverweb_set db ++ map (server_row self) (beacon_servers topology))
    (dnsserverweb_set db ++ map (server_row self) (dns_servers topology)).

(** The state after [fill_from_topology] has added every element. *)
Definition filled_state (topology : TopologyObj) (st : ADrow * DB)
  : ADrow * DB :=
  let self := fst (prepared topology true st) in
  (self, filled topology self (snd (prepared topology true st))).

(** The entry of a server in the dictionary of its collection. *)
Definition server_entry (s : ServerObj) : string * Element :=
  (server_name s, mkElement "IPv4" (server_addr s)).

(** [dict(items)]: a later item with the key of an earlier one takes
    its place. *)
Definition dict_of_items {V : Type} (items : list (string * V))
  : list (string * V) :=
  fold_left (fun d kv => dict_set (fst kv) (snd kv) d) items [].

(** The entry of a router in the dictionary of the edge routers: both
    ports are [PORT] and the interface identifier is the identifier of
    the neighbor domain. *)
Definition router_entry (PORT : Z) (router : RouterObj)
  : string * RouterElement :=
  let i := interface router in
  (router_name router,
   mkRouter "IPv4" (router_addr router)
     (mkInterface (neighbor_type i) (neighbor_isd i) (neighbor_ad i)
        (if_addr i) "IPv4" (to_addr i) PORT PORT (neighbor_ad i))).

(** The foreign key [neighbor_ad] of a row names one domain record. *)
Definition neighbor_known (db : DB) (r : RouterWeb) : Prop :=
  exists n,
    List.filter (fun a => ad_pk a =? rw_neighbor_ad r) (ad_table db) = [n].

(** A topology with all kinds of elements, for the domain 1-10 of
    [sample_db]. *)
Definition sample_full_topology : TopologyObj :=
  mkTopologyObj true
    [mkRouterObj "10.0.0.1" "1" (mkInterfaceObj 11 1 "PARENT" "10.0.0.2" "10.0.0.3" 11)]
    [mkServerObj "10.0.2.1" "1"; mkServerObj "10.0.2.2" "2"]
    [mkServerObj "10.0.3.1" "1"]
    [mkServerObj "10.0.1.1" "1"]
    [mkServerObj "10.0.4.1" "1"].

(* ================================================================== *)
(** * Properties *)


(** ** The models of the Python library on known values *)

Example sha1_empty :
  sha1_hexdigest EmptyString = "da39a3ee5e6b4b0d3255bfef95601890afd80709".
Proof. vm_compute. reflexivity. Qed.

Example sha1_abc :
  sha1_hexdigest "abc" = "a9993e364706816aba3e25717850c26c9cd0d89d".
Proof. vm_compute. reflexivity. Qed.

Example sha1_two_blocks :
  sha1_hexdigest "abcdbcdecdefdefgefghfghighijhijkijkljklmklmnlmnomnopnopq"
  = "84983e441c3bd26ebaae4aa1f95129e5e54670f1".
Proof. vm_compute. reflexivity. Qed.

Example sha1_hello : sha1_hexdigest "hello" = hello_digest.
Proof. vm_compute. reflexivity. Qed.

Example b64decode_hello : b64decode "aGVsbG8=" = Ok "hello".
Proof. vm_compute. reflexivity. Qed.

Example b64decode_skips_foreign : b64decode "aG Vs*bG8=" = Ok "hello".
Proof. vm_compute. reflexivity. Qed.

Example b64decode_padding : b64decode "aGVsbG8" = Raise BinasciiError.
Proof. vm_compute. reflexivity. Qed.

Example split_overlap : split "__" "a___b__c" = ["a"; "_b"; "c"].
Proof. vm_compute. reflexivity. Qed.

Example split_trailing : split "__" "abc__" = ["abc"; EmptyString].
Proof. vm_compute. reflexivity. Qed.

Example get_id_sequence : get_id "a2d4__lock__0000000001" = "0000000001".
Proof. vm_compute. reflexivity. Qed.

Example basename_traversal : basename "../../etc/passwd" = "passwd".
Proof. vm_compute. reflexivity. Qed.

Example basename_trailing_slash : basename "packages/" = EmptyString.
Proof. vm_compute. reflexivity. Qed.

Example path_join_absolute : path_join "/scion/logs" "/etc/passwd" = "/etc/passwd".
Proof. vm_compute. reflexivity. Qed.

Example py_int_spaces_sign : py_int " -12 " = Ok (-12).
Proof. vm_compute. reflexivity. Qed.

Example py_int_not_a_number : py_int "bs1" = Raise ValueError.
Proof. vm_compute. reflexivity. Qed.

Example str_utf8_truncated :
  str_utf8 (String "195"%char EmptyString) = Raise UnicodeDecodeError.
Proof. vm_compute. reflexivity. Qed.

(** ** Results *)

Lemma rmap_list_total {A B} (f : A -> result B) (g : A -> B) (l : list A) :
  Forall (fun a => f a = Ok (g a)) l -> rmap_list f l = Ok (map g l).
Proof.
  induction 1 as [|a l Ha _ IH]; simpl; [reflexivity|].
  rewrite Ha; simpl. rewrite IH; reflexivity.
Qed.

(** ** Strings *)

#[local] Arguments Ascii.eqb : simpl never.
#[local] Arguments String.eqb : simpl never.
#[local] Arguments String.append : simpl nomatch.

Lemma list_of_append (a b : string) :
  list_ascii_of_string (a +:+ b)
  = (list_ascii_of_string a ++ list_ascii_of_string b)%list.
Proof. induction a as [|c a IH]; simpl; [reflexivity|now rewrite IH]. Qed.

Lemma append_assoc (a b c : string) : (a +:+ b) +:+ c = a +:+ (b +:+ c).
Proof. induction a as [|x a IH]; simpl; [reflexivity|now rewrite IH]. Qed.

Lemma append_empty_r (a : string) : a +:+ EmptyString = a.
Proof. induction a as [|x a IH]; simpl; [reflexivity|now rewrite IH]. Qed.

Lemma string_of_list_app (l m : list ascii) :
  string_of_list_ascii (l ++ m)
  = string_of_list_ascii l +:+ string_of_list_ascii m.
Proof. induction l as [|c l IH]; simpl; [reflexivity|now rewrite IH]. Qed.

Lemma list_of_str_rev (s : string) :
  list_ascii_of_string (str_rev s) = rev (list_ascii_of_string s).
Proof. unfold str_rev. apply list_ascii_of_string_of_list_ascii. Qed.

Lemma str_rev_append (a b : string) :
  str_rev (a +:+ b) = str_rev b +:+ str_rev a.
Proof.
  unfold str_rev. now rewrite list_of_append, rev_app_distr, string_of_list_app.
Qed.

Lemma str_rev_involutive (s : string) : str_rev (str_rev s) = s.
Proof.
  unfold str_rev at 1. rewrite list_of_str_rev, rev_involutive.
  apply string_of_list_ascii_of_string.
Qed.

Lemma str_rev_cons (c : ascii) (s : string) :
  str_rev (String c s) = str_rev s +:+ String c EmptyString.
Proof. apply (str_rev_append (String c EmptyString) s). Qed.

Lemma string_length_list (s : string) :
  String.length s = length (list_ascii_of_string s).
Proof. induction s as [|c s IH]; simpl; [reflexivity|now rewrite IH]. Qed.

(** ** Integer literals *)

Lemma is_space_blank c : is_space c = blank c.
Proof. destruct c as [[] [] [] [] [] [] [] []]; reflexivity. Qed.

Lemma digit_of_is_digit c :
  digit_of c = if is_digit c then Some (digit_val c) else None.
Proof. destruct c as [[] [] [] [] [] [] [] []]; reflexivity. Qed.

Lemma is_digit_not_blank c :
  is_digit c = true ->
  is_space c = false /\ Ascii.eqb c "-"%char = false
  /\ Ascii.eqb c "+"%char = false.
Proof.
  destruct c as [[] [] [] [] [] [] [] []]; intros Hd;
    try discriminate Hd; repeat split.
Qed.

Lemma sign_not_blank :
  is_space "-"%char = false /\ is_space "+"%char = false.
Proof. split; reflexivity. Qed.

Lemma blanks_str_rev ws : blanks (str_rev ws) = blanks ws.
Proof.
  unfold blanks. rewrite list_of_str_rev.
  apply eq_true_iff_eq. rewrite !forallb_forall.
  split; intros Hb c Hc; apply Hb; [now apply in_rev in Hc|now apply in_rev].
Qed.

Lemma lstrip_blanks ws t : blanks ws = true -> lstrip (ws +:+ t) = lstrip t.
Proof.
  unfold blanks. induction ws as [|c ws IH]; simpl; [reflexivity|].
  intros Hb. apply andb_true_iff in Hb as [Hc Hws].
  rewrite is_space_blank, Hc. now apply IH.
Qed.

Lemma lstrip_spec s :
  exists ws, blanks ws = true /\ s = ws +:+ lstrip s.
Proof.
  induction s as [|c s (ws & Hws & Hs)].
  - now exists EmptyString.
  - simpl. destruct (is_space c) eqn:Hc.
    + exists (String c ws). split.
      * unfold blanks in *. simpl. now rewrite <- is_space_blank, Hc.
      * simpl. now rewrite <- Hs.
    + now exists EmptyString.
Qed.

Lemma strip_spec s :
  exists ws1 ws2,
    blanks ws1 = true /\ blanks ws2 = true /\ s = ws1 +:+ strip s +:+ ws2.
Proof.
  destruct (lstrip_spec s) as (ws1 & H1 & Hs).
  destruct (lstrip_spec (str_rev (lstrip s))) as (w & Hw & Hu).
  exists ws1, (str_rev w). split; [exact H1|].
  split; [now rewrite blanks_str_rev|].
  unfold strip. rewrite <- str_rev_append, <- Hu, str_rev_involutive.
  exact Hs.
Qed.

(** A body that neither starts nor ends with a blank is what [strip]
    leaves of it and the blanks around it. *)
Lemma strip_sandwich ws1 ws2 c t c' t' :
  blanks ws1 = true -> blanks ws2 = true ->
  is_space c = false ->
  str_rev (String c t) = String c' t' -> is_space c' = false ->
  strip (ws1 +:+ String c t +:+ ws2) = String c t.
Proof.
  intros H1 H2 Hc Hrev Hc'. unfold strip.
  rewrite lstrip_blanks by exact H1.
  change (String c t +:+ ws2) with (String c (t +:+ ws2)).
  cbn [lstrip]. rewrite Hc.
  change (String c (t +:+ ws2)) with (String c t +:+ ws2).
  rewrite str_rev_append, lstrip_blanks by now rewrite blanks_str_rev.
  rewrite Hrev. cbn [lstrip]. rewrite Hc'.
  now rewrite <- Hrev, str_rev_involutive.
Qed.

Lemma positional_not_digit l c m :
  digit_of c = None -> positional (l ++ c :: m) = None.
Proof.
  intros Hc. induction l as [|d l IH]; simpl.
  - now rewrite Hc.
  - rewrite IH. now destruct (digit_of d).
Qed.

(** Reading the digits from the left with an accumulator gives their
    value by position. *)
Lemma digits_value_positional s accl acc :
  positional accl = Some acc ->
  digits_value acc s = positional (rev (list_ascii_of_string s) ++ accl).
Proof.
  revert accl acc. induction s as [|c s IH]; intros accl acc Ha; simpl.
  - now rewrite Ha.
  - rewrite <- List.app_assoc. simpl.
    pose proof (digit_of_is_digit c) as Hd.
    destruct (is_digit c).
    + apply IH. simpl. rewrite Hd, Ha. f_equal. lia.
    + now rewrite positional_not_digit.
Qed.

Lemma unsigned_int_numeral s v :
  unsigned_int s = Ok v <-> numeral_value s = Some v.
Proof.
  unfold unsigned_int, numeral_value.
  destruct s as [|c s]; [split; discriminate|].
  rewrite (digits_value_positional _ [] 0 eq_refl), app_nil_r.
  destruct (positional _); split; congruence.
Qed.

Lemma digits_value_all acc s z :
  digits_value acc s = Some z ->
  forallb is_digit (list_ascii_of_string s) = true.
Proof.
  revert acc. induction s as [|c s IH]; intros acc; simpl; [reflexivity|].
  destruct (is_digit c); [|discriminate]. intros Hz. simpl. eauto.
Qed.

(** A numeral starts and ends with a digit. *)
Lemma numeral_ends digits v :
  numeral_value digits = Some v ->
  (exists c t, digits = String c t /\ is_digit c = true) /\
  (forall sign, exists c' t',
     str_rev (sign +:+ digits) = String c' t' /\ is_digit c' = true).
Proof.
  intros Hv. apply unsigned_int_numeral in Hv. unfold unsigned_int in Hv.
  destruct digits as [|c t]; [discriminate|].
  destruct (digits_value 0 (String c t)) as [z|] eqn:Hz; [|discriminate].
  apply digits_value_all in Hz.
  split.
  - exists c, t. split; [reflexivity|].
    simpl in Hz. now apply andb_true_iff in Hz as [Hc _].
  - intros sign. rewrite str_rev_append.
    assert (Hr : forallb is_digit (list_ascii_of_string (str_rev (String c t)))
                 = true).
    { rewrite list_of_str_rev. rewrite forallb_forall in Hz |- *.
      intros x Hx. apply Hz. now apply in_rev. }
    assert (Hn : str_rev (String c t) <> EmptyString).
    { intros He. apply (f_equal str_rev) in He.
      rewrite str_rev_involutive in He. discriminate He. }
    destruct (str_rev (String c t)) as [|c' t']; [congruence|].
    exists c', (t' +:+ str_rev sign). split; [reflexivity|].
    simpl in Hr. now apply andb_true_iff in Hr as [Hc _].
Qed.

Lemma ascii_int_literal s z : ascii_int s = Ok z <-> int_literal s z.
Proof.
  unfold ascii_int, int_literal. split.
  - intros Hz. destruct (strip_spec s) as (ws1 & ws2 & H1 & H2 & Hs).
    destruct (strip s) as [|c t]; [discriminate|].
    destruct (Ascii.eqb_spec c "-"%char) as [->|Hm].
    + destruct (unsigned_int t) as [v|] eqn:Hv; [|discriminate].
      apply unsigned_int_numeral in Hv. simpl in Hz.
      exists ws1, t, ws2, v. repeat split; try assumption.
      right; right. split; [exact Hs|congruence].
    + destruct (Ascii.eqb_spec c "+"%char) as [->|Hp].
      * apply unsigned_int_numeral in Hz.
        exists ws1, t, ws2, z. repeat split; try assumption.
        right; left. split; [exact Hs|reflexivity].
      * apply unsigned_int_numeral in Hz.
        exists ws1, (String c t), ws2, z. repeat split; try assumption.
        left. split; [exact Hs|reflexivity].
  - intros (ws1 & digits & ws2 & v & H1 & H2 & Hv & Hs).
    destruct (numeral_ends digits v Hv) as [(c & t & -> & Hc) Hlast].
    destruct (is_digit_not_blank c Hc) as (Hsp & Hm & Hp).
    destruct Hs as [[-> ->]|[[-> ->]|[-> ->]]].
    + destruct (Hlast EmptyString) as (c' & t' & Hrev & Hc').
      rewrite (strip_sandwich ws1 ws2 c t c' t') by
        (try assumption; now apply is_digit_not_blank).
      rewrite Hm, Hp. now apply unsigned_int_numeral.
    + destruct (Hlast "+") as (c' & t' & Hrev & Hc').
      change ("+" +:+ String c t +:+ ws2)
        with (String "+"%char (String c t) +:+ ws2).
      rewrite (strip_sandwich ws1 ws2 "+"%char (String c t) c' t') by
        (try assumption; try reflexivity; now apply is_digit_not_blank).
      cbv beta iota. change (Ascii.eqb "+" "-") with false.
      change (Ascii.eqb "+" "+") with true. cbv iota.
      now apply unsigned_int_numeral.
    + destruct (Hlast "-") as (c' & t' & Hrev & Hc').
      change ("-" +:+ String c t +:+ ws2)
        with (String "-"%char (String c t) +:+ ws2).
      rewrite (strip_sandwich ws1 ws2 "-"%char (String c t) c' t') by
        (try assumption; try reflexivity; now apply is_digit_not_blank).
      cbv beta iota. change (Ascii.eqb "-" "-") with true. cbv iota.
      apply unsigned_int_numeral in Hv. now rewrite Hv.
Qed.

Section IntFacts.
Context `{Interpreter}.

Lemma py_int_denotes s z : py_int s = Ok z <-> denotes s z.
Proof.
  unfold py_int, denotes. destruct (plain s).
  - apply ascii_int_literal.
  - destruct (int_other s); split; congruence.
Qed.

(** [int] raises nothing but [ValueError]. *)
Lemma py_int_raise s e : py_int s = Raise e -> e = ValueError.
Proof.
  unfold py_int, ascii_int, unsigned_int.
  destruct (plain s).
  - destruct (strip s) as [|c t]; [congruence|].
    destruct (Ascii.eqb c "-").
    + destruct t; [simpl; congruence|].
      destruct (digits_value _ _); simpl; congruence.
    + destruct (Ascii.eqb c "+").
      * destruct t; [congruence|]. destruct (digits_value _ _); congruence.
      * destruct (digits_value _ _); congruence.
  - destruct (int_other s); congruence.
Qed.

Lemma denotes_functional s z1 z2 : denotes s z1 -> denotes s z2 -> z1 = z2.
Proof. rewrite <- !py_int_denotes. congruence. Qed.

Lemma denotes_int_of s z : denotes s z -> int_of s = z.
Proof. rewrite <- py_int_denotes. unfold int_of. now intros ->. Qed.

Lemma int_of_denotes s : (exists z, denotes s z) -> denotes s (int_of s).
Proof. intros [z Hz]. now rewrite (denotes_int_of s z Hz). Qed.

End IntFacts.

(** ** The stable sort *)

Section SortFacts.
Context {A K : Type} (leb : K -> K -> bool).

Lemma insert_by_perm (x : K * A) l : Permutation (insert_by leb x l) (x :: l).
Proof.
  induction l as [|y l IH]; simpl; [reflexivity|].
  destruct (leb (fst x) (fst y)); [reflexivity|].
  rewrite IH. apply perm_swap.
Qed.

Lemma sort_decorated_perm (l : list (K * A)) :
  Permutation (sort_decorated leb l) l.
Proof.
  induction l as [|x l IH]; simpl; [reflexivity|].
  rewrite insert_by_perm. now constructor.
Qed.

Lemma sort_decorated_length (l : list (K * A)) :
  length (sort_decorated leb l) = length l.
Proof. apply Permutation_length, sort_decorated_perm. Qed.

(** The order depends on the keys only. *)
Lemma insert_by_map {B} (g : A -> B) (x : K * A) l :
  insert_by leb (on_snd g x) (map (on_snd g) l)
  = map (on_snd g) (insert_by leb x l).
Proof.
  induction l as [|y l IH]; simpl; [reflexivity|].
  destruct (leb (fst x) (fst y)); simpl; [reflexivity|].
  now rewrite IH.
Qed.

Lemma sort_decorated_map {B} (g : A -> B) (l : list (K * A)) :
  sort_decorated leb (map (on_snd g) l)
  = map (on_snd g) (sort_decorated leb l).
Proof.
  induction l as [|x l IH]; simpl; [reflexivity|].
  rewrite IH. apply insert_by_map.
Qed.

Hypothesis leb_total : forall a b, leb a b = true \/ leb b a = true.
Hypothesis leb_trans :
  forall a b c, leb a b = true -> leb b c = true -> leb a c = true.

Lemma insert_by_sorted (x : K * A) l :
  StronglySorted (key_le leb) l -> StronglySorted (key_le leb) (insert_by leb x l).
Proof.
  induction 1 as [|y l Hl IH Hy]; simpl.
  - repeat constructor.
  - destruct (leb (fst x) (fst y)) eqn:E.
    + constructor; [now constructor|].
      constructor; [exact E|].
      eapply List.Forall_impl; [|exact Hy].
      intros z Hz. unfold key_le in *. eauto.
    + constructor; [exact IH|].
      assert (Hyx : key_le leb y x).
      { unfold key_le. destruct (leb_total (fst x) (fst y)); congruence. }
      eapply Permutation_Forall; [symmetry; apply insert_by_perm|].
      now constructor.
Qed.

Lemma sort_decorated_sorted (l : list (K * A)) :
  StronglySorted (key_le leb) (sort_decorated leb l).
Proof.
  induction l as [|x l IH]; simpl; [constructor|].
  now apply insert_by_sorted.
Qed.
End SortFacts.

Lemma combine_map_snd {K A B} (g : A -> B) (ks : list K) (l : list A) :
  combine ks (map g l) = map (on_snd g) (combine ks l).
Proof.
  revert l; induction ks as [|k ks IH]; intros [|a l]; simpl; try reflexivity.
  now rewrite IH.
Qed.

(** ** Sorted lists *)


Lemma StronglySorted_weaken {A} (R R' : A -> A -> Prop) (P : A -> Prop) l :
  (forall a b, P a -> P b -> R a b -> R' a b) ->
  Forall P l -> StronglySorted R l -> StronglySorted R' l.
Proof.
  intros HR HP Hs. induction Hs as [|a l Hs IH Ha]; constructor.
  - apply IH. now inversion HP.
  - inversion HP as [|? ? Pa Pl]; subst.
    rewrite List.Forall_forall in Ha, Pl |- *. auto.
Qed.

Section DiffFacts.
Context `{Interpreter}.

(** ** Sorting the items of a collection *)

Lemma sorted_names_ok {E} (l : list (string * E)) :
  names_ok l -> sorted Z.leb key_sort l = Ok (sorted_items l).
Proof.
  intros Hl. unfold sorted.
  rewrite (rmap_list_total key_sort (fun it => int_of (fst it))).
  - reflexivity.
  - eapply List.Forall_impl; [|exact Hl].
    intros it [z Hz]. apply py_int_denotes in Hz.
    unfold key_sort, int_of. now rewrite Hz.
Qed.

Lemma sorted_raises {E} (l : list (string * E)) :
  ~ names_ok l -> sorted Z.leb key_sort l = Raise ValueError.
Proof.
  unfold sorted, names_ok.
  induction l as [|it l IH]; intros Hn.
  - exfalso; apply Hn; constructor.
  - simpl. unfold key_sort at 1.
    destruct (py_int (fst it)) as [z|e] eqn:Hz; simpl.
    + assert (Hl : ~ Forall (fun it => exists z, denotes (fst it) z) l).
      { intros Hl. apply Hn. constructor; [|exact Hl].
        exists z. now apply py_int_denotes. }
      specialize (IH Hl).
      destruct (rmap_list key_sort l) as [ks|e] eqn:Hks; simpl in IH |- *;
        [discriminate IH|exact IH].
    + now rewrite (py_int_raise _ _ Hz).
Qed.

Lemma names_ok_dec {E} (l : list (string * E)) : names_ok l \/ ~ names_ok l.
Proof.
  unfold names_ok. induction l as [|it l [IH|IH]].
  - left; constructor.
  - destruct (py_int (fst it)) as [z|e] eqn:Hz.
    + left. constructor; [|exact IH]. exists z. now apply py_int_denotes.
    + right. intros Hn. inversion Hn as [|? ? [z Hd] _]; subst.
      apply py_int_denotes in Hd. congruence.
  - right. intros Hn. inversion Hn; subst. now apply IH.
Qed.

Lemma combine_keys_length {E} (l : list (string * E)) :
  length (combine (map (fun it => int_of (fst it)) l) l) = length l.
Proof. rewrite length_combine, length_map. lia. Qed.

Lemma sorted_items_length {E} (l : list (string * E)) :
  length (sorted_items l) = length l.
Proof.
  unfold sorted_items, sorted_decorated_items.
  rewrite length_map, sort_decorated_length. apply combine_keys_length.
Qed.

Lemma map_snd_combine_keys {K A} (ks : list K) (l : list A) :
  length ks = length l -> map snd (combine ks l) = l.
Proof.
  revert l; induction ks as [|k ks IH]; intros [|a l]; simpl; intros Hlen;
    try discriminate; [reflexivity|].
  f_equal. apply IH. lia.
Qed.

Lemma sorted_items_perm {E} (l : list (string * E)) :
  Permutation (sorted_items l) l.
Proof.
  unfold sorted_items, sorted_decorated_items.
  rewrite (sort_decorated_perm Z.leb).
  rewrite map_snd_combine_keys; [reflexivity|].
  now rewrite length_map.
Qed.

Lemma decorated_keys {E} (l : list (string * E)) :
  Forall (fun d => fst d = int_of (fst (snd d)))
         (combine (map (fun it => int_of (fst it)) l) l).
Proof. induction l as [|it l IH]; simpl; constructor; auto. Qed.

Lemma sorted_items_sorted {E} (l : list (string * E)) :
  StronglySorted (fun a b => int_of (fst a) <= int_of (fst b)) (sorted_items l).
Proof.
  unfold sorted_items, sorted_decorated_items.
  set (d := combine _ l).
  assert (Hk : Forall (fun d => fst d = int_of (fst (snd d)))
                      (sort_decorated Z.leb d)).
  { eapply Permutation_Forall; [symmetry; apply sort_decorated_perm|].
    apply decorated_keys. }
  assert (Hs : StronglySorted (key_le Z.leb) (sort_decorated Z.leb d)).
  { apply sort_decorated_sorted.
    - intros a b. rewrite !Z.leb_le. lia.
    - intros a b c. rewrite !Z.leb_le. lia. }
  induction Hs as [|x s Hs IH Hx]; simpl; constructor.
  - apply IH. now inversion Hk.
  - inversion Hk as [|? ? Hx0 Hs0]; subst.
    apply List.Forall_map. rewrite List.Forall_forall in Hx, Hs0 |- *.
    intros y Hy. specialize (Hx y Hy). specialize (Hs0 y Hy).
    unfold key_le in Hx. apply Z.leb_le in Hx. simpl. congruence.
Qed.

(** *** The order of the numbers that the names denote *)



Lemma int_of_number_le a b :
  (exists z, denotes a z) -> (exists z, denotes b z) ->
  int_of a <= int_of b -> number_le a b.
Proof.
  intros Ha Hb Hle. exists (int_of a), (int_of b).
  auto using int_of_denotes.
Qed.

(** The stable sort by [int] arranges the items in the order of the
    numbers that their names denote. *)
Lemma sorted_items_numeric {E} (l : list (string * E)) :
  names_ok l -> numeric_sort l (sorted_items l).
Proof.
  intros Hl. split; [apply sorted_items_perm|].
  eapply StronglySorted_weaken; [| |apply sorted_items_sorted].
  - intros a b Ha Hb. apply int_of_number_le; [exact Ha|exact Hb].
  - eapply Permutation_Forall; [symmetry; apply sorted_items_perm|exact Hl].
Qed.

Lemma numbered_keys {E} (l : list (string * E)) zs :
  numbered l zs -> map (fun it => int_of (fst it)) l = zs.
Proof.
  induction 1 as [|it z l zs Hz _ IH]; simpl; [reflexivity|].
  now rewrite (denotes_int_of _ _ Hz), IH.
Qed.

Lemma distinct_numbers_keys {E} (l : list (string * E)) :
  distinct_numbers l
  <-> names_ok l /\ List.NoDup (map (fun it => int_of (fst it)) l).
Proof.
  split.
  - intros (zs & Hn & Hd). rewrite (numbered_keys l zs Hn). split; [|exact Hd].
    clear Hd. induction Hn as [|it z l zs Hz _ IH]; constructor; eauto.
  - intros [Hl Hd]. exists (map (fun it => int_of (fst it)) l).
    split; [|exact Hd]. clear Hd.
    induction Hl as [|it l Hit _ IH]; simpl; constructor;
      [now apply int_of_denotes|exact IH].
Qed.

Lemma distinct_numbers_names_ok {E} (l : list (string * E)) :
  distinct_numbers l -> names_ok l.
Proof. intros Hd. now apply distinct_numbers_keys in Hd. Qed.





(** ** The diff of one collection *)

Lemma value_neq_refl v : value_neq v v = false.
Proof.
  destruct v; simpl.
  - now rewrite Z.eqb_refl.
  - now rewrite String.eqb_refl.
Qed.

Lemma key_changes_same {E} st (x : E) key : key_changes st x x key = [].
Proof.
  destruct key as [k get|fn nested]; simpl.
  - now rewrite value_neq_refl.
  - induction nested as [|[field get] nested IH]; simpl; [reflexivity|].
    now rewrite value_neq_refl.
Qed.

Lemma pair_changes_same {E} st fields (x : E) :
  pair_changes st fields (x, x) = [].
Proof.
  unfold pair_changes; simpl.
  induction fields as [|key fields IH]; simpl; [reflexivity|].
  now rewrite key_changes_same.
Qed.

(** What [collection_changes] returns when every name is an integer. *)
Lemma collection_changes_ok {E} st fields (remote current : list (string * E)) :
  names_ok remote -> names_ok current ->
  collection_changes st fields remote current
  = Ok (if negb (Nat.eqb (length remote) (length current))
        then [count_msg st]
        else flat_map (pair_changes st fields)
               (combine (map snd (sorted_items remote))
                        (map snd (sorted_items current)))).
Proof.
  intros Hr Hc. unfold collection_changes.
  rewrite (sorted_names_ok _ Hr), (sorted_names_ok _ Hc); simpl.
  rewrite !length_map, !sorted_items_length.
  now destruct (negb _).
Qed.

Lemma combine_map_both {A B C} (f : A -> B) (g : A -> C) (l : list A) :
  combine (map f l) (map g l) = map (fun a => (f a, g a)) l.
Proof. induction l as [|a l IH]; simpl; [reflexivity|now rewrite IH]. Qed.

Lemma sorted_items_on_snd {E F} (g : E -> F) (l : list (string * E)) :
  sorted_items (map (on_snd g) l) = map (on_snd g) (sorted_items l).
Proof.
  unfold sorted_items, sorted_decorated_items.
  rewrite map_map; simpl.
  rewrite combine_map_snd, sort_decorated_map, !map_map.
  reflexivity.
Qed.

(** Two collections with the same names in the same order, given as one
    collection of pairs: sorting both pairs the elements up as sorting the
    pairs does. *)
Lemma sorted_aligned {E} (l : list (string * (E * E))) :
  combine (map snd (sorted_items (map (on_snd fst) l)))
          (map snd (sorted_items (map (on_snd snd) l)))
  = map snd (sorted_items l).
Proof.
  rewrite !sorted_items_on_snd, !map_map, combine_map_both.
  apply map_ext. intros [n [a b]]. reflexivity.
Qed.

Lemma names_ok_on_snd {E F} (g : E -> F) (l : list (string * E)) :
  names_ok (map (on_snd g) l) <-> names_ok l.
Proof. unfold names_ok. rewrite List.Forall_map. reflexivity. Qed.

Lemma flat_map_nil {A B} (f : A -> list B) (l : list A) :
  Forall (fun a => f a = []) l -> flat_map f l = [].
Proof. induction 1 as [|a l Ha _ IH]; simpl; [reflexivity|now rewrite Ha, IH]. Qed.


(** Two collections with the same names in the same order. *)
Lemma collection_changes_aligned {E} st fields (z : list (string * (E * E))) :
  names_ok z ->
  collection_changes st fields (map (on_snd fst) z) (map (on_snd snd) z)
  = Ok (flat_map (pair_changes st fields) (map snd (sorted_items z))).
Proof.
  intros Hz. rewrite collection_changes_ok by now apply names_ok_on_snd.
  rewrite !length_map, Nat.eqb_refl; simpl.
  now rewrite sorted_aligned.
Qed.

Lemma on_snd_diag_fst {E} (l : list (string * E)) :
  map (on_snd fst) (map (on_snd (fun x => (x, x))) l) = l.
Proof.
  rewrite map_map. rewrite <- (map_id l) at 2.
  apply map_ext. now intros [n x].
Qed.

Lemma on_snd_diag_snd {E} (l : list (string * E)) :
  map (on_snd snd) (map (on_snd (fun x => (x, x))) l) = l.
Proof.
  rewrite map_map. rewrite <- (map_id l) at 2.
  apply map_ext. now intros [n x].
Qed.

(** A collection against itself. *)
Lemma collection_changes_same {E} st fields (l : list (string * E)) :
  names_ok l -> collection_changes st fields l l = Ok [].
Proof.
  intros Hl.
  pose proof (collection_changes_aligned st fields
                (map (on_snd (fun x => (x, x))) l)) as Ha.
  rewrite on_snd_diag_fst, on_snd_diag_snd in Ha.
  rewrite Ha by now apply names_ok_on_snd.
  f_equal. apply flat_map_nil.
  apply List.Forall_map.
  eapply Permutation_Forall; [symmetry; apply sorted_items_perm|].
  apply List.Forall_map.
  apply List.Forall_forall. intros [n x] _. apply pair_changes_same.
Qed.



(** ** Topology documents *)

Lemma scalar_changes_same t : scalar_changes t t = [].
Proof. unfold scalar_changes; simpl. now rewrite !Z.eqb_refl. Qed.


Lemma get_changes_same t : valid_topology t -> _get_changes t t = Ok [].
Proof.
  intros (Hp & Hc & Hb & He). unfold _get_changes.
  rewrite !collection_changes_same by assumption. simpl.
  now rewrite scalar_changes_same.
Qed.

Lemma distinctly_numbered_valid t : distinctly_numbered t -> valid_topology t.
Proof.
  intros (Hp & Hc & Hb & He).
  repeat split; now apply distinct_numbers_names_ok.
Qed.


(** *** C5 *)

(** C5: for a topology document [T] whose element names denote integers
    for [int], the diff of [T] against itself is the empty list of changes
    and the comparison reports the status OK. *)
Theorem diff_same_topology_empty (T : Topology) :
  valid_topology T ->
  _get_changes T T = Ok [] /\
  compare_remote_topology (Some T) T = Ok (mkJson "OK" [] []).
Proof.
  intros HT. split.
  - now apply get_changes_same.
  - unfold compare_remote_topology. now rewrite get_changes_same.
Qed.

(** *** C6 *)






(** *** C7 *)

Lemma collection_changes_spec {E} st fields (count_entry : string)
    (cmp : E -> E -> list string) (remote current : list (string * E)) :
  count_msg st = count_entry ->
  (forall rs cs, pair_changes st fields (rs, cs) = cmp rs cs) ->
  names_ok remote -> names_ok current ->
  exists out,
    collection_changes st fields remote current = Ok out /\
    collection_spec count_entry cmp remote current out.
Proof.
  intros Hcount Hcmp Hr Hc. eexists; split.
  - now apply collection_changes_ok.
  - split; intros Hlen.
    + apply Nat.eqb_neq in Hlen. now rewrite Hlen, Hcount.
    + apply Nat.eqb_eq in Hlen. rewrite Hlen; simpl.
      exists (sorted_items remote), (sorted_items current).
      split; [now apply sorted_items_numeric|].
      split; [now apply sorted_items_numeric|].
      apply flat_map_ext. intros [rs cs]. apply Hcmp.
Qed.

Lemma server_pair_changes st (rs cs : Element) :
  pair_changes st server_fields (rs, cs) = addr_entry st rs cs.
Proof.
  unfold pair_changes, addr_entry; simpl.
  destruct (String.eqb (Addr rs) (Addr cs)); reflexivity.
Qed.

Lemma router_pair_changes (rs cs : RouterElement) :
  pair_changes "EdgeRouters" router_fields (rs, cs) = router_entries rs cs.
Proof.
  unfold pair_changes, router_entries. cbn [flat_map router_fields fst snd].
  rewrite app_nil_r. f_equal.
  - cbn [key_changes value_neq].
    destruct (String.eqb (RAddr rs) (RAddr cs)); reflexivity.
  - cbn [key_changes value_neq flat_map]. rewrite app_nil_r.
    destruct (NeighborAD (Interface rs) =? NeighborAD (Interface cs));
      destruct (NeighborISD (Interface rs) =? NeighborISD (Interface cs));
      destruct (String.eqb (NeighborType (Interface rs))
                           (NeighborType (Interface cs)));
      reflexivity.
Qed.

(** C7: for documents whose names denote integers for [int], the diff is
    the entries of the scalar fields followed by what the path servers,
    the certificate servers, the beacon servers and the edge routers add,
    in this order.  A collection whose two sides have different counts
    adds exactly one count-differs entry and nothing else; otherwise both
    sides are sorted by the integers that the names denote and compared
    pairwise on the address (for the routers, on the address and then on
    the interface). *)
Theorem diff_collections (cur rem : Topology) :
  valid_topology cur -> valid_topology rem ->
  exists ps cs bs er,
    _get_changes cur rem = Ok (scalar_changes cur rem ++ ps ++ cs ++ bs ++ er)%list /\
    collection_spec
      ("Different number of " +:+ dq +:+ "PathServers" +:+ dq +:+ " servers")
      (addr_entry "PathServers") (PathServers rem) (PathServers cur) ps /\
    collection_spec
      ("Different number of " +:+ dq +:+ "CertificateServers" +:+ dq +:+
       " servers")
      (addr_entry "CertificateServers")
      (CertificateServers rem) (CertificateServers cur) cs /\
    collection_spec
      ("Different number of " +:+ dq +:+ "BeaconServers" +:+ dq +:+ " servers")
      (addr_entry "BeaconServers") (BeaconServers rem) (BeaconServers cur) bs /\
    collection_spec
      ("Different number of " +:+ dq +:+ "EdgeRouters" +:+ dq +:+ " servers")
      router_entries (EdgeRouters rem) (EdgeRouters cur) er.
Proof.
  intros (Hp & Hc & Hb & He) (Hp' & Hc' & Hb' & He').
  destruct (collection_changes_spec "PathServers" server_fields _
              (addr_entry "PathServers") (PathServers rem) (PathServers cur)
              eq_refl)
    as (ps & Eps & Sps); [apply server_pair_changes|assumption..|].
  destruct (collection_changes_spec "CertificateServers" server_fields _
              (addr_entry "CertificateServers")
              (CertificateServers rem) (CertificateServers cur) eq_refl)
    as (cs & Ecs & Scs); [apply server_pair_changes|assumption..|].
  destruct (collection_changes_spec "BeaconServers" server_fields _
              (addr_entry "BeaconServers")
              (BeaconServers rem) (BeaconServers cur) eq_refl)
    as (bs & Ebs & Sbs); [apply server_pair_changes|assumption..|].
  destruct (collection_changes_spec "EdgeRouters" router_fields _
              router_entries (EdgeRouters rem) (EdgeRouters cur) eq_refl)
    as (er & Eer & Ser); [apply router_pair_changes|assumption..|].
  exists ps, cs, bs, er. unfold _get_changes.
  rewrite Eps, Ecs, Ebs, Eer. simpl. auto.
Qed.

(** *** C10 *)


End DiffFacts.

(** *** The claims on sample documents *)

Lemma sample_names (l : list string) (zs : list Z) :
  Forall2 (fun n z => py_int n = Ok z) l zs ->
  Forall2 (fun n z => denotes n z) l zs.
Proof.
  intros Hl. eapply Forall2_impl; [exact Hl|].
  intros n z. apply py_int_denotes.
Qed.

Lemma numbered_names {E} (l : list (string * E)) (zs : list Z) :
  Forall2 (fun n z => denotes n z) (map fst l) zs -> numbered l zs.
Proof.
  unfold numbered. revert zs.
  induction l as [|it l IH]; intros zs Hl; inversion Hl; subst;
    constructor; auto.
Qed.

Lemma sample_topology_valid : valid_topology sample_topology.
Proof.
  unfold valid_topology, names_ok; simpl.
  repeat split; repeat constructor; eexists; apply py_int_denotes;
    vm_compute; reflexivity.
Qed.

Lemma diff_same_topology_empty_witness :
  valid_topology sample_topology /\
  _get_changes sample_topology sample_topology = Ok [] /\
  compare_remote_topology (Some sample_topology) sample_topology
  = Ok (mkJson "OK" [] []).
Proof.
  split; [exact sample_topology_valid|].
  exact (diff_same_topology_empty sample_topology sample_topology_valid).
Defined.

Lemma sample_topology_ten_distinct : distinctly_numbered sample_topology_ten.
Proof.
  repeat split.
  - exists [10; 9]. split.
    + apply numbered_names, sample_names.
      repeat constructor.
    + repeat constructor; simpl; intuition lia.
  - exists [1]. split.
    + apply numbered_names, sample_names. repeat constructor.
    + repeat constructor; simpl; intuition lia.
  - exists [1]. split.
    + apply numbered_names, sample_names. repeat constructor.
    + repeat constructor; simpl; intuition lia.
  - exists [10; 9]. split.
    + apply numbered_names, sample_names. repeat constructor.
    + repeat constructor; simpl; intuition lia.
Qed.



Lemma sample_topology_twins_valid : valid_topology sample_topology_twins.
Proof.
  unfold valid_topology, names_ok; simpl.
  repeat split; repeat constructor; eexists; apply py_int_denotes;
    vm_compute; reflexivity.
Qed.

(** The names [1] and [01] denote one integer, and the stable sort keeps
    each document's own order of the two: every router is compared with
    the other one. *)
Lemma diff_one_neighbor_type_equal_numbers :
  valid_topology sample_topology_twins /\
  differ_in_neighbor_type sample_topology_twins sample_topology_twins_peer
    "PARENT" "PEER" /\
  _get_changes sample_topology_twins sample_topology_twins_peer
  = Ok [dq +:+ "Addr" +:+ dq +:+
        " values differ for one of EdgeRouters. Local: 10.0.0.1, remote: 10.0.0.10";
        dq +:+ "Interface:NeighborAD" +:+ dq +:+
        " differ for one of EdgeRouters. Local: 3, remote: 2";
        dq +:+ "Interface:NeighborType" +:+ dq +:+
        " differ for one of EdgeRouters. Local: CHILD, remote: PARENT";
        dq +:+ "Addr" +:+ dq +:+
        " values differ for one of EdgeRouters. Local: 10.0.0.10, remote: 10.0.0.1";
        dq +:+ "Interface:NeighborAD" +:+ dq +:+
        " differ for one of EdgeRouters. Local: 2, remote: 3";
        dq +:+ "Interface:NeighborType" +:+ dq +:+
        " differ for one of EdgeRouters. Local: PEER, remote: CHILD"].
Proof.
  split; [exact sample_topology_twins_valid|]. split.
  - unfold differ_in_neighbor_type; simpl.
    repeat split; try reflexivity.
    exists "1", sample_router,
      [("01", mkRouter "IPv4" "10.0.0.10"
                (mkInterface "CHILD" 1 3 "10.0.0.11" "IPv4" "10.0.0.12"
                   50000 50000 3))].
    repeat split; [reflexivity|apply perm_swap|discriminate].
  - vm_compute. reflexivity.
Qed.

Lemma sample_topology_ten_valid : valid_topology sample_topology_ten.
Proof. apply distinctly_numbered_valid, sample_topology_ten_distinct. Qed.

Lemma sample_topology_ten_moved_valid : valid_topology sample_topology_ten_moved.
Proof.
  unfold valid_topology, names_ok; simpl.
  repeat split; repeat constructor; eexists; apply py_int_denotes;
    vm_compute; reflexivity.
Qed.

(** The local document lists [10] before [9], the remote one [9] before
    [10]: a single count entry for the path servers, and the one router
    that has moved is found after the sort. *)
Example diff_sorts_by_number :
  _get_changes sample_topology_ten sample_topology_ten_moved
  = Ok ["Different number of " +:+ dq +:+ "PathServers" +:+ dq +:+ " servers";
        dq +:+ "Addr" +:+ dq +:+
        " values differ for one of EdgeRouters. Local: 10.0.0.1, remote: 10.0.0.99"].
Proof. vm_compute. reflexivity. Qed.

Lemma diff_collections_witness :
  valid_topology sample_topology_ten /\
  valid_topology sample_topology_ten_moved /\
  exists ps cs bs er,
    _get_changes sample_topology_ten sample_topology_ten_moved
    = Ok (scalar_changes sample_topology_ten sample_topology_ten_moved
            ++ ps ++ cs ++ bs ++ er)%list /\
    collection_spec
      ("Different number of " +:+ dq +:+ "PathServers" +:+ dq +:+ " servers")
      (addr_entry "PathServers")
      (PathServers sample_topology_ten_moved)
      (PathServers sample_topology_ten) ps /\
    collection_spec
      ("Different number of " +:+ dq +:+ "CertificateServers" +:+ dq +:+
       " servers")
      (addr_entry "CertificateServers")
      (CertificateServers sample_topology_ten_moved)
      (CertificateServers sample_topology_ten) cs /\
    collection_spec
      ("Different number of " +:+ dq +:+ "BeaconServers" +:+ dq +:+ " servers")
      (addr_entry "BeaconServers")
      (BeaconServers sample_topology_ten_moved)
      (BeaconServers sample_topology_ten) bs /\
    collection_spec
      ("Different number of " +:+ dq +:+ "EdgeRouters" +:+ dq +:+ " servers")
      router_entries
      (EdgeRouters sample_topology_ten_moved)
      (EdgeRouters sample_topology_ten) er.
Proof.
  split; [exact sample_topology_ten_valid|].
  split; [exact sample_topology_ten_moved_valid|].
  exact (diff_collections sample_topology_ten sample_topology_ten_moved
           sample_topology_ten_valid sample_topology_ten_moved_valid).
Defined.



(** Two documents with the same routers [1] and [01], listed in different
    orders: each router is compared with the other one. *)
Lemma diff_equal_numbers_relisted :
  valid_topology sample_topology_twins /\
  identical_except_dns sample_topology_twins sample_topology_twins_relisted /\
  (exists entries,
     _get_changes sample_topology_twins sample_topology_twins_relisted
     = Ok entries /\ length entries = 6%nat) /\
  exists entries,
    compare_remote_topology (Some sample_topology_twins_relisted)
      sample_topology_twins = Ok (mkJson "CHANGED" entries []).
Proof.
  split; [exact sample_topology_twins_valid|]. split.
  - unfold identical_except_dns; simpl.
    repeat split; try reflexivity. apply perm_swap.
  - split; eexists; [split|]; vm_compute; reflexivity.
Qed.

(** ** Paths *)

Lemma after_last_slash_no_slash s : has_slash s = false -> after_last_slash s = s.
Proof.
  destruct s as [|c s]; simpl; [reflexivity|].
  unfold has_slash; simpl. intros Hs.
  apply orb_false_iff in Hs as [Hc Hs]. rewrite Hs.
  rewrite Ascii.eqb_sym in Hc. now rewrite Hc.
Qed.

(** The base name of a path holds no separator. *)
Lemma basename_no_slash p : has_slash (basename p) = false.
Proof.
  unfold basename. induction p as [|c p IH]; simpl; [reflexivity|].
  fold (has_slash p).
  destruct (has_slash p) eqn:Hp; [exact IH|].
  destruct (Ascii.eqb c "/"%char) eqn:Hc; [exact Hp|].
  unfold has_slash; simpl. fold (has_slash p).
  rewrite Ascii.eqb_sym, Hc, Hp. reflexivity.
Qed.

Lemma has_slash_app a b : has_slash (a +:+ b) = has_slash a || has_slash b.
Proof.
  unfold has_slash. induction a as [|c a IH]; simpl; [reflexivity|].
  now rewrite IH, orb_assoc.
Qed.

Lemma after_last_slash_app_slash a b :
  has_slash b = false -> after_last_slash (a +:+ String "/" b) = b.
Proof.
  intros Hb. induction a as [|c a IH]; simpl.
  - fold (has_slash b). rewrite Hb. reflexivity.
  - fold (has_slash (a +:+ String "/" b)).
    rewrite has_slash_app.
    replace (has_slash (String "/" b)) with true by reflexivity.
    rewrite orb_true_r. exact IH.
Qed.

Lemma ends_with_slash_split a :
  ends_with_slash a = true -> exists a', a = a' +:+ "/".
Proof.
  induction a as [|c a IH]; simpl; [discriminate|].
  destruct a as [|c' a].
  - intros Hc. apply Ascii.eqb_eq in Hc as ->. now exists EmptyString.
  - intros Ha. destruct (IH Ha) as [a' Ha']. exists (String c a').
    simpl. now rewrite <- Ha'.
Qed.

Lemma app_assoc_str a b c : (a +:+ b) +:+ c = a +:+ (b +:+ c).
Proof. induction a as [|x a IH]; simpl; [reflexivity|now rewrite IH]. Qed.

(** Joining a directory and a name without separator gives a path whose
    base name is that name. *)
Lemma basename_path_join d b :
  has_slash b = false -> basename (path_join d b) = b.
Proof.
  intros Hb. unfold path_join, basename.
  assert (Hs : starts_with_slash b = false).
  { destruct b as [|c b]; [reflexivity|]. unfold has_slash in Hb; simpl in *.
    apply orb_false_iff in Hb as [Hc _]. now rewrite Ascii.eqb_sym. }
  rewrite Hs.
  destruct (String.eqb d EmptyString) eqn:Hd; simpl.
  - apply String.eqb_eq in Hd as ->. simpl. now apply after_last_slash_no_slash.
  - destruct (ends_with_slash d) eqn:He.
    + apply ends_with_slash_split in He as [d' ->].
      rewrite app_assoc_str. now apply after_last_slash_app_slash.
    + now apply after_last_slash_app_slash.
Qed.

(** ** The handlers of the daemon *)

Lemma bind_run {S A B} (m : M S A) (k : A -> M S B) (s : S) :
  bind m k s = match m s with
               | (Ok a, s') => k a s'
               | (Raise e, s') => (Raise e, s')
               end.
Proof. reflexivity. Qed.

(** *** Directories *)

Lemma upto_last_slash_prefix p : exists rest, p = upto_last_slash p +:+ rest.
Proof.
  induction p as [|c p [rest IH]]; [now exists EmptyString|].
  simpl. destruct (existsb _ _).
  - exists rest. simpl. now rewrite <- IH.
  - destruct (Ascii.eqb_spec c "/"%char) as [->|_].
    + now exists p.
    + now exists (String c p).
Qed.

Lemma lstrip_slashes_suffix s : exists pre, s = pre +:+ lstrip_slashes s.
Proof.
  induction s as [|c s [pre IH]]; [now exists EmptyString|].
  simpl. destruct (Ascii.eqb c "/"%char).
  - exists (String c pre). simpl. now rewrite <- IH.
  - now exists EmptyString.
Qed.

Lemma rstrip_slashes_prefix h : exists rest, h = rstrip_slashes h +:+ rest.
Proof.
  destruct (lstrip_slashes_suffix (str_rev h)) as [pre Hp].
  exists (str_rev pre). unfold rstrip_slashes.
  now rewrite <- str_rev_append, <- Hp, str_rev_involutive.
Qed.

Lemma dirname_prefix p : exists rest, p = dirname p +:+ rest.
Proof.
  unfold dirname, path_split. cbn [fst].
  destruct (upto_last_slash_prefix p) as [r1 H1].
  destruct (negb _ && negb _); [|now exists r1].
  destruct (rstrip_slashes_prefix (upto_last_slash p)) as [r2 H2].
  exists (r2 +:+ r1). now rewrite <- append_assoc, <- H2.
Qed.

Lemma prefix_trans (a b c : string) :
  (exists r, b = a +:+ r) -> (exists r, c = b +:+ r) -> exists r, c = a +:+ r.
Proof.
  intros [r1 ->] [r2 ->]. exists (r1 +:+ r2). apply append_assoc.
Qed.

Lemma prefix_refl (a : string) : exists r, a = a +:+ r.
Proof. exists EmptyString. now rewrite append_empty_r. Qed.

Lemma directories_made_refl d w : directories_made d w w.
Proof.
  repeat split. exists []. split; [now rewrite app_nil_r|constructor].
  now left.
Qed.

Lemma directories_made_trans d w w1 w2 :
  directories_made d w w1 -> directories_made d w1 w2 ->
  directories_made d w w2.
Proof.
  intros (S1 & Z1 & (e1 & T1 & F1) & G1) (S2 & Z2 & (e2 & T2 & F2) & G2).
  split; [congruence|]. split; [congruence|]. split.
  - exists (e1 ++ e2)%list. split.
    + now rewrite T2, T1, List.app_assoc.
    + now apply List.Forall_app.
  - intros q. destruct (G1 q) as [E1|(N1 & D1 & P1)];
      destruct (G2 q) as [E2|(N2 & D2 & P2)].
    + left; congruence.
    + right. repeat split; congruence.
    + right. repeat split; congruence.
    + congruence.
Qed.

Lemma directories_made_longer d d' w w1 :
  (exists r, d' = d +:+ r) -> directories_made d w w1 ->
  directories_made d' w w1.
Proof.
  intros Hp (S1 & Z1 & T1 & G1). repeat split; try assumption.
  intros q. destruct (G1 q) as [E1|(N1 & D1 & P1)]; [now left|].
  right. repeat split; try assumption. exact (prefix_trans _ _ _ P1 Hp).
Qed.

Lemma mkdir_check_ok f path made :
  mkdir_check f path = Ok made ->
  f !! made = None /\ exists rest, path = made +:+ rest.
Proof.
  unfold mkdir_check. intros Hm.
  destruct (has_nul path); [discriminate|].
  destruct (String.eqb path EmptyString); [discriminate|].
  destruct (PATH_MAX <=? String.length path)%nat; [discriminate|].
  set (target := if String.eqb (basename path) EmptyString
                 then dirname path else path) in *.
  destruct (is_root target); [discriminate|].
  destruct (names_directory target).
  - destruct (walk _ _); cbn [rbind] in Hm; [|discriminate].
    destruct (lookup_dir _ _) as [[]|]; discriminate.
  - destruct (walk _ _); cbn [rbind] in Hm; [|discriminate].
    destruct (f !! target) eqn:Ht; [discriminate|].
    destruct (NAME_MAX <? _)%nat; [discriminate|].
    injection Hm as <-. split; [exact Ht|].
    unfold target. destruct (String.eqb (basename path) EmptyString).
    + apply dirname_prefix.
    + apply prefix_refl.
Qed.

Lemma mkdir_run path w :
  mkdir path w
  = match mkdir_check (fs w) path with
    | Ok made => (Ok tt, mkWorld (<[made := Dir]> (fs w)) (supervisor w)
                           (zookeeper w) (trace w ++ [EvMkdir made]))
    | Raise e => (Raise e, w)
    end.
Proof.
  unfold mkdir. run_monad. destruct (mkdir_check (fs w) path); reflexivity.
Qed.

Lemma mkdir_made path w r w1 :
  mkdir path w = (r, w1) -> directories_made path w w1.
Proof.
  rewrite mkdir_run.
  destruct (mkdir_check (fs w) path) as [made|e] eqn:Hm; intros [= <- <-].
  - destruct (mkdir_check_ok _ _ _ Hm) as [Hn Hp].
    repeat split; cbn [fs supervisor zookeeper trace].
    + exists [EvMkdir made]. split; [reflexivity|]. repeat constructor. eauto.
    + intros q. destruct (String.eqb_spec q made) as [->|Hq].
      * right. rewrite lookup_insert_eq. auto.
      * left. now rewrite lookup_insert_ne.
  - apply directories_made_refl.
Qed.

Lemma makedirs_go_made fuel name w r w1 :
  makedirs_go fuel name w = (r, w1) -> directories_made name w w1.
Proof.
  revert name w r w1. induction fuel as [|fuel IH]; intros name w r w1.
  - apply mkdir_made.
  - cbn [makedirs_go].
    assert (Hh : exists rest, name = fst (path_split name) +:+ rest)
      by apply dirname_prefix.
    destruct (path_split name) as [head tail]. cbn [fst] in Hh.
    assert (Hh' : exists rest,
               name = fst (if String.eqb tail EmptyString
                           then path_split head else (head, tail)) +:+ rest).
    { destruct (String.eqb tail EmptyString); [|exact Hh].
      eapply prefix_trans; [apply dirname_prefix|exact Hh]. }
    destruct (if String.eqb tail EmptyString then path_split head
              else (head, tail)) as [head' tail'].
    cbn [fst] in Hh'. rewrite bind_run. unfold path_exists at 1, gets.
    destruct (negb (String.eqb head' EmptyString)
              && negb (String.eqb tail' EmptyString)
              && negb (exists_path (fs w) head')).
    + rewrite bind_run. unfold except_pass.
      destruct (makedirs_go fuel head' w) as [[[]|e] w'] eqn:Hm.
      * apply IH in Hm. apply (directories_made_longer _ name _ _ Hh') in Hm.
        destruct (String.eqb tail' ".").
        -- intros [= <- <-]. exact Hm.
        -- intros Hk. apply mkdir_made in Hk.
           eapply directories_made_trans; eassumption.
      * apply IH in Hm. apply (directories_made_longer _ name _ _ Hh') in Hm.
        destruct (is_FileExistsError e).
        -- destruct (String.eqb tail' ".").
           ++ intros [= <- <-]. exact Hm.
           ++ intros Hk. apply mkdir_made in Hk.
              eapply directories_made_trans; eassumption.
        -- intros [= <- <-]. exact Hm.
    + apply mkdir_made.
Qed.

(** *** Files *)

Lemma is_file_inv f path :
  is_file f path = true ->
  sane path = true /\ names_directory path = false /\
  exists c, f !! path = Some (File c).
Proof.
  unfold is_file. intros Hf.
  apply andb_true_iff in Hf as [Hf Hc]. apply andb_true_iff in Hf as [Hs Hn].
  apply negb_true_iff in Hn.
  destruct (f !! path) as [[c|]|]; try discriminate. eauto.
Qed.

(** Opening a path for writing: the cases of a path that passes the
    checks on its form. *)
Lemma open_for_write_sane f path :
  sane path = true -> names_directory path = false ->
  open_for_write f path
  = match f !! path with
    | Some (File _) => Ok false
    | Some Dir => Raise IsADirectoryError
    | None =>
        try! _ := walk f (ancestors path) in
        if (NAME_MAX <? String.length (basename path))%nat
        then Raise (OSError "ENAMETOOLONG")
        else Ok true
    end.
Proof.
  unfold sane, open_for_write. intros Hs Hn.
  apply andb_true_iff in Hs as [Hs Hl]. apply andb_true_iff in Hs as [Hz He].
  apply negb_true_iff in Hz, He. rewrite Hz, He, Hn.
  apply Nat.ltb_lt in Hl.
  destruct (Nat.leb_spec PATH_MAX (String.length path)); [lia|reflexivity].
Qed.

(** A path that can be opened for writing passes the checks on its
    form, and is absent (the file is new) or a file. *)
Lemma open_for_write_inv f path created :
  open_for_write f path = Ok created ->
  sane path = true /\ names_directory path = false /\
  ((created = true /\ f !! path = None) \/
   (created = false /\ exists c, f !! path = Some (File c))).
Proof.
  unfold open_for_write, sane. intros Ho.
  destruct (has_nul path); [discriminate|].
  destruct (String.eqb path EmptyString); [discriminate|].
  destruct (Nat.leb_spec PATH_MAX (String.length path)) as [|Hl];
    [discriminate|].
  apply Nat.ltb_lt in Hl. rewrite Hl.
  destruct (names_directory path).
  - destruct (walk _ _); cbn [rbind] in Ho; [|discriminate].
    destruct (lookup_dir _ _) as [[]|]; try discriminate.
    destruct (NAME_MAX <? _)%nat; [discriminate|].
    destruct (String.eqb _ _); discriminate.
  - repeat split. destruct (f !! path) as [[c|]|].
    + injection Ho as <-. right. eauto.
    + discriminate.
    + destruct (walk _ _); cbn [rbind] in Ho; [|discriminate].
      destruct (NAME_MAX <? _)%nat; [discriminate|].
      injection Ho as <-. now left.
Qed.

Lemma is_file_open f path :
  is_file f path = true -> open_for_write f path = Ok false.
Proof.
  intros Hf. destruct (is_file_inv _ _ Hf) as (Hs & Hn & c & Hc).
  now rewrite (open_for_write_sane _ _ Hs Hn), Hc.
Qed.

Lemma file_open f path c :
  sane path = true -> names_directory path = false ->
  f !! path = Some (File c) -> open_for_write f path = Ok false.
Proof. intros Hs Hn Hc. now rewrite (open_for_write_sane _ _ Hs Hn), Hc. Qed.

Lemma ascii_text_utf8 s :
  ascii_text s = true -> str_utf8 s = Ok s.
Proof.
  unfold ascii_text, str_utf8. intros Ha.
  assert (Hv : forall fuel l,
             (length l <= fuel)%nat ->
             forallb (fun c => (N_of_ascii c <? 128)%N
                               && negb (Ascii.eqb c "013"%char)) l = true ->
             utf8_valid fuel (map (fun c => Z.of_N (N_of_ascii c)) l) = true).
  { induction fuel as [|fuel IH]; intros [|c l] Hlen Hl; simpl in *;
      try reflexivity; try lia.
    apply andb_true_iff in Hl as [Hc Hl]. apply andb_true_iff in Hc as [Hc _].
    apply N.ltb_lt in Hc.
    destruct (Z.leb_spec (Z.of_N (N_of_ascii c)) 127); [|lia].
    apply IH; [lia|exact Hl]. }
  unfold bytes_of. rewrite Hv; [reflexivity| |exact Ha].
  now rewrite string_length_list.
Qed.

Lemma ascii_text_newlines s :
  ascii_text s = true -> universal_newlines s = s.
Proof.
  unfold ascii_text. induction s as [|c s IH]; simpl; [reflexivity|].
  intros Ha. apply andb_true_iff in Ha as [Hc Hs].
  apply andb_true_iff in Hc as [_ Hc]. apply negb_true_iff in Hc.
  rewrite Hc. now rewrite IH.
Qed.

(** A text of ASCII characters without carriage return is read as it was
    written. *)
Lemma ascii_text_read s : ascii_text s = true -> text_of_bytes s = Ok s.
Proof.
  intros Ha. unfold text_of_bytes. rewrite (ascii_text_utf8 s Ha).
  cbn [rbind]. now rewrite (ascii_text_newlines s Ha).
Qed.

Lemma write_file_run path data w :
  write_file path data w
  = match open_for_write (fs w) path with
    | Ok _ => (Ok tt, after_write path data w)
    | Raise e => (Raise e, w)
    end.
Proof.
  unfold write_file, after_write. run_monad.
  destruct (open_for_write (fs w) path); reflexivity.
Qed.

Lemma open_append_run path w :
  open_append path w
  = match open_for_write (fs w) path with
    | Ok _ =>
        (Ok tt,
         mkWorld (match fs w !! path with
                  | Some _ => fs w
                  | None => <[path := File EmptyString]> (fs w)
                  end)
                 (supervisor w) (zookeeper w) (trace w ++ [EvOpenAppend path]))
    | Raise e => (Raise e, w)
    end.
Proof.
  unfold open_append. run_monad.
  destruct (open_for_write (fs w) path) as [created|e] eqn:Ho; [|reflexivity].
  destruct (open_for_write_inv _ _ _ Ho) as (_ & _ & [[-> Hn]|[-> [c Hc]]]).
  - rewrite Hn. reflexivity.
  - rewrite Hc. reflexivity.
Qed.

Lemma read_file_run path w c :
  names_directory path = false -> sane path = true ->
  fs w !! path = Some (File c) ->
  read_file path w = (text_of_bytes c, w).
Proof.
  intros Hn Hs Hc. unfold read_file. run_monad.
  unfold sane in Hs. apply andb_true_iff in Hs as [Hs _].
  apply andb_true_iff in Hs as [Hz _]. apply negb_true_iff in Hz.
  rewrite Hz, Hn, Hc. reflexivity.
Qed.

Section DaemonFacts.
Context `{Deployment}.

Lemma update_topology_no_file isd_id ad_id topology w :
  is_file (fs w) (get_topo_path isd_id ad_id) = false ->
  update_topology isd_id ad_id topology w
  = (Ok (Failure ["No AD topology found"]), w).
Proof. intros Hf. unfold update_topology. run_monad. now rewrite Hf. Qed.

(** [update_topology] once the file has been found. *)
Lemma update_topology_file isd_id ad_id topology w :
  is_file (fs w) (get_topo_path isd_id ad_id) = true ->
  update_topology isd_id ad_id topology w
  = match write_derivatives topology
            (<[get_topo_path isd_id ad_id := File (json_dump topology)]> (fs w))
    with
    | Ok f' =>
        (Ok (Success (DStr "Topology file is successfully updated")),
         mkWorld f' (supervisor w) (zookeeper w)
           (trace w ++ [EvWrite (get_topo_path isd_id ad_id) (json_dump topology);
                        EvDerivatives topology;
                        EvThreadStart "Restart supervisor daemon"]))
    | Raise e =>
        (Raise e,
         after_write (get_topo_path isd_id ad_id) (json_dump topology) w)
    end.
Proof.
  intros Hf. unfold update_topology.
  rewrite bind_run. unfold isfile at 1, gets. rewrite Hf. cbn [negb].
  rewrite bind_run, write_file_run, (is_file_open _ _ Hf).
  unfold generator_write_derivatives, restart_supervisor_async, after_write.
  run_monad. world_proj.
  destruct (write_derivatives _ _); [|reflexivity].
  world_proj. rewrite <- !app_assoc. reflexivity.
Qed.

Lemma get_topology_no_file isd_id ad_id w :
  is_file (fs w) (get_topo_path (IdStr (str_of_id isd_id))
                                (IdStr (str_of_id ad_id))) = false ->
  get_topology isd_id ad_id w = (Ok (Failure ["No topology file found"]), w).
Proof. intros Hf. unfold get_topology. run_monad. now rewrite Hf. Qed.

(** [get_topology] once the file has been found. *)
Lemma get_topology_file isd_id ad_id w c :
  is_file (fs w) (get_topo_path (IdStr (str_of_id isd_id))
                                (IdStr (str_of_id ad_id))) = true ->
  fs w !! get_topo_path (IdStr (str_of_id isd_id)) (IdStr (str_of_id ad_id))
  = Some (File c) ->
  get_topology isd_id ad_id w
  = match text_of_bytes c with
    | Ok text => (Ok (Success (DStr text)), w)
    | Raise e => (Raise e, w)
    end.
Proof.
  intros Hf Hc. destruct (is_file_inv _ _ Hf) as (Hs & Hn & _).
  unfold get_topology.
  rewrite bind_run. unfold isfile at 1, gets. rewrite Hf.
  rewrite bind_run, (read_file_run _ _ c Hn Hs Hc).
  destruct (text_of_bytes c); reflexivity.
Qed.

Lemma control_process_invalid isd_id ad_id process_name command w :
  ~ In command ["START"; "STOP"; "RESTART"] ->
  control_process isd_id ad_id process_name command w
  = (Ok (Failure ["Invalid command"]), w).
Proof.
  intros Hn. unfold control_process.
  assert (H1 : String.eqb command "START" = false)
    by (apply String.eqb_neq; intros ->; apply Hn; simpl; auto).
  assert (H2 : String.eqb command "STOP" = false)
    by (apply String.eqb_neq; intros ->; apply Hn; simpl; auto).
  assert (H3 : String.eqb command "RESTART" = false)
    by (apply String.eqb_neq; intros ->; apply Hn; simpl; auto).
  now rewrite H1, H2, H3.
Qed.

Lemma get_process_info_unknown full_process_name w l :
  supervisor w = Some l ->
  find (fun p => String.eqb (full_name p) full_process_name) l = None ->
  get_process_info full_process_name w = (Raise (Fault "BAD_NAME"), w).
Proof.
  intros Hs Hf. unfold get_process_info, getProcessInfo, supervisor_call.
  run_monad. now rewrite Hs, Hf.
Qed.

Lemma get_process_info_unreachable full_process_name w :
  supervisor w = None ->
  get_process_info full_process_name w = (Raise ConnectionRefusedError, w).
Proof.
  intros Hs. unfold get_process_info, getProcessInfo, supervisor_call.
  run_monad. now rewrite Hs.
Qed.

(** *** C9 *)

(** C9: when the topology file of the domain does not exist,
    [update_topology] returns a failure envelope and leaves the node as
    it was (nothing is written, no thread is started).  When it exists
    (and the generation of the derived files returns normally), the
    document is written to it, and after that write exactly one thread
    that restarts the supervisor is started. *)
Theorem update_topology_spec (isd_id ad_id : pyid) (topology : Topology)
    (w : World) :
  let topo_path := get_topo_path isd_id ad_id in
  (is_file (fs w) topo_path = false ->
   update_topology isd_id ad_id topology w
   = (Ok (Failure ["No AD topology found"]), w))
  /\
  (is_file (fs w) topo_path = true ->
   forall f',
     write_derivatives topology
       (<[topo_path := File (json_dump topology)]> (fs w)) = Ok f' ->
     update_topology isd_id ad_id topology w
     = (Ok (Success (DStr "Topology file is successfully updated")),
        mkWorld f' (supervisor w) (zookeeper w)
          (trace w ++ [EvWrite topo_path (json_dump topology);
                       EvDerivatives topology;
                       EvThreadStart "Restart supervisor daemon"]))).
Proof.
  intros topo_path. split.
  - apply update_topology_no_file.
  - intros Hf f' Hd. rewrite (update_topology_file _ _ _ _ Hf).
    fold topo_path. now rewrite Hd.
Qed.
End DaemonFacts.

Lemma update_topology_spec_witness :
  update_topology (IdStr "1") (IdStr "10") sample_topology empty_world
  = (Ok (Failure ["No AD topology found"]), empty_world)
  /\
  update_topology (IdStr "1") (IdStr "10") sample_topology world_with_topology
  = (Ok (Success (DStr "Topology file is successfully updated")),
     mkWorld {[ sample_topo_path := File (json_dump sample_topology) ]}
       (Some []) (Some ∅)
       [EvWrite sample_topo_path (json_dump sample_topology);
        EvDerivatives sample_topology;
        EvThreadStart "Restart supervisor daemon"]).
Proof.
  split.
  - apply (proj1 (update_topology_spec (IdStr "1") (IdStr "10")
                    sample_topology empty_world)).
    reflexivity.
  - assert (Hf : is_file (fs world_with_topology)
                   (get_topo_path (IdStr "1") (IdStr "10")) = true)
      by (vm_compute; reflexivity).
    rewrite (proj2 (update_topology_spec (IdStr "1") (IdStr "10")
                      sample_topology world_with_topology)
               Hf _ eq_refl).
    vm_compute. reflexivity.
Defined.

Section SendUpdate.
Context `{Deployment}.

Lemma send_update_undecodable isd_id ad_id p w e :
  b64decode (data p) = Raise e -> send_update isd_id ad_id p w = (Raise e, w).
Proof. intros Hd. unfold send_update. run_monad. now rewrite Hd. Qed.

Lemma send_update_mismatch isd_id ad_id p w raw_data :
  b64decode (data p) = Ok raw_data ->
  sha1_hexdigest raw_data <> digest p ->
  send_update isd_id ad_id p w
  = (Ok (Failure ["Hash value does not match"]), w).
Proof.
  intros Hd Hne. unfold send_update. run_monad. rewrite Hd.
  apply String.eqb_neq in Hne. now rewrite Hne.
Qed.

Lemma run_updater_run archive w :
  run_updater archive PROJECT_ROOT w
  = match open_for_write (fs w) updater_log with
    | Ok _ => (Ok tt, after_updater archive w)
    | Raise e => (Raise e, w)
    end.
Proof.
  unfold run_updater. fold updater_log.
  rewrite bind_run, open_append_run.
  destruct (open_for_write (fs w) updater_log); [|reflexivity].
  unfold log, modify, after_updater. world_proj.
  now rewrite <- app_assoc.
Qed.

Lemma staging_run w :
  staging w
  = (if negb (exists_path (fs w) UPDATE_DIR_PATH)
     then makedirs UPDATE_DIR_PATH else ret tt) w.
Proof. reflexivity. Qed.

Lemma send_update_verified isd_id ad_id p w raw_data :
  b64decode (data p) = Ok raw_data ->
  sha1_hexdigest raw_data = digest p ->
  send_update isd_id ad_id p w = verified_run p raw_data w.
Proof.
  intros Hd He. unfold send_update, verified_run.
  rewrite bind_run. unfold lift at 1. rewrite Hd, He, String.eqb_refl.
  cbn [negb]. fold (out_path p).
  rewrite staging_run, bind_run. unfold path_exists at 1, gets.
  cbv beta iota. rewrite bind_run.
  destruct ((if negb (exists_path (fs w) UPDATE_DIR_PATH)
             then makedirs UPDATE_DIR_PATH else ret tt) w) as [[[]|e] w1];
    [|reflexivity].
  rewrite bind_run. unfold isdir at 1, gets.
  destruct (is_dir (fs w1) UPDATE_DIR_PATH); cbn [negb]; [|reflexivity].
  rewrite bind_run, write_file_run.
  destruct (open_for_write (fs w1) (out_path p)); [|reflexivity].
  rewrite bind_run, run_updater_run.
  destruct (open_for_write _ updater_log); reflexivity.
Qed.

Lemma staging_made w r w1 :
  staging w = (r, w1) -> directories_made UPDATE_DIR_PATH w w1.
Proof.
  rewrite staging_run.
  destruct (negb _).
  - apply makedirs_go_made.
  - intros [= <- <-]. apply directories_made_refl.
Qed.

(** *** C3 *)

(** C3 (amended): [send_update] accepts only if the declared digest is
    the hex digest of the decoded bytes; when the body decodes and the
    digests differ, it returns a failure envelope and leaves the node as
    it was (no directory made, no file written); when they are equal it
    accepts, provided the staging directory exists or can be made and is
    a directory, and the archive and then the updater's log can be
    opened for writing. *)
Theorem send_update_digest_check (isd_id ad_id : pyid) (p : update_payload)
    (w : World) :
  (forall d w',
     send_update isd_id ad_id p w = (Ok (Success d), w') ->
     exists raw_data,
       b64decode (data p) = Ok raw_data /\
       sha1_hexdigest raw_data = digest p)
  /\
  (forall raw_data,
     b64decode (data p) = Ok raw_data ->
     sha1_hexdigest raw_data <> digest p ->
     send_update isd_id ad_id p w
     = (Ok (Failure ["Hash value does not match"]), w))
  /\
  (forall raw_data w1,
     b64decode (data p) = Ok raw_data ->
     sha1_hexdigest raw_data = digest p ->
     staging w = (Ok tt, w1) ->
     let w2 := after_write (out_path p) raw_data w1 in
     is_dir (fs w1) UPDATE_DIR_PATH = true ->
     can_open (fs w1) (out_path p) = true ->
     can_open (fs w2) updater_log = true ->
     send_update isd_id ad_id p w
     = (Ok (Success (DStr EmptyString)), after_updater (out_path p) w2)).
Proof.
  split; [|split].
  - intros d w' Hs.
    destruct (b64decode (data p)) as [raw_data|e] eqn:Hd.
    + exists raw_data. split; [reflexivity|].
      destruct (String.eqb (sha1_hexdigest raw_data) (digest p)) eqn:He.
      * now apply String.eqb_eq.
      * apply String.eqb_neq in He.
        rewrite (send_update_mismatch _ _ _ _ _ Hd He) in Hs. discriminate.
    + rewrite (send_update_undecodable _ _ _ _ _ Hd) in Hs. discriminate.
  - intros raw_data Hd Hne. exact (send_update_mismatch _ _ _ _ _ Hd Hne).
  - intros raw_data w1 Hd He Hst w2 H1 H2 H3.
    rewrite (send_update_verified _ _ _ _ _ Hd He). unfold verified_run.
    rewrite Hst, H1. cbn [negb]. unfold can_open in H2, H3.
    destruct (open_for_write (fs w1) (out_path p)); [|discriminate].
    fold w2. destruct (open_for_write (fs w2) updater_log); [|discriminate].
    reflexivity.
Qed.

(** *** C4 *)

Lemma can_open_inside f p :
  can_open f (out_path p) = true ->
  inside_directory UPDATE_DIR_PATH (out_path p).
Proof.
  unfold can_open. intros Hc.
  destruct (open_for_write f (out_path p)) as [c|] eqn:Ho; [|discriminate].
  destruct (open_for_write_inv _ _ _ Ho) as (_ & Hn & _).
  unfold names_directory in Hn. unfold out_path in Hn.
  rewrite (basename_path_join _ _ (basename_no_slash (name p))) in Hn.
  apply orb_false_iff in Hn as [Hn H3]. apply orb_false_iff in Hn as [H1 H2].
  exists (basename (name p)). split; [reflexivity|].
  split; [apply basename_no_slash|].
  rewrite <- !String.eqb_neq. auto.
Qed.

Lemma staging_trace w r w1 :
  staging w = (r, w1) ->
  exists evs, trace w1 = (trace w ++ evs)%list /\
              forall path bytes, ~ In (EvWrite path bytes) evs.
Proof.
  intros Hs. apply staging_made in Hs as (_ & _ & (evs & Ht & Hf) & _).
  exists evs. split; [exact Ht|]. intros path bytes Hi.
  rewrite List.Forall_forall in Hf. destruct (Hf _ Hi) as [q Hq]. discriminate.
Qed.

Lemma after_updater_keeps path raw_data archive w :
  fs w !! path = Some (File raw_data) ->
  fs (after_updater archive w) !! path = Some (File raw_data).
Proof.
  intros Hw. unfold after_updater; cbn [fs].
  destruct (fs w !! updater_log) eqn:Hl; [exact Hw|].
  rewrite lookup_insert_ne; [exact Hw|]. intros Heq. congruence.
Qed.

(** C4: whatever the declared name is, the only file that [send_update]
    writes is the staging directory joined with the base name of the
    declared name, a path directly inside the staging directory, and it
    holds the decoded bytes, whose digest was verified; when the update
    is accepted this file has been written. *)
Theorem send_update_stores_under_basename (isd_id ad_id : pyid)
    (p : update_payload) (w : World) :
  exists evs,
    trace (snd (send_update isd_id ad_id p w)) = (trace w ++ evs)%list /\
    (forall path bytes,
       In (EvWrite path bytes) evs ->
       path = path_join UPDATE_DIR_PATH (basename (name p)) /\
       b64decode (data p) = Ok bytes /\
       sha1_hexdigest bytes = digest p /\
       inside_directory UPDATE_DIR_PATH path) /\
    (forall d,
       fst (send_update isd_id ad_id p w) = Ok (Success d) ->
       exists raw_data,
         b64decode (data p) = Ok raw_data /\
         In (EvWrite (path_join UPDATE_DIR_PATH (basename (name p))) raw_data)
            evs /\
         fs (snd (send_update isd_id ad_id p w))
           !! path_join UPDATE_DIR_PATH (basename (name p))
         = Some (File raw_data)).
Proof.
  destruct (b64decode (data p)) as [raw_data|e] eqn:Hd.
  2:{ rewrite (send_update_undecodable _ _ _ _ _ Hd). exists [].
      rewrite app_nil_r. cbn [fst snd].
      split; [reflexivity|]. split; [intros ? ? []|discriminate]. }
  destruct (String.eqb (sha1_hexdigest raw_data) (digest p)) eqn:He.
  2:{ apply String.eqb_neq in He.
      rewrite (send_update_mismatch _ _ _ _ _ Hd He). exists [].
      rewrite app_nil_r. cbn [fst snd].
      split; [reflexivity|]. split; [intros ? ? []|discriminate]. }
  apply String.eqb_eq in He.
  rewrite (send_update_verified _ _ _ _ _ Hd He). unfold verified_run.
  destruct (staging w) as [[[]|e] w1] eqn:Hst;
    destruct (staging_trace _ _ _ Hst) as (ev1 & Ht1 & Hn1).
  2:{ exists ev1. cbn [fst snd]. split; [exact Ht1|].
      split; [intros ? ? Hin; now apply Hn1 in Hin|discriminate]. }
  destruct (is_dir (fs w1) UPDATE_DIR_PATH); cbn [negb].
  2:{ exists ev1. cbn [fst snd]. split; [exact Ht1|].
      split; [intros ? ? Hin; now apply Hn1 in Hin|discriminate]. }
  destruct (open_for_write (fs w1) (out_path p)) as [c|e] eqn:Hc.
  2:{ exists ev1. cbn [fst snd]. split; [exact Ht1|].
      split; [intros ? ? Hin; now apply Hn1 in Hin|discriminate]. }
  assert (Hin : inside_directory UPDATE_DIR_PATH (out_path p))
    by (apply (can_open_inside (fs w1)); unfold can_open; now rewrite Hc).
  assert (Hw : forall path bytes,
             In (EvWrite path bytes) (ev1 ++ [EvWrite (out_path p) raw_data]) ->
             path = out_path p /\ bytes = raw_data).
  { intros path bytes Hi. apply in_app_or in Hi as [Hi|[Hi|[]]].
    - now apply Hn1 in Hi.
    - now inversion Hi. }
  set (w2 := after_write (out_path p) raw_data w1).
  destruct (open_for_write (fs w2) updater_log); cbn [fst snd].
  - exists (ev1 ++ [EvWrite (out_path p) raw_data; EvOpenAppend updater_log;
                    EvPopen [sys_executable; UPDATE_SCRIPT_PATH; out_path p;
                             PROJECT_ROOT] updater_log])%list.
    split; [|split].
    + unfold after_updater, w2, after_write; world_proj.
      rewrite Ht1, <- !app_assoc. reflexivity.
    + intros path bytes Hi.
      assert (Hi' : In (EvWrite path bytes)
                       (ev1 ++ [EvWrite (out_path p) raw_data])).
      { apply in_app_or in Hi as [Hi|[Hi|[Hi|[Hi|[]]]]];
          try discriminate; apply in_or_app; [now left|right; now left]. }
      destruct (Hw _ _ Hi') as [-> ->]. auto.
    + intros d _. exists raw_data. split; [reflexivity|]. split.
      * apply in_or_app; right; now left.
      * apply after_updater_keeps. unfold w2, after_write; cbn [fs].
        apply lookup_insert_eq.
  - exists (ev1 ++ [EvWrite (out_path p) raw_data])%list.
    split; [|split].
    + unfold w2, after_write; world_proj. now rewrite Ht1, <- app_assoc.
    + intros path bytes Hi. destruct (Hw _ _ Hi) as [-> ->]. auto.
    + discriminate.
Qed.
End SendUpdate.

(** C3, as stated, fails: the declared digest equals the digest of the
    decoded bytes, and the update is not accepted. *)
Lemma send_update_matching_digest_refused :
  b64decode (data payload_trailing_slash) = Ok "hello" /\
  sha1_hexdigest "hello" = digest payload_trailing_slash /\
  fst (send_update (IdInt 1) (IdInt 10) payload_trailing_slash sample_node)
  = Raise IsADirectoryError.
Proof. repeat split; vm_compute; reflexivity. Qed.

Lemma send_update_digest_check_witness :
  send_update (IdInt 1) (IdInt 10) payload_bit_flip sample_node
  = (Ok (Failure ["Hash value does not match"]), sample_node)
  /\
  fst (send_update (IdInt 1) (IdInt 10) payload_traversal sample_node)
  = Ok (Success (DStr EmptyString)).
Proof.
  split.
  - apply (proj1 (proj2 (send_update_digest_check (IdInt 1) (IdInt 10)
                           payload_bit_flip sample_node)) "hello").
    + vm_compute; reflexivity.
    + vm_compute; discriminate.
  - rewrite (proj2 (proj2 (send_update_digest_check (IdInt 1) (IdInt 10)
                             payload_traversal sample_node)) "hello"
               (snd (staging sample_node)));
      [reflexivity|vm_compute; reflexivity..].
Defined.

Lemma send_update_stores_under_basename_witness :
  exists evs,
    trace (snd (send_update (IdInt 1) (IdInt 10) payload_traversal sample_node))
    = evs /\
    In (EvWrite "/scion/.update_files/passwd" "hello") evs /\
    forall path bytes,
      In (EvWrite path bytes) evs -> path = "/scion/.update_files/passwd".
Proof.
  destruct (send_update_stores_under_basename (IdInt 1) (IdInt 10)
              payload_traversal sample_node) as (evs & Ht & Hw & Hs).
  exists evs. split; [exact Ht|]. split.
  - destruct (Hs (DStr EmptyString)) as (raw & Hd & Hi & _);
      [vm_compute; reflexivity|].
    assert (raw = "hello") as -> by (vm_compute in Hd; congruence).
    exact Hi.
  - intros path bytes Hi. exact (proj1 (Hw path bytes Hi)).
Defined.

(** ** Digit strings and their order *)

Lemma digits_value_spec s :
  all_digits s = true ->
  exists v, 0 <= v < 10 ^ Z.of_nat (String.length s) /\
            forall acc, digits_value acc s
                        = Some (acc * 10 ^ Z.of_nat (String.length s) + v).
Proof.
  unfold all_digits. induction s as [|c s IH]; simpl; intros Hd.
  - exists 0. split; [lia|]. intros acc. f_equal. lia.
  - apply andb_true_iff in Hd as [Hc Hs]. destruct (IH Hs) as (v & Hv & Hacc).
    exists (digit_val c * 10 ^ Z.of_nat (String.length s) + v).
    assert (Hdc : 0 <= digit_val c <= 9).
    { unfold is_digit, digit_val in *.
      apply andb_true_iff in Hc as [H1 H2].
      apply N.leb_le in H1, H2. lia. }
    rewrite Nat2Z.inj_succ, Z.pow_succ_r by lia.
    split; [nia|]. intros acc. rewrite Hc, Hacc. f_equal. ring.
Qed.

(** On digit strings of one length the order of the strings is the order
    of the numbers. *)
Lemma leb_digits_le s t vs vt :
  all_digits s = true -> all_digits t = true ->
  String.length s = String.length t ->
  digits_value 0 s = Some vs -> digits_value 0 t = Some vt ->
  String.leb s t = true -> vs <= vt.
Proof.
  revert t vs vt. induction s as [|c s IH]; intros [|c' t] vs vt Hs Ht Hlen;
    try discriminate.
  - simpl. intros. simplify_eq. lia.
  - pose proof Hs as Hs0. pose proof Ht as Ht0.
    unfold all_digits in Hs, Ht; simpl in Hs, Ht.
    apply andb_true_iff in Hs as [Hc Hs]. apply andb_true_iff in Ht as [Hc' Ht].
    destruct (digits_value_spec s Hs) as (v & Hv & Hacc).
    destruct (digits_value_spec t Ht) as (v' & Hv' & Hacc').
    simpl in Hlen. injection Hlen as Hlen.
    simpl. rewrite Hc, Hc', Hacc, Hacc'. intros [= <-] [= <-].
    unfold String.leb; simpl. unfold Ascii.compare.
    assert (Hd : forall x, is_digit x = true ->
                           digit_val x = Z.of_N (N_of_ascii x) - 48)
      by reflexivity.
    rewrite <- Hlen in *.
    destruct (N.compare_spec (N_of_ascii c) (N_of_ascii c')) as [He|Hlt|Hgt].
    + intros Hle.
      assert (v <= v'); [|unfold digit_val; rewrite He; lia].
      eapply (IH t v v'); eauto.
    + intros _. unfold digit_val. nia.
    + discriminate.
Qed.

(** A non-empty digit string is a numeral, of the value that is read
    from the left. *)
Lemma numeral_digits s :
  all_digits s = true -> s <> EmptyString ->
  exists v, digits_value 0 s = Some v /\ numeral_value s = Some v.
Proof.
  intros Hs Hne. destruct (digits_value_spec s Hs) as (v & _ & Hacc).
  exists v. split; [rewrite (Hacc 0); f_equal; lia|].
  apply unsigned_int_numeral. unfold unsigned_int.
  destruct s as [|c s]; [congruence|].
  rewrite (Hacc 0). f_equal; lia.
Qed.

(** ** The first contender *)

Lemma string_leb_refl s : String.leb s s = true.
Proof.
  pose proof (@reflexivity _ String.le _ s) as Hr.
  unfold String.le in Hr. now destruct (String.leb s s).
Qed.

Lemma string_leb_trans a b c :
  String.leb a b = true -> String.leb b c = true -> String.leb a c = true.
Proof.
  intros H1 H2.
  pose proof (@transitivity _ String.le _ a b c) as Ht.
  unfold String.le in Ht. rewrite H1, H2 in Ht.
  destruct (String.leb a c); [reflexivity|]. exfalso. now apply Ht.
Qed.

Lemma decorated_by_key {A K} (key : A -> K) (l : list A) :
  Forall (fun d => fst d = key (snd d)) (combine (map key l) l).
Proof. induction l as [|a l IH]; simpl; constructor; auto. Qed.

(** [sorted(contenders, key=get_id)[0]] is a contender whose identifier
    is not above that of any contender, in the order of strings. *)
Lemma first_by_id_least (contenders : list string) :
  contenders <> [] ->
  exists holder,
    first_by_id contenders = Ok holder /\ In holder contenders /\
    forall c, In c contenders -> String.leb (get_id holder) (get_id c) = true.
Proof.
  intros Hne. unfold first_by_id, sorted.
  rewrite (rmap_list_total _ get_id) by (apply List.Forall_forall; reflexivity).
  cbn [rbind].
  set (d := combine (map get_id contenders) contenders).
  pose proof (sort_decorated_perm String.leb d) as Hp.
  pose proof (sort_decorated_sorted String.leb String.leb_total
                string_leb_trans d) as Hs.
  assert (Hk : Forall (fun x => fst x = get_id (snd x))
                      (sort_decorated String.leb d)).
  { eapply Permutation_Forall; [symmetry; exact Hp|apply decorated_by_key]. }
  assert (Hsnd : map snd d = contenders).
  { unfold d. apply map_snd_combine_keys. now rewrite length_map. }
  destruct (sort_decorated String.leb d) as [|[k holder] s] eqn:Hsd.
  - apply Permutation_nil in Hp. rewrite Hp in Hsnd. simpl in Hsnd. congruence.
  - simpl. exists holder. split; [reflexivity|].
    pose proof Hk as Hk'. apply List.Forall_cons_iff in Hk' as [Hk0 _].
    simpl in Hk0. subst k.
    apply StronglySorted_inv in Hs as [_ Hs1].
    assert (Hmem : forall c, In c contenders ->
                             In (get_id c, c) ((get_id holder, holder) :: s)).
    { intros c Hc. rewrite <- Hsnd in Hc. apply in_map_iff in Hc as [[k' c'] [<- Hc]].
      apply (Permutation_in _ (Permutation_sym Hp)) in Hc as Hc'.
      rewrite List.Forall_forall in Hk. specialize (Hk _ Hc'). simpl in Hk.
      subst k'. exact Hc'. }
    split.
    + rewrite <- Hsnd. apply in_map_iff. exists (get_id holder, holder).
      split; [reflexivity|]. eapply Permutation_in; [exact Hp|now left].
    + intros c Hc. destruct (Hmem c Hc) as [Heq|Hin].
      * injection Heq as _ <-. apply string_leb_refl.
      * rewrite List.Forall_forall in Hs1. exact (Hs1 _ Hin).
Qed.

(** ** Splitting a lock value on NUL bytes *)

Lemma length_app_str a b :
  String.length (a +:+ b) = (String.length a + String.length b)%nat.
Proof. induction a as [|c a IH]; simpl; [reflexivity|now rewrite IH]. Qed.

Lemma prefix_nul c s :
  is_prefix_b NUL (String c s) = Ascii.eqb "000"%char c.
Proof.
  unfold is_prefix_b, NUL. cbn [String.prefix].
  destruct (ascii_dec "000" c) as [<-|Hne].
  - now destruct s.
  - symmetry. now apply (proj2 (Ascii.eqb_neq _ _)).
Qed.

Lemma split_go_nul_last f fuel :
  has_nul f = false -> (String.length f <= fuel)%nat ->
  split_go NUL fuel f = [f].
Proof.
  revert fuel. induction f as [|c f IH]; intros fuel Hn Hlen.
  - destruct fuel; reflexivity.
  - destruct fuel as [|fuel]; [simpl in Hlen; lia|].
    unfold has_nul in Hn; simpl in Hn. apply orb_false_iff in Hn as [Hc Hn].
    cbn [split_go]. rewrite prefix_nul, Hc.
    rewrite IH; [reflexivity|exact Hn|simpl in Hlen; lia].
Qed.

Lemma split_go_nul_field f rest fuel :
  has_nul f = false ->
  (String.length f + S (String.length rest) <= fuel)%nat ->
  split_go NUL fuel (f +:+ String "000" rest)
  = f :: split_go NUL (fuel - S (String.length f)) rest.
Proof.
  revert fuel. induction f as [|c f IH]; intros fuel Hn Hlen.
  - destruct fuel as [|fuel]; [lia|].
    cbn [String.append split_go]. rewrite prefix_nul, Ascii.eqb_refl.
    simpl. now rewrite Nat.sub_0_r.
  - destruct fuel as [|fuel]; [simpl in Hlen; lia|].
    unfold has_nul in Hn; simpl in Hn. apply orb_false_iff in Hn as [Hc Hn].
    cbn [String.append split_go]. rewrite prefix_nul, Hc.
    rewrite IH; [reflexivity|exact Hn|simpl in Hlen; lia].
Qed.

(** A value made of three fields without NUL, separated by NUL bytes,
    splits into these three fields. *)
Lemma split_three_fields f1 f2 f3 :
  has_nul f1 = false -> has_nul f2 = false -> has_nul f3 = false ->
  split NUL (f1 +:+ NUL +:+ f2 +:+ NUL +:+ f3) = [f1; f2; f3].
Proof.
  intros H1 H2 H3. unfold split.
  change (f1 +:+ NUL +:+ f2 +:+ NUL +:+ f3)
    with (f1 +:+ String "000" (f2 +:+ String "000" f3)).
  assert (Hlen : forall a b, String.length (a +:+ String "000" b)
                             = (String.length a + S (String.length b))%nat)
    by (intros; now rewrite length_app_str).
  rewrite split_go_nul_field; [|exact H1|rewrite !Hlen; lia].
  rewrite split_go_nul_field; [|exact H2|rewrite !Hlen; lia].
  rewrite split_go_nul_last; [reflexivity|exact H3|rewrite !Hlen; lia].
Qed.

(** ** [get_master_id] *)

Lemma get_master_id_invalid_type isd_id ad_id server_type w :
  known_server_type server_type = false ->
  get_master_id isd_id ad_id server_type w
  = (Ok (Failure ["Invalid server type"]), w).
Proof.
  intros Hk. unfold get_master_id. fold (known_server_type server_type).
  now rewrite Hk.
Qed.

Lemma get_master_id_no_session isd_id ad_id server_type w :
  known_server_type server_type = true -> zookeeper w = None ->
  get_master_id isd_id ad_id server_type w = (Raise KazooTimeoutError, w).
Proof.
  intros Hk Hz. unfold get_master_id. fold (known_server_type server_type).
  rewrite Hk. cbn [negb]. unfold kc_start. run_monad. now rewrite Hz.
Qed.

Lemma get_master_id_no_lock_path isd_id ad_id server_type w tree :
  known_server_type server_type = true -> zookeeper w = Some tree ->
  tree !! lock_path_of isd_id ad_id server_type = None ->
  get_master_id isd_id ad_id server_type w
  = (Ok (Failure ["No lock data found"]), w).
Proof.
  intros Hk Hz Hl. unfold get_master_id. fold (known_server_type server_type).
  rewrite Hk. cbn [negb]. unfold kc_start, kc_get_children. run_monad.
  now rewrite Hz, Hl.
Qed.

Lemma get_master_id_no_contenders isd_id ad_id server_type w tree n :
  known_server_type server_type = true -> zookeeper w = Some tree ->
  tree !! lock_path_of isd_id ad_id server_type = Some n ->
  zchildren n = [] ->
  get_master_id isd_id ad_id server_type w
  = (Ok (Failure ["No lock contenders found"]), w).
Proof.
  intros Hk Hz Hl Hc. unfold get_master_id. fold (known_server_type server_type).
  rewrite Hk. cbn [negb]. unfold kc_start, kc_get_children. run_monad.
  now rewrite Hz, Hl, Hc.
Qed.

(** The run of [get_master_id] from the choice of the holder on. *)
Lemma get_master_id_holder_run isd_id ad_id server_type w tree n holder :
  known_server_type server_type = true -> zookeeper w = Some tree ->
  tree !! lock_path_of isd_id ad_id server_type = Some n ->
  zchildren n <> [] ->
  first_by_id (zchildren n) = Ok holder ->
  get_master_id isd_id ad_id server_type w
  = match tree !! path_join (lock_path_of isd_id ad_id server_type) holder with
    | None => (Ok (Failure ["No lock data found"]), w)
    | Some hn =>
        match split NUL (zdata hn) with
        | [server_id; _; _] =>
            match str_utf8 server_id with
            | Ok server_id => (Ok (Success (DStr server_id)), w)
            | Raise e => (Raise e, w)
            end
        | _ => (Raise ValueError, w)
        end
    end.
Proof.
  intros Hk Hz Hl Hc Hf. unfold get_master_id.
  fold (known_server_type server_type).
  rewrite Hk. cbn [negb]. unfold kc_start, kc_get_children, kc_get. run_monad.
  rewrite Hz, Hl. destruct (zchildren n) as [|c0 cs] eqn:Hcs; [congruence|].
  rewrite Hf.
  destruct (tree !! path_join _ holder) as [hn|]; [|reflexivity].
  destruct (split NUL (zdata hn)) as [|f1 [|f2 [|f3 [|f4 l]]]]; try reflexivity.
  unfold str_utf8. destruct (utf8_valid _ _); reflexivity.
Qed.

(** *** C2 *)

(** C2 (amended): among a non-empty list of contenders whose suffixes (the
    part of the name after the last separator) are runs of decimal digits
    of one width, as the zero-padded sequence numbers of the coordination
    service are, [get_master_id] selects a contender whose suffix is the
    smallest number; when the value of that contender is made of exactly
    three NUL-delimited fields and the first one is UTF-8, that field is
    returned as the identity of the holder. *)
Theorem get_master_id_selects_holder (isd_id ad_id : pyid) (server_type : string)
    (w : World) (tree : gmap string znode) (n : znode) (width : nat) :
  known_server_type server_type = true ->
  zookeeper w = Some tree ->
  tree !! lock_path_of isd_id ad_id server_type = Some n ->
  zchildren n <> [] ->
  (0 < width)%nat ->
  Forall (fun c => fixed_width_digits width (get_id c)) (zchildren n) ->
  exists holder,
    first_by_id (zchildren n) = Ok holder /\
    In holder (zchildren n) /\
    (forall c, In c (zchildren n) ->
       exists zh zc, numeral_value (get_id holder) = Some zh /\
                     numeral_value (get_id c) = Some zc /\ zh <= zc) /\
    (forall hn f1 f2 f3,
       tree !! path_join (lock_path_of isd_id ad_id server_type) holder = Some hn ->
       zdata hn = f1 +:+ NUL +:+ f2 +:+ NUL +:+ f3 ->
       has_nul f1 = false -> has_nul f2 = false -> has_nul f3 = false ->
       str_utf8 f1 = Ok f1 ->
       get_master_id isd_id ad_id server_type w = (Ok (Success (DStr f1)), w)).
Proof.
  intros Hk Hz Hl Hne Hw Hfw.
  destruct (first_by_id_least (zchildren n) Hne) as (holder & Hf & Hin & Hleast).
  exists holder. split; [exact Hf|]. split; [exact Hin|]. split.
  - intros c Hc. rewrite List.Forall_forall in Hfw.
    destruct (Hfw _ Hin) as [Hlh Hdh]. destruct (Hfw _ Hc) as [Hlc Hdc].
    assert (Hnh : get_id holder <> EmptyString)
      by (intros He; rewrite He in Hlh; simpl in Hlh; lia).
    assert (Hnc : get_id c <> EmptyString)
      by (intros He; rewrite He in Hlc; simpl in Hlc; lia).
    destruct (numeral_digits _ Hdh Hnh) as (zh & Hvh & Hph).
    destruct (numeral_digits _ Hdc Hnc) as (zc & Hvc & Hpc).
    exists zh, zc. split; [exact Hph|]. split; [exact Hpc|].
    eapply (leb_digits_le (get_id holder) (get_id c)); eauto. congruence.
  - intros hn f1 f2 f3 Hh Hd H1 H2 H3 Hu.
    rewrite (get_master_id_holder_run _ _ _ _ _ _ _ Hk Hz Hl Hne Hf), Hh, Hd.
    now rewrite (split_three_fields _ _ _ H1 H2 H3), Hu.
Qed.

Lemma get_master_id_selects_holder_witness :
  get_master_id (IdInt 1) (IdInt 10) "bs" world_three_contenders
  = (Ok (Success (DStr "bs1-10-1")), world_three_contenders).
Proof.
  destruct (get_master_id_selects_holder (IdInt 1) (IdInt 10) "bs"
              world_three_contenders
              (list_to_map
                 (("/ISD1-AD10/bs/lock",
                   mkZnode EmptyString
                     ["c7f1__lock__0000000003"; "a2d4__lock__0000000001";
                      "e9b0__lock__0000000007"])
                  :: [("/ISD1-AD10/bs/lock/c7f1__lock__0000000003",
                       mkZnode (lock_value "bs1-10-3") []);
                      ("/ISD1-AD10/bs/lock/a2d4__lock__0000000001",
                       mkZnode (lock_value "bs1-10-1") []);
                      ("/ISD1-AD10/bs/lock/e9b0__lock__0000000007",
                       mkZnode (lock_value "bs1-10-2") [])]))
              (mkZnode EmptyString
                 ["c7f1__lock__0000000003"; "a2d4__lock__0000000001";
                  "e9b0__lock__0000000007"])
              10%nat)
    as (holder & Hf & _ & _ & Hrun).
  - reflexivity.
  - reflexivity.
  - vm_compute; reflexivity.
  - discriminate.
  - lia.
  - repeat constructor; vm_compute; reflexivity.
  - assert (holder = "a2d4__lock__0000000001") as ->
      by (vm_compute in Hf; congruence).
    apply (Hrun (mkZnode (lock_value "bs1-10-1") []) "bs1-10-1" "127.0.0.1" "30040");
      vm_compute; reflexivity.
Defined.

(** C2, as stated, fails: the contender [n__10] is selected and the
    identity that it stores is returned, although the suffix of [n__9] is
    the smaller number; and a value of one field is not returned as the
    identity of the holder, the call raises. *)
Lemma get_master_id_not_numeric :
  In "n__9" ["n__10"; "n__9"] /\
  numeral_value (get_id "n__9") = Some 9 /\
  numeral_value (get_id "n__10") = Some 10 /\
  first_by_id ["n__10"; "n__9"] = Ok "n__10" /\
  get_master_id (IdInt 1) (IdInt 10) "bs" world_unpadded
  = (Ok (Success (DStr "bs1-10-2")), world_unpadded) /\
  split NUL "bs1-10-1" = ["bs1-10-1"] /\
  fst (get_master_id (IdInt 1) (IdInt 10) "bs" world_malformed_lock)
  = Raise ValueError.
Proof.
  split; [right; left; reflexivity|].
  repeat split; vm_compute; reflexivity.
Qed.

(** *** C1 *)

Section HandlerFaults.
Context `{Deployment}.

Lemma get_master_id_malformed_value isd_id ad_id server_type w tree n holder hn :
  known_server_type server_type = true -> zookeeper w = Some tree ->
  tree !! lock_path_of isd_id ad_id server_type = Some n ->
  zchildren n <> [] ->
  first_by_id (zchildren n) = Ok holder ->
  tree !! path_join (lock_path_of isd_id ad_id server_type) holder = Some hn ->
  length (split NUL (zdata hn)) <> 3%nat ->
  get_master_id isd_id ad_id server_type w = (Raise ValueError, w).
Proof.
  intros Hk Hz Hl Hne Hf Hh Hlen.
  rewrite (get_master_id_holder_run _ _ _ _ _ _ _ Hk Hz Hl Hne Hf), Hh.
  destruct (split NUL (zdata hn)) as [|f1 [|f2 [|f3 [|f4 l]]]];
    try reflexivity.
  now contradiction Hlen.
Qed.

(** The runs of the process controller. *)
Lemma get_process_info_run name w :
  get_process_info name w
  = match supervisor w with
    | None => (Raise ConnectionRefusedError, w)
    | Some l =>
        match find (fun p => String.eqb (full_name p) name) l with
        | None => (Raise (Fault "BAD_NAME"), w)
        | Some p => (Ok (Success (DInfo p)), w)
        end
    end.
Proof.
  unfold get_process_info, getProcessInfo, supervisor_call. run_monad.
  destruct (supervisor w) as [l|]; [|reflexivity].
  destruct (find _ l); reflexivity.
Qed.

Lemma get_process_state_run name w :
  get_process_state name w
  = match supervisor w with
    | None => (Raise ConnectionRefusedError, w)
    | Some l =>
        match find (fun p => String.eqb (full_name p) name) l with
        | None => (Raise (Fault "BAD_NAME"), w)
        | Some p => (Ok (Some (statename p)), w)
        end
    end.
Proof.
  unfold get_process_state. rewrite bind_run, get_process_info_run.
  destruct (supervisor w) as [l|]; [|reflexivity].
  destruct (find _ l); reflexivity.
Qed.

Lemma start_process_run name w :
  start_process name w
  = match supervisor w with
    | None => (Raise ConnectionRefusedError, w)
    | Some l =>
        match find (fun p => String.eqb (full_name p) name) l with
        | None => (Raise (Fault "BAD_NAME"), w)
        | Some p =>
            if active (statename p) then (Ok true, w)
            else
              match supervisor_start name l with
              | Ok r =>
                  (Ok (fst r),
                   mkWorld (fs w) (Some (snd r)) (zookeeper w)
                           (trace w ++ [EvStartProcess name]))
              | Raise e =>
                  (Raise e,
                   mkWorld (fs w) (Some l) (zookeeper w)
                           (trace w ++ [EvStartProcess name]))
              end
        end
    end.
Proof.
  unfold start_process. rewrite bind_run, get_process_state_run.
  destruct (supervisor w) as [l|] eqn:Hs; [|reflexivity].
  destruct (find _ l) as [p|]; [|reflexivity].
  unfold state_in_running_starting.
  destruct (active (statename p)); [reflexivity|].
  unfold startProcess, supervisor_call, set_supervisor. run_monad.
  rewrite Hs. world_proj.
  destruct (supervisor_start name l); world_proj; rewrite ?Hs; reflexivity.
Qed.

Lemma stop_process_run name w :
  stop_process name w
  = match supervisor w with
    | None => (Raise ConnectionRefusedError, w)
    | Some l =>
        match find (fun p => String.eqb (full_name p) name) l with
        | None => (Raise (Fault "BAD_NAME"), w)
        | Some p =>
            if active (statename p) then
              match supervisor_stop name l with
              | Ok r =>
                  (Ok (fst r),
                   mkWorld (fs w) (Some (snd r)) (zookeeper w)
                           (trace w ++ [EvStopProcess name]))
              | Raise e =>
                  (Raise e,
                   mkWorld (fs w) (Some l) (zookeeper w)
                           (trace w ++ [EvStopProcess name]))
              end
            else (Ok true, w)
        end
    end.
Proof.
  unfold stop_process. rewrite bind_run, get_process_state_run.
  destruct (supervisor w) as [l|] eqn:Hs; [|reflexivity].
  destruct (find _ l) as [p|]; [|reflexivity].
  unfold state_in_running_starting.
  destruct (active (statename p)); [|reflexivity]. cbn [negb].
  unfold stopProcess, supervisor_call, set_supervisor. run_monad.
  rewrite Hs. world_proj.
  destruct (supervisor_stop name l); world_proj; rewrite ?Hs; reflexivity.
Qed.

Lemma lookup_fault_raises name w e :
  lookup_fault name w e <-> get_process_info name w = (Raise e, w).
Proof.
  rewrite get_process_info_run. split.
  - intros [Hs|l Hs Hf]; rewrite Hs; [reflexivity|now rewrite Hf].
  - destruct (supervisor w) as [l|] eqn:Hs.
    + destruct (find _ l) eqn:Hf; intros [= <-]. now apply (lookup_unknown _ _ l).
    + intros [= <-]. now apply lookup_unreachable.
Qed.

Lemma start_fault_raises name w e :
  start_fault name w e <-> exists w', start_process name w = (Raise e, w').
Proof.
  rewrite start_process_run. split.
  - intros [e' [Hs|l Hs Hf]|l p e' Hs Hf Ha Hr].
    + rewrite Hs. eauto.
    + rewrite Hs, Hf. eauto.
    + rewrite Hs, Hf, Ha, Hr. eauto.
  - intros [w' Hr]. destruct (supervisor w) as [l|] eqn:Hs.
    + destruct (find _ l) as [p|] eqn:Hf.
      * destruct (active (statename p)) eqn:Ha; [discriminate|].
        destruct (supervisor_start name l) eqn:Hst; inversion Hr; subst.
        now apply (start_refused _ _ l p).
      * inversion Hr; subst. apply start_lookup. now apply (lookup_unknown _ _ l).
    + inversion Hr; subst. apply start_lookup. now apply lookup_unreachable.
Qed.

Lemma stop_fault_raises name w e :
  stop_fault name w e <-> exists w', stop_process name w = (Raise e, w').
Proof.
  rewrite stop_process_run. split.
  - intros [e' [Hs|l Hs Hf]|l p e' Hs Hf Ha Hr].
    + rewrite Hs. eauto.
    + rewrite Hs, Hf. eauto.
    + rewrite Hs, Hf, Ha, Hr. eauto.
  - intros [w' Hr]. destruct (supervisor w) as [l|] eqn:Hs.
    + destruct (find _ l) as [p|] eqn:Hf.
      * destruct (active (statename p)) eqn:Ha; [|discriminate].
        destruct (supervisor_stop name l) eqn:Hst; inversion Hr; subst.
        now apply (stop_refused _ _ l p).
      * inversion Hr; subst. apply stop_lookup. now apply (lookup_unknown _ _ l).
    + inversion Hr; subst. apply stop_lookup. now apply lookup_unreachable.
Qed.

Lemma after_stop_returns name w w1 :
  after_stop name w w1 <-> exists stopped, stop_process name w = (Ok stopped, w1).
Proof.
  rewrite stop_process_run. split.
  - intros [l p Hs Hf Ha|l p r Hs Hf Ha Hr].
    + rewrite Hs, Hf, Ha. eauto.
    + rewrite Hs, Hf, Ha, Hr. eauto.
  - intros [b Hr]. destruct (supervisor w) as [l|] eqn:Hs; [|discriminate].
    destruct (find _ l) as [p|] eqn:Hf; [|discriminate].
    destruct (active (statename p)) eqn:Ha.
    + destruct (supervisor_stop name l) as [r|] eqn:Hst; inversion Hr; subst.
      now apply (stop_done _ _ l p).
    + inversion Hr; subst. now apply (stop_idle _ _ l p).
Qed.

(** [control_process] returns a failure envelope for an unknown command
    only, and raises what the process controller raises. *)
Lemma control_process_outcome isd_id ad_id process_name command w :
  (forall errors w',
     control_process isd_id ad_id process_name command w
     = (Ok (Failure errors), w')
     <-> (~ In command ["START"; "STOP"; "RESTART"] /\
          errors = ["Invalid command"]) /\ w' = w) /\
  (forall e,
     fault (ControlProcess isd_id ad_id process_name command) w e
     <-> exists w',
           control_process isd_id ad_id process_name command w = (Raise e, w')).
Proof.
  set (full := get_full_ad_name isd_id ad_id +:+ ":" +:+ process_name).
  assert (Hno : forall (r : result bool * World) errors w',
             match r with
             | (Ok res, s') => (Ok (response_success (DBool res)), s')
             | (Raise e, s') => (Raise e, s')
             end <> (Ok (Failure errors), w')).
  { intros [[res|e] s'] errors w'; discriminate. }
  assert (Hraise : forall (r : result bool * World) e,
             (exists w', match r with
                         | (Ok res, s') => (Ok (response_success (DBool res)), s')
                         | (Raise e, s') => (Raise e, s')
                         end = (Raise e, w'))
             <-> exists w', r = (Raise e, w')).
  { intros [[res|e0] s'] e; split; intros [w' Hr]; inversion Hr; subst; eauto. }
  destruct (String.eqb_spec command "START") as [->|N1].
  { assert (Hrun : control_process isd_id ad_id process_name "START" w
                   = match start_process full w with
                     | (Ok res, s') => (Ok (response_success (DBool res)), s')
                     | (Raise e, s') => (Raise e, s')
                     end) by reflexivity.
    rewrite Hrun. split.
    - intros errors w'. split; [intros Hr; now apply Hno in Hr|].
      intros [[Hn _] _]. exfalso. apply Hn. simpl; auto.
    - intros e. rewrite Hraise, <- start_fault_raises. split.
      + intros Hf. inversion Hf; subst; assumption.
      + apply fault_start. }
  destruct (String.eqb_spec command "STOP") as [->|N2].
  { assert (Hrun : control_process isd_id ad_id process_name "STOP" w
                   = match stop_process full w with
                     | (Ok res, s') => (Ok (response_success (DBool res)), s')
                     | (Raise e, s') => (Raise e, s')
                     end) by reflexivity.
    rewrite Hrun. split.
    - intros errors w'. split; [intros Hr; now apply Hno in Hr|].
      intros [[Hn _] _]. exfalso. apply Hn. simpl; auto.
    - intros e. rewrite Hraise, <- stop_fault_raises. split.
      + intros Hf. inversion Hf; subst; assumption.
      + apply fault_stop. }
  destruct (String.eqb_spec command "RESTART") as [->|N3].
  { assert (Hrun : control_process isd_id ad_id process_name "RESTART" w
                   = match stop_process full w with
                     | (Ok _, w1) =>
                         match start_process full w1 with
                         | (Ok res, s') =>
                             (Ok (response_success (DBool res)), s')
                         | (Raise e, s') => (Raise e, s')
                         end
                     | (Raise e, s') => (Raise e, s')
                     end) by reflexivity.
    rewrite Hrun. split.
    - intros errors w'. split.
      + intros Hr. destruct (stop_process full w) as [[b|e] w1];
          [now apply Hno in Hr|discriminate].
      + intros [[Hn _] _]. exfalso. apply Hn. simpl; auto.
    - intros e. split.
      + intros Hf. inversion Hf as [| | | | | |? ? ? ? ? Hst|? ? ? ? w1 ? Has Hst| | | | | | | |];
          subst.
        * apply stop_fault_raises in Hst as [w' Hst].
          fold full in Hst. rewrite Hst. eauto.
        * apply after_stop_returns in Has as [b Has].
          apply start_fault_raises in Hst as [w' Hst].
          fold full in Has, Hst. rewrite Has, Hst. eauto.
      + intros [w' Hr].
        destruct (stop_process full w) as [[b|e0] w1] eqn:Hsp.
        * apply (fault_restart_start _ _ _ _ w1).
          -- apply after_stop_returns. eauto.
          -- apply start_fault_raises.
             apply (proj1 (Hraise (start_process full w1) e)). eauto.
        * inversion Hr; subst. apply fault_restart_stop.
          apply stop_fault_raises. eauto. }
  assert (Hn : ~ In command ["START"; "STOP"; "RESTART"])
    by (simpl; intuition congruence).
  rewrite (control_process_invalid _ _ _ _ _ Hn). split.
  - intros errors w'. split.
    + intros [= <- <-]. auto.
    + intros [[_ ->] ->]. reflexivity.
  - intros e. split.
    + intros Hf. inversion Hf; subst; congruence.
    + intros [w' Hr]. discriminate.
Qed.

Lemma send_update_outcome isd_id ad_id p w :
  (forall errors w',
     send_update isd_id ad_id p w = (Ok (Failure errors), w')
     <-> ((exists raw_data, b64decode (data p) = Ok raw_data /\
                            sha1_hexdigest raw_data <> digest p) /\
          errors = ["Hash value does not match"]) /\ w' = w) /\
  (forall e,
     fault (SendUpdate isd_id ad_id p) w e
     <-> exists w', send_update isd_id ad_id p w = (Raise e, w')).
Proof.
  destruct (b64decode (data p)) as [raw_data|e0] eqn:Hd.
  2:{ rewrite (send_update_undecodable _ _ _ _ _ Hd). split.
      - intros errors w'. split; [discriminate|].
        intros [[(raw & Hr & _) _] _]. discriminate.
      - intros e. split.
        + intros Hf. inversion Hf; subst; try congruence.
          replace e with e0 by congruence. eauto.
        + intros [w' [= <- <-]]. now apply fault_decode. }
  destruct (String.eqb_spec (sha1_hexdigest raw_data) (digest p)) as [He|He].
  2:{ rewrite (send_update_mismatch _ _ _ _ _ Hd He). split.
      - intros errors w'. split.
        + intros [= <- <-]. eauto.
        + intros [[_ ->] ->]. reflexivity.
      - intros e. split.
        + intros Hf. inversion Hf; subst; congruence.
        + intros [w' Hr]. discriminate. }
  rewrite (send_update_verified _ _ _ _ _ Hd He). unfold verified_run. split.
  - intros errors w'. split.
    + intros Hr. destruct (staging w) as [[[]|e] w1]; [|discriminate].
      destruct (is_dir (fs w1) UPDATE_DIR_PATH); [|discriminate]. cbn [negb] in Hr.
      destruct (open_for_write (fs w1) (out_path p)); [|discriminate].
      destruct (open_for_write _ updater_log); discriminate.
    + intros [[(raw & Hr & Hne) _] _]. congruence.
  - intros e. split.
    + intros Hf.
      inversion Hf as [| | | | | | | |? ? ? ? ? Hd'
                       |? ? ? ? raw w1 ? Hd' He' Hst
                       |? ? ? ? raw w1 Hd' He' Hst Hdir
                       |? ? ? ? raw w1 ? Hd' He' Hst Hdir Ho
                       |? ? ? ? raw w1 ? Hd' He' Hst Hdir Hc Ho| | |]; subst.
      * congruence.
      * rewrite Hst. eauto.
      * rewrite Hst, Hdir. eauto.
      * rewrite Hst, Hdir, Ho. eauto.
      * assert (raw = raw_data) by congruence. subst raw.
        rewrite Hst, Hdir. cbn [negb]. unfold can_open in Hc.
        destruct (open_for_write (fs w1) (out_path p)); [|discriminate].
        rewrite Ho. eauto.
    + intros [w' Hr]. destruct (staging w) as [[[]|e1] w1] eqn:Hst.
      2:{ inversion Hr; subst. eapply fault_staging; eassumption. }
      destruct (is_dir (fs w1) UPDATE_DIR_PATH) eqn:Hdir; cbn [negb] in Hr.
      2:{ inversion Hr; subst. eapply fault_assert; eassumption. }
      destruct (open_for_write (fs w1) (out_path p)) as [c|e1] eqn:Ho.
      2:{ inversion Hr; subst. eapply fault_archive; eassumption. }
      destruct (open_for_write _ updater_log) as [c'|e1] eqn:Hl;
        inversion Hr; subst.
      eapply fault_log; try eassumption.
      unfold can_open. now rewrite Ho.
Qed.

Lemma get_master_id_outcome isd_id ad_id server_type w :
  (forall errors w',
     get_master_id isd_id ad_id server_type w = (Ok (Failure errors), w')
     <-> tested (GetMasterId isd_id ad_id server_type) w errors /\ w' = w) /\
  (forall e,
     fault (GetMasterId isd_id ad_id server_type) w e
     <-> exists w', get_master_id isd_id ad_id server_type w = (Raise e, w')).
Proof.
  cbn [tested].
  destruct (known_server_type server_type) eqn:Hk.
  2:{ rewrite (get_master_id_invalid_type _ _ _ _ Hk). split.
      - intros errors w'. split.
        + intros [= <- <-]. auto.
        + intros [[[_ ->]|[Hc _]] ->]; [reflexivity|discriminate].
      - intros e. split.
        + intros Hf. inversion Hf; subst; congruence.
        + intros [w' Hr]. discriminate. }
  destruct (zookeeper w) as [tree|] eqn:Hz.
  2:{ rewrite (get_master_id_no_session _ _ _ _ Hk Hz). split.
      - intros errors w'. split; [discriminate|].
        intros [[[Hc _]|[_ (tree & Ht & _)]] _]; discriminate.
      - intros e. split.
        + intros Hf. inversion Hf; subst; try congruence. eauto.
        + intros [w' [= <- <-]]. now apply fault_session. }
  destruct (tree !! lock_path_of isd_id ad_id server_type) as [n|] eqn:Hl.
  2:{ rewrite (get_master_id_no_lock_path _ _ _ _ _ Hk Hz Hl). split.
      - intros errors w'. split.
        + intros [= <- <-]. split; [|reflexivity]. right. split; [reflexivity|].
          exists tree. split; [reflexivity|]. now rewrite Hl.
        + intros [[[Hc _]|[_ (t & Ht & Hm)]] ->]; [discriminate|].
          injection Ht as <-. rewrite Hl in Hm. now subst errors.
      - intros e. split.
        + intros Hf. inversion Hf; subst; congruence.
        + intros [w' Hr]. discriminate. }
  destruct (zchildren n) as [|c0 cs] eqn:Hc.
  { rewrite (get_master_id_no_contenders _ _ _ _ _ _ Hk Hz Hl Hc). split.
    - intros errors w'. split.
      + intros [= <- <-]. split; [|reflexivity]. right. split; [reflexivity|].
        exists tree. split; [reflexivity|]. rewrite Hl. left. auto.
      + intros [[[Hx _]|[_ (t & Ht & Hm)]] ->]; [discriminate|].
        injection Ht as <-. rewrite Hl in Hm.
        destruct Hm as [[_ ->]|(holder & Hne & _)]; [reflexivity|congruence].
    - intros e. split.
      + intros Hf. inversion Hf; subst; congruence.
      + intros [w' Hr]. discriminate. }
  assert (Hne : zchildren n <> []) by congruence.
  destruct (first_by_id_least (zchildren n) Hne) as (holder & Hf & _ & _).
  rewrite (get_master_id_holder_run _ _ _ _ _ _ _ Hk Hz Hl Hne Hf).
  clear Hc c0 cs.
  destruct (tree !! path_join (lock_path_of isd_id ad_id server_type) holder)
    as [hn|] eqn:Hh.
  2:{ split.
      - intros errors w'. split.
        + intros [= <- <-]. split; [|reflexivity]. right. split; [reflexivity|].
          exists tree. split; [reflexivity|]. rewrite Hl. right.
          exists holder. auto.
        + intros [[[Hx _]|[_ (t & Ht & Hm)]] ->]; [discriminate|].
          injection Ht as <-. rewrite Hl in Hm.
          destruct Hm as [[Hm _]|(h & _ & _ & _ & ->)];
            [congruence|reflexivity].
      - intros e. split.
        + intros Hx. inversion Hx; subst; congruence.
        + intros [w' Hr]. discriminate. }
  split.
  - intros errors w'. split.
    + intros Hr.
      destruct (split NUL (zdata hn)) as [|f1 [|f2 [|f3 [|f4 l]]]];
        try discriminate.
      destruct (str_utf8 f1); discriminate.
    + intros [[[Hx _]|[_ (t & Ht & Hm)]] _]; [discriminate|].
      injection Ht as <-. rewrite Hl in Hm.
      destruct Hm as [[Hm _]|(h & _ & Hh' & Hnone & _)]; congruence.
  - intros e. split.
    + intros Hx.
      inversion Hx as [| | | | | | | | | | | | |
                       |? ? ? ? t n' h hn' _ Hz' Hl' _ Hf' Hh' Hlen
                       |? ? ? ? t n' h hn' sid f2 f3 ? _ Hz' Hl' _ Hf' Hh' Hsp
                          Hu]; subst.
      * congruence.
      * assert (t = tree) by congruence. subst t.
        assert (n' = n) by congruence. subst n'.
        assert (h = holder) by congruence. subst h.
        assert (hn' = hn) by congruence. subst hn'.
        destruct (split NUL (zdata hn)) as [|f1 [|f2 [|f3 [|f4 l]]]];
          eauto. now contradiction Hlen.
      * assert (t = tree) by congruence. subst t.
        assert (n' = n) by congruence. subst n'.
        assert (h = holder) by congruence. subst h.
        assert (hn' = hn) by congruence. subst hn'.
        rewrite Hsp, Hu. eauto.
    + intros [w' Hr].
      destruct (split NUL (zdata hn)) as [|f1 [|f2 [|f3 [|f4 l]]]] eqn:Hsp;
        try (inversion Hr; subst;
             eapply fault_lock_value; try eassumption;
             rewrite Hsp; simpl; lia).
      destruct (str_utf8 f1) as [sid|e1] eqn:Hu; inversion Hr; subst.
      eapply fault_identity; eassumption.
Qed.

(** C1 (amended): a handler returns a failure envelope exactly for the
    conditions that it tests itself ([tested]), and then leaves the node
    as it was: an absent topology file ([get_topology],
    [update_topology]), an unknown command ([control_process]), a digest
    that does not match ([send_update]), an unknown server type, an empty
    list of contenders and a lock path or a holder node that is absent
    ([get_master_id]).  Every other fault ([fault]) leaves the handler as
    the exception that was raised, and a handler raises for no other
    reason: a topology file that cannot be read as text, a fault of the
    generation of the derived files, a supervisor that cannot be reached,
    does not know the process or refuses the request, a body that base64
    cannot decode, a staging directory, an archive or an updater log that
    cannot be made or opened, a coordination service that cannot be
    reached, a lock value that does not split into exactly three
    NUL-delimited fields or whose first field is not UTF-8. *)
Theorem handler_faults (c : call) (w : World) :
  (forall errors w',
     dispatch c w = (Ok (Failure errors), w')
     <-> tested c w errors /\ w' = w) /\
  (forall e, fault c w e <-> exists w', dispatch c w = (Raise e, w')).
Proof.
  destruct c as [isd_id ad_id|name|isd_id ad_id process_name command
                 |isd_id ad_id|isd_id ad_id p|isd_id ad_id topology
                 |isd_id ad_id server_type]; cbn [dispatch].
  - (* get_topology *)
    cbn [tested].
    set (path := get_topo_path (IdStr (str_of_id isd_id))
                               (IdStr (str_of_id ad_id))).
    destruct (is_file (fs w) path) eqn:Hf.
    + destruct (is_file_inv _ _ Hf) as (_ & _ & c & Hc).
      rewrite (get_topology_file _ _ _ c Hf Hc). split.
      * intros errors w'. split.
        -- destruct (text_of_bytes c); discriminate.
        -- intros [[Hx _] _]. discriminate.
      * intros e. split.
        -- intros Hx. inversion Hx as [? ? ? d ? _ Hd Ht| | | | | | | | | | | | | | |];
             subst. unfold path in *.
           assert (d = c) by congruence. subst d. rewrite Ht. eauto.
        -- intros [w' Hr]. destruct (text_of_bytes c) eqn:Ht;
             inversion Hr; subst. eapply fault_read; eassumption.
    + rewrite (get_topology_no_file _ _ _ Hf). split.
      * intros errors w'. split.
        -- intros [= <- <-]. auto.
        -- intros [[_ ->] ->]. reflexivity.
      * intros e. split.
        -- intros Hx. inversion Hx; subst. unfold path in *. congruence.
        -- intros [w' Hr]. discriminate.
  - (* get_process_info *)
    cbn [tested]. split.
    + intros errors w'. split; [|intros [[] _]].
      rewrite get_process_info_run.
      destruct (supervisor w) as [l|]; [|discriminate].
      destruct (find _ l); discriminate.
    + intros e. split.
      * intros Hx. inversion Hx; subst. exists w. now apply lookup_fault_raises.
      * intros [w' Hr]. apply fault_process_info. apply lookup_fault_raises.
        rewrite get_process_info_run in Hr |- *.
        destruct (supervisor w) as [l|]; [|inversion Hr; reflexivity].
        destruct (find _ l); inversion Hr; reflexivity.
  - (* control_process *)
    apply control_process_outcome.
  - (* get_ad_info *)
    cbn [tested].
    assert (Hrun : get_ad_info isd_id ad_id w
                   = match supervisor w with
                     | Some l =>
                         (Ok (Success
                                (DInfoList
                                   (List.filter
                                      (fun x => String.eqb (group x)
                                                  (get_full_ad_name isd_id ad_id))
                                      l))), w)
                     | None => (Raise ConnectionRefusedError, w)
                     end).
    { unfold get_ad_info, getAllProcessInfo, supervisor_call. run_monad.
      destruct (supervisor w); reflexivity. }
    rewrite Hrun. split.
    + intros errors w'. split; [|intros [[] _]].
      destruct (supervisor w); discriminate.
    + intros e. split.
      * intros Hx. inversion Hx as [| |? ? ? Hs| | | | | | | | | | | | |]; subst.
        rewrite Hs. eauto.
      * intros [w' Hr]. destruct (supervisor w) eqn:Hs; inversion Hr; subst.
        now apply fault_ad_info.
  - (* send_update *)
    apply send_update_outcome.
  - (* update_topology *)
    cbn [tested].
    destruct (is_file (fs w) (get_topo_path isd_id ad_id)) eqn:Hf.
    + rewrite (update_topology_file _ _ _ _ Hf). split.
      * intros errors w'. split.
        -- destruct (write_derivatives _ _); discriminate.
        -- intros [[Hx _] _]. discriminate.
      * intros e. split.
        -- intros Hx.
           inversion Hx as [|? ? ? ? ? _ Hd| | | | | | | | | | | | | |]; subst.
           rewrite Hd. eauto.
        -- intros [w' Hr]. destruct (write_derivatives _ _) eqn:Hd;
             inversion Hr; subst. now apply fault_derivatives.
    + rewrite (update_topology_no_file _ _ _ _ Hf). split.
      * intros errors w'. split.
        -- intros [= <- <-]. auto.
        -- intros [[_ ->] ->]. reflexivity.
      * intros e. split.
        -- intros Hx. inversion Hx; subst. congruence.
        -- intros [w' Hr]. discriminate.
  - (* get_master_id *)
    apply get_master_id_outcome.
Qed.
End HandlerFaults.

(** C1, as stated, fails: three handlers let an exception escape. *)
Lemma handlers_raise :
  get_process_info "ad1-10:bs1-10-1" empty_world
  = (Raise (Fault "BAD_NAME"), empty_world) /\
  send_update (IdInt 1) (IdInt 10) payload_malformed empty_world
  = (Raise BinasciiError, empty_world) /\
  get_master_id (IdInt 1) (IdInt 10) "bs" world_malformed_lock
  = (Raise ValueError, world_malformed_lock).
Proof. repeat split; vm_compute; reflexivity. Qed.

Lemma handler_faults_witness :
  (dispatch (GetMasterId (IdInt 1) (IdInt 10) "bs") empty_world
   = (Ok (Failure ["No lock data found"]), empty_world)) /\
  (exists w',
     dispatch (SendUpdate (IdInt 1) (IdInt 10) payload_malformed) empty_world
     = (Raise BinasciiError, w')) /\
  (fault (GetProcessInfo "ad1-10:bs1-10-1") empty_world (Fault "BAD_NAME")).
Proof.
  split; [|split].
  - apply (proj1 (handler_faults (GetMasterId (IdInt 1) (IdInt 10) "bs")
                    empty_world)).
    split; [|reflexivity]. right. split; [reflexivity|].
    exists ∅. split; reflexivity.
  - apply (proj2 (handler_faults
                    (SendUpdate (IdInt 1) (IdInt 10) payload_malformed)
                    empty_world)).
    apply fault_decode. vm_compute; reflexivity.
  - apply (proj2 (handler_faults (GetProcessInfo "ad1-10:bs1-10-1")
                    empty_world)).
    exists empty_world. vm_compute; reflexivity.
Defined.

(** ** [AD.fill_from_topology] *)

Lemma filter_none_existsb {A} (f : A -> bool) (l : list A) :
  existsb f l = false -> List.filter f l = [].
Proof.
  induction l as [|a l IH]; simpl; [reflexivity|].
  intros Hf. apply orb_false_iff in Hf as [Ha Hl]. rewrite Ha. auto.
Qed.

Lemma add_router_unresolved router st :
  resolves (snd st) router = false ->
  add_router router st = (Raise DoesNotExist, st).
Proof.
  destruct st as [self db]. unfold resolves; simpl. intros Hr.
  unfold add_router, AD_objects_get. run_monad.
  now rewrite (filter_none_existsb _ _ Hr).
Qed.

Lemma add_router_ad_table router st :
  ad_table (snd (snd (add_router router st))) = ad_table (snd st).
Proof.
  destruct st as [self db].
  unfold add_router, AD_objects_get, save_router. run_monad.
  destruct (List.filter _ (ad_table db)) as [|a [|b l]]; cbn [snd]; try reflexivity.
  destruct (router_conflict _ _); reflexivity.
Qed.

Lemma for_each_add_router_ad_table routers st :
  ad_table (snd (snd (for_each routers add_router st))) = ad_table (snd st).
Proof.
  revert st. induction routers as [|r routers IH]; intros st; [reflexivity|].
  cbn [for_each]. unfold bind.
  pose proof (add_router_ad_table r st) as Hr.
  destruct (add_router r st) as [[[]|e] st1]; cbn [snd] in *.
  - now rewrite IH.
  - exact Hr.
Qed.

Lemma for_each_app {S A} (l1 l2 : list A) (body : A -> M S unit) (s : S) :
  for_each (l1 ++ l2) body s
  = match for_each l1 body s with
    | (Ok _, s') => for_each l2 body s'
    | (Raise e, s') => (Raise e, s')
    end.
Proof.
  revert s. induction l1 as [|a l1 IH]; intros s; [reflexivity|].
  cbn [for_each app]. unfold bind.
  destruct (body a s) as [[[]|e] s1]; [apply IH|reflexivity].
Qed.

Lemma fill_from_topology_unfold topology clear st :
  fill_from_topology topology clear st
  = except_pass is_IntegrityError (add_elements topology)
      (prepared topology clear st).
Proof.
  destruct st as [self db]. unfold fill_from_topology, prepared.
  unfold bind at 1 2. unfold modify, ret. destruct clear; reflexivity.
Qed.

(** *** C8 *)

(** C8 (amended): the only exception that [fill_from_topology] takes in
    is [IntegrityError], which ends the apply where it stands, without a
    crash.  A router whose neighbor reference does not resolve against a
    domain record is fatal: when the routers before it were added, the
    call raises [DoesNotExist] at this router, and neither the routers
    after it nor any server are added. *)
Theorem fill_from_topology_unresolved (topology : TopologyObj) (clear : bool)
    (st : ADrow * DB) :
  fst (fill_from_topology topology clear st) <> Raise IntegrityError
  /\
  (forall st',
     add_elements topology (prepared topology clear st)
     = (Raise IntegrityError, st') ->
     fill_from_topology topology clear st = (Ok tt, st'))
  /\
  (forall pre router post st',
     get_all_edge_routers topology = (pre ++ router :: post)%list ->
     resolves (snd st) router = false ->
     for_each pre add_router (prepared topology clear st) = (Ok tt, st') ->
     fill_from_topology topology clear st = (Raise DoesNotExist, st')).
Proof.
  rewrite fill_from_topology_unfold. split; [|split].
  - unfold except_pass.
    destruct (add_elements topology (prepared topology clear st))
      as [[[]|e] s]; cbn [fst]; [discriminate|].
    destruct e; cbn [is_IntegrityError fst]; discriminate.
  - intros st' Hi. unfold except_pass. now rewrite Hi.
  - intros pre router post st' Hr Hu Hpre.
    assert (Ht : ad_table (snd st') = ad_table (snd st)).
    { pose proof (for_each_add_router_ad_table pre (prepared topology clear st))
        as Hp.
      rewrite Hpre in Hp. cbn [snd] in Hp. rewrite Hp.
      unfold prepared; cbn [snd]. now destruct clear. }
    assert (Hu' : resolves (snd st') router = false).
    { unfold resolves in *. now rewrite Ht. }
    unfold except_pass, add_elements. unfold bind at 1.
    rewrite Hr, for_each_app, Hpre. cbn [for_each]. unfold bind at 1.
    now rewrite (add_router_unresolved router st' Hu').
Qed.

(** C8, as stated, fails: the apply raises at the router whose neighbor
    has no record; the first router has been added, the second router and
    the beacon server have not. *)
Lemma fill_from_topology_raises :
  fill_from_topology sample_remote_topology true (mkAD 10 1 false, sample_db)
  = (Raise DoesNotExist,
     (mkAD 10 1 false,
      mkDB [mkAD 10 1 false; mkAD 11 1 true]
           [mkRouterWeb "10.0.0.1" 10 "1" 11 "PARENT" "10.0.0.2" "10.0.0.3" 11]
           [] [] [] [])).
Proof. vm_compute. reflexivity. Qed.

Lemma fill_from_topology_unresolved_witness :
  fill_from_topology sample_remote_topology true (mkAD 10 1 false, sample_db)
  = (Raise DoesNotExist,
     (mkAD 10 1 false,
      mkDB [mkAD 10 1 false; mkAD 11 1 true]
           [mkRouterWeb "10.0.0.1" 10 "1" 11 "PARENT" "10.0.0.2" "10.0.0.3" 11]
           [] [] [] []))
  /\
  fill_from_topology sample_twin_topology true (mkAD 10 1 false, sample_db)
  = (Ok tt,
     (mkAD 10 1 false,
      mkDB [mkAD 10 1 false; mkAD 11 1 true] []
           [] [] [mkServerWeb "10.0.2.1" 10 "1"] [])).
Proof.
  split.
  2:{ apply (proj1 (proj2 (fill_from_topology_unresolved sample_twin_topology
                             true (mkAD 10 1 false, sample_db)))).
      vm_compute; reflexivity. }
  apply (proj2 (proj2 (fill_from_topology_unresolved sample_remote_topology true
                  (mkAD 10 1 false, sample_db)))
           [mkRouterObj "10.0.0.1" "1"
              (mkInterfaceObj 11 1 "PARENT" "10.0.0.2" "10.0.0.3" 11)]
           (mkRouterObj "10.0.0.4" "2"
              (mkInterfaceObj 99 1 "CHILD" "10.0.0.5" "10.0.0.6" 99))
           []).
  - reflexivity.
  - vm_compute; reflexivity.
  - vm_compute; reflexivity.
Defined.


(* ================================================================== *)
(** * Further properties of the code *)

(** ** The process controller of the daemon *)

Lemma get_process_state_cases full_process_name w :
  get_process_state full_process_name w
  = match supervisor w with
    | None => (Raise ConnectionRefusedError, w)
    | Some l =>
        match find (fun p => String.eqb (full_name p) full_process_name) l with
        | Some p => (Ok (Some (statename p)), w)
        | None => (Raise (Fault "BAD_NAME"), w)
        end
    end.
Proof.
  unfold get_process_state, get_process_info, getProcessInfo, supervisor_call.
  run_monad. destruct (supervisor w) as [l|]; [|reflexivity].
  destruct (find _ l); reflexivity.
Qed.

(** X1: [get_process_state] never returns [None]: when it returns, the
    state is that of the process that the supervisor knows under this
    name and the node is as before; its [else] branch cannot be reached,
    for [get_process_info] has no failure envelope and a fault of the
    supervisor leaves it as an exception. *)
Theorem get_process_state_known (full_process_name : string) (w w' : World)
    (st : option string) :
  get_process_state full_process_name w = (Ok st, w') ->
  w' = w /\
  exists l p,
    supervisor w = Some l /\
    find (fun p => String.eqb (full_name p) full_process_name) l = Some p /\
    st = Some (statename p).
Proof.
  rewrite get_process_state_cases.
  destruct (supervisor w) as [l|]; [|discriminate].
  destruct (find _ l) as [p|] eqn:Hf; [|discriminate].
  intros [= <- <-]. split; [reflexivity|]. now exists l, p.
Qed.

Lemma get_process_state_known_witness :
  get_process_state "ad1-10:bs1-10-1" world_two_processes
  = (Ok (Some "RUNNING"), world_two_processes) /\
  exists l p,
    supervisor world_two_processes = Some l /\
    find (fun p => String.eqb (full_name p) "ad1-10:bs1-10-1") l = Some p /\
    Some "RUNNING" = Some (statename p).
Proof.
  assert (Hr : get_process_state "ad1-10:bs1-10-1" world_two_processes
               = (Ok (Some "RUNNING"), world_two_processes))
    by (vm_compute; reflexivity).
  split; [exact Hr|].
  exact (proj2 (get_process_state_known _ _ _ _ Hr)).
Defined.

Section ProcessController.
Context `{Deployment}.

End ProcessController.


Lemma find_in_some {A} (f : A -> bool) (l : list A) (a : A) :
  In a l -> f a = true -> exists b, find f l = Some b /\ f b = true /\ In b l.
Proof.
  induction l as [|x l IH]; intros Hin Hf; [contradiction|].
  simpl. destruct (f x) eqn:Hx.
  - exists x. auto with datatypes.
  - destruct Hin as [->|Hin]; [congruence|].
    destruct (IH Hin Hf) as (b & Hb & Hfb & Hbl). exists b. auto with datatypes.
Qed.

(** X3: [get_ad_info] lists exactly the processes of the supervisor whose
    group is the full name [ad<isd>-<ad>] of the domain, and leaves the
    node as it was; every process that it lists can be looked up by
    [get_process_info] under [<group>:<name>]. *)
Theorem get_ad_info_lists_group (isd_id ad_id : pyid) (w : World)
    (l : list procinfo) :
  supervisor w = Some l ->
  exists infos,
    get_ad_info isd_id ad_id w = (Ok (Success (DInfoList infos)), w) /\
    (forall p, In p infos <->
               In p l /\ group p = get_full_ad_name isd_id ad_id) /\
    (forall p, In p infos ->
       exists p',
         get_process_info (full_name p) w = (Ok (Success (DInfo p')), w) /\
         full_name p' = full_name p /\ In p' l).
Proof.
  intros Hs.
  exists (List.filter (fun x => String.eqb (group x) (get_full_ad_name isd_id ad_id)) l).
  split; [|split].
  - unfold get_ad_info, getAllProcessInfo, supervisor_call. run_monad.
    now rewrite Hs.
  - intros p. rewrite filter_In, String.eqb_eq. reflexivity.
  - intros p Hp. apply filter_In in Hp as [Hp _].
    destruct (find_in_some (fun q => String.eqb (full_name q) (full_name p)) l p Hp
                (String.eqb_refl _)) as (p' & Hf & He & Hl).
    exists p'. split; [|split; [now apply String.eqb_eq|exact Hl]].
    unfold get_process_info, getProcessInfo, supervisor_call. run_monad.
    now rewrite Hs, Hf.
Qed.

Lemma get_ad_info_lists_group_witness :
  get_ad_info (IdInt 1) (IdInt 10) world_two_processes
  = (Ok (Success (DInfoList [mkProc "ad1-10" "bs1-10-1" "RUNNING";
                             mkProc "ad1-10" "ps1-10-1" "STOPPED"])),
     world_two_processes).
Proof.
  destruct (get_ad_info_lists_group (IdInt 1) (IdInt 10) world_two_processes _
              eq_refl) as (infos & Hg & _).
  rewrite Hg. vm_compute in Hg. congruence.
Defined.

(** ** The topology file *)

Section TopologyFile.
Context `{Deployment}.

(** X4: a topology that [update_topology] has written is what
    [get_topology] returns next (for identifiers sent as strings, as the
    web panel sends them), provided the generation of the derived files
    leaves the topology file alone. *)
Theorem update_then_get_topology (isd_id ad_id : string) (topology : Topology)
    (w : World) (f' : gmap string node) :
  let topo_path := get_topo_path (IdStr isd_id) (IdStr ad_id) in
  is_file (fs w) topo_path = true ->
  write_derivatives topology
    (<[topo_path := File (json_dump topology)]> (fs w)) = Ok f' ->
  f' !! topo_path = Some (File (json_dump topology)) ->
  exists w1,
    update_topology (IdStr isd_id) (IdStr ad_id) topology w
    = (Ok (Success (DStr "Topology file is successfully updated")), w1) /\
    get_topology (IdStr isd_id) (IdStr ad_id) w1
    = (Ok (Success (DStr (json_dump topology))), w1).
Proof.
  intros topo_path Hf Hd Hk. eexists. split.
  - rewrite (update_topology_file _ _ _ _ Hf). fold topo_path.
    rewrite Hd. reflexivity.
  - destruct (is_file_inv _ _ Hf) as (Hs & Hn & _).
    rewrite (get_topology_file (IdStr isd_id) (IdStr ad_id) _
               (json_dump topology)).
    + now rewrite (ascii_text_read _ (json_dump_text topology)).
    + cbn [str_of_id fs]. fold topo_path. unfold is_file.
      now rewrite Hs, Hn, Hk.
    + exact Hk.
Qed.
End TopologyFile.

Lemma update_then_get_topology_witness :
  exists w1,
    update_topology (IdStr "1") (IdStr "10") sample_topology world_with_topology
    = (Ok (Success (DStr "Topology file is successfully updated")), w1) /\
    get_topology (IdStr "1") (IdStr "10") w1
    = (Ok (Success (DStr (json_dump sample_topology))), w1).
Proof.
  apply (update_then_get_topology "1" "10" sample_topology world_with_topology
           (<[sample_topo_path := File (json_dump sample_topology)]>
              (fs world_with_topology))).
  - vm_compute; reflexivity.
  - reflexivity.
  - vm_compute; reflexivity.
Defined.

(** ** More on [send_update] *)

Section SendUpdateMore.
Context `{Deployment}.

Lemma send_update_cases isd_id ad_id p w :
  send_update isd_id ad_id p w
  = match b64decode (data p) with
    | Raise e => (Raise e, w)
    | Ok raw_data =>
        if String.eqb (sha1_hexdigest raw_data) (digest p)
        then verified_run p raw_data w
        else (Ok (Failure ["Hash value does not match"]), w)
    end.
Proof.
  destruct (b64decode (data p)) as [raw_data|e] eqn:Hd.
  - destruct (String.eqb (sha1_hexdigest raw_data) (digest p)) eqn:He.
    + apply String.eqb_eq in He. exact (send_update_verified _ _ _ _ _ Hd He).
    + apply String.eqb_neq in He. exact (send_update_mismatch _ _ _ _ _ Hd He).
  - exact (send_update_undecodable _ _ _ _ _ Hd).
Qed.

(** The node after the run of a verified update: directories have been
    made on the way to the staging directory; then the archive may have
    been written, and then the updater started. *)
Lemma verified_run_world p raw_data w :
  exists w1,
    directories_made UPDATE_DIR_PATH w w1 /\
    ((snd (verified_run p raw_data w) = w1 /\
      forall d, fst (verified_run p raw_data w) <> Ok (Success d)) \/
     (snd (verified_run p raw_data w) = after_write (out_path p) raw_data w1 /\
      forall d, fst (verified_run p raw_data w) <> Ok (Success d)) \/
     (verified_run p raw_data w
      = (Ok (Success (DStr EmptyString)),
         after_updater (out_path p) (after_write (out_path p) raw_data w1)))).
Proof.
  unfold verified_run.
  destruct (staging w) as [[[]|e] w1] eqn:Hst; exists w1;
    (split; [exact (staging_made _ _ _ Hst)|]).
  2:{ left. split; [reflexivity|discriminate]. }
  destruct (is_dir (fs w1) UPDATE_DIR_PATH); cbn [negb];
    [|left; split; [reflexivity|discriminate]].
  destruct (open_for_write (fs w1) (out_path p));
    [|left; split; [reflexivity|discriminate]].
  destruct (open_for_write _ updater_log);
    [|right; left; split; [reflexivity|discriminate]].
  right; right. reflexivity.
Qed.


Lemma count_popen_mkdirs evs more :
  Forall (fun ev => exists q, ev = EvMkdir q) evs ->
  count_popen (evs ++ more) = count_popen more.
Proof.
  unfold count_popen. induction 1 as [|ev evs [q ->] _ IH]; simpl; auto.
Qed.

(** X6: [send_update] starts the updater exactly when it accepts the
    update, once, on the archive that it has written and the project
    root, with the log of the updater as output. *)
Theorem send_update_launches_updater (isd_id ad_id : pyid) (p : update_payload)
    (w : World) :
  exists evs,
    trace (snd (send_update isd_id ad_id p w)) = (trace w ++ evs)%list /\
    count_popen evs
    = match fst (send_update isd_id ad_id p w) with
      | Ok (Success _) => 1%nat
      | _ => 0%nat
      end /\
    (forall argv log,
       In (EvPopen argv log) evs ->
       argv = [sys_executable; UPDATE_SCRIPT_PATH; out_path p; PROJECT_ROOT] /\
       log = updater_log).
Proof.
  rewrite send_update_cases.
  destruct (b64decode (data p)) as [raw_data|e];
    [|exists []; cbn [fst snd]; rewrite app_nil_r;
      split; [reflexivity|split; [reflexivity|intros ? ? []]]].
  destruct (String.eqb _ _);
    [|exists []; cbn [fst snd]; rewrite app_nil_r;
      split; [reflexivity|split; [reflexivity|intros ? ? []]]].
  destruct (verified_run_world p raw_data w)
    as (w1 & (_ & _ & (ev1 & T1 & F1) & _) & Hw).
  assert (Hno : forall argv log more,
             In (EvPopen argv log) (ev1 ++ more) -> In (EvPopen argv log) more).
  { intros argv log more Hi. apply in_app_or in Hi as [Hi|Hi]; [|exact Hi].
    rewrite List.Forall_forall in F1. destruct (F1 _ Hi) as [q Hq].
    discriminate. }
  destruct Hw as [[Hs Hn]|[[Hs Hn]|Hr]].
  - exists ev1. rewrite Hs. split; [exact T1|]. split.
    + rewrite <- (app_nil_r ev1), (count_popen_mkdirs _ _ F1).
      destruct (fst (verified_run p raw_data w)) as [[d|]|]; try reflexivity.
      now contradiction (Hn d).
    + intros argv log Hi. rewrite <- (app_nil_r ev1) in Hi.
      now apply Hno in Hi.
  - exists (ev1 ++ [EvWrite (out_path p) raw_data])%list. rewrite Hs. split.
    + unfold after_write; cbn [trace]. now rewrite T1, <- app_assoc.
    + split.
      * rewrite (count_popen_mkdirs _ _ F1).
        destruct (fst (verified_run p raw_data w)) as [[d|]|]; try reflexivity.
        now contradiction (Hn d).
      * intros argv log Hi. apply Hno in Hi as [Hi|[]]. discriminate.
  - exists (ev1 ++ [EvWrite (out_path p) raw_data; EvOpenAppend updater_log;
                    EvPopen [sys_executable; UPDATE_SCRIPT_PATH; out_path p;
                             PROJECT_ROOT] updater_log])%list.
    rewrite Hr. cbn [fst snd]. split.
    + unfold after_updater, after_write; cbn [trace].
      now rewrite T1, <- !app_assoc.
    + split; [now rewrite (count_popen_mkdirs _ _ F1)|].
      intros argv log Hi. apply Hno in Hi as [Hi|[Hi|[Hi|[]]]];
        try discriminate. injection Hi as <- <-. auto.
Qed.

(** X7: an update that was accepted is accepted again when it is sent
    once more, and the second run leaves every file as the first one left
    it. *)
Theorem send_update_again (isd_id ad_id : pyid) (p : update_payload)
    (w w1 : World) (d : rpc_data) :
  send_update isd_id ad_id p w = (Ok (Success d), w1) ->
  exists w2,
    send_update isd_id ad_id p w1 = (Ok (Success d), w2) /\ fs w2 = fs w1.
Proof.
  rewrite !send_update_cases.
  destruct (b64decode (data p)) as [raw_data|e]; [|discriminate].
  destruct (String.eqb _ _); [|discriminate].
  unfold verified_run at 1.
  destruct (staging w) as [[[]|e] wa] eqn:Hst; [|discriminate].
  destruct (is_dir (fs wa) UPDATE_DIR_PATH) eqn:H1; cbn [negb]; [|discriminate].
  destruct (open_for_write (fs wa) (out_path p)) as [c2|] eqn:H2; [|discriminate].
  set (wb := after_write (out_path p) raw_data wa).
  destruct (open_for_write (fs wb) updater_log) as [c3|] eqn:H3; [|discriminate].
  intros [= <- <-].
  destruct (open_for_write_inv _ _ _ H2) as (S2 & N2 & L2).
  destruct (open_for_write_inv _ _ _ H3) as (S3 & N3 & L3).
  set (w1 := after_updater (out_path p) wb).
  assert (Fout : fs w1 !! out_path p = Some (File raw_data)).
  { apply after_updater_keeps. unfold wb, after_write; cbn [fs].
    apply lookup_insert_eq. }
  assert (Flog : exists c, fs w1 !! updater_log = Some (File c)).
  { unfold w1, after_updater; cbn [fs].
    destruct L3 as [[_ L3]|[_ [c L3]]]; rewrite L3.
    - exists EmptyString. apply lookup_insert_eq.
    - exists c. exact L3. }
  destruct Flog as [c Flog].
  assert (HU : is_dir (fs w1) UPDATE_DIR_PATH = true
               /\ exists_path (fs w1) UPDATE_DIR_PATH = true).
  { unfold is_dir, exists_path, lookup_path in *.
    destruct (sane UPDATE_DIR_PATH); [|discriminate]. cbn [andb] in *.
    destruct (is_root UPDATE_DIR_PATH); [auto|].
    destruct (fs wa !! UPDATE_DIR_PATH) as [[|]|] eqn:Ha; try discriminate.
    assert (Hb : fs wb !! UPDATE_DIR_PATH = Some Dir).
    { unfold wb, after_write; cbn [fs]. rewrite lookup_insert_ne; [exact Ha|].
      intros He. rewrite He in L2.
      destruct L2 as [[_ L2]|[_ [c' L2]]]; congruence. }
    assert (Hc : fs w1 !! UPDATE_DIR_PATH = Some Dir).
    { unfold w1, after_updater; cbn [fs].
      destruct (fs wb !! updater_log) eqn:Hl; [exact Hb|].
      rewrite lookup_insert_ne; [exact Hb|]. intros He. congruence. }
    rewrite Hc. auto. }
  destruct HU as [HU1 HU2].
  unfold verified_run. rewrite staging_run, HU2. cbn [negb].
  unfold ret at 1. rewrite HU1. cbn [negb].
  rewrite (file_open _ _ _ S2 N2 Fout).
  assert (Hfs : fs (after_write (out_path p) raw_data w1) = fs w1).
  { unfold after_write; cbn [fs]. now apply insert_id. }
  rewrite Hfs, (file_open _ _ _ S3 N3 Flog).
  eexists. split; [reflexivity|].
  unfold after_updater; cbn [fs]. fold (after_write (out_path p) raw_data w1).
  now rewrite Hfs, Flog.
Qed.
End SendUpdateMore.

Lemma send_update_again_witness :
  exists w2,
    send_update (IdInt 1) (IdInt 10) payload_traversal
      (snd (send_update (IdInt 1) (IdInt 10) payload_traversal sample_node))
    = (Ok (Success (DStr EmptyString)), w2) /\
    fs w2 = fs (snd (send_update (IdInt 1) (IdInt 10) payload_traversal
                       sample_node)).
Proof.
  apply (send_update_again (IdInt 1) (IdInt 10) payload_traversal sample_node).
  vm_compute. reflexivity.
Defined.

(** ** More on the lock queue *)

Lemma nodup_map_injective {A B} (f : A -> B) (l : list A) (x y : A) :
  List.NoDup (map f l) -> In x l -> In y l -> f x = f y -> x = y.
Proof.
  induction l as [|a l IH]; [contradiction|].
  cbn [map]. intros Hnd. apply List.NoDup_cons_iff in Hnd as [Ha Hl].
  intros [->|Hx] [->|Hy] He.
  - reflexivity.
  - exfalso. apply Ha. rewrite He. now apply in_map.
  - exfalso. apply Ha. rewrite <- He. now apply in_map.
  - now apply IH.
Qed.

(** X8: the holder that is chosen does not depend on the order in which
    the coordination service lists the contenders, when no two contenders
    have the same suffix. *)
Theorem first_by_id_any_order (contenders listed : list string) :
  Permutation contenders listed ->
  List.NoDup (map get_id contenders) ->
  first_by_id listed = first_by_id contenders.
Proof.
  intros Hp Hn. destruct contenders as [|c0 cs].
  - apply Permutation_nil in Hp. now subst.
  - assert (Hne : c0 :: cs <> []) by discriminate.
    assert (Hne' : listed <> []).
    { intros ->. apply Permutation_sym, Permutation_nil in Hp. discriminate. }
    destruct (first_by_id_least _ Hne) as (h & Hh & Hin & Hle).
    destruct (first_by_id_least _ Hne') as (h' & Hh' & Hin' & Hle').
    rewrite Hh, Hh'. f_equal.
    assert (Hin2 : In h' (c0 :: cs))
      by (eapply Permutation_in; [symmetry; exact Hp|exact Hin']).
    assert (Hin3 : In h listed)
      by (eapply Permutation_in; [exact Hp|exact Hin]).
    apply (nodup_map_injective get_id (c0 :: cs)); auto.
    apply String.leb_antisym; auto.
Qed.

Lemma first_by_id_any_order_witness :
  first_by_id ["e9b0__lock__0000000007"; "c7f1__lock__0000000003";
               "a2d4__lock__0000000001"]
  = first_by_id ["c7f1__lock__0000000003"; "a2d4__lock__0000000001";
                 "e9b0__lock__0000000007"].
Proof.
  apply first_by_id_any_order.
  - symmetry. eapply perm_trans; [apply perm_swap|].
    apply perm_skip. apply perm_swap.
  - vm_compute. repeat constructor; simpl; intuition discriminate.
Defined.

Lemma first_by_id_in (contenders : list string) (holder : string) :
  first_by_id contenders = Ok holder -> In holder contenders.
Proof.
  intros Hf. destruct contenders as [|c0 cs]; [discriminate|].
  destruct (first_by_id_least (c0 :: cs)) as (h & Hh & Hin & _); [discriminate|].
  congruence.
Qed.

(** X9: [get_master_id] answers with an identity only when it is the
    first of exactly three NUL-delimited fields of the value of the
    contender that it selected among those listed under the lock path of
    a known server type; the node is left as it was. *)
Theorem get_master_id_success_inv (isd_id ad_id : pyid) (server_type : string)
    (w w' : World) (d : rpc_data) :
  get_master_id isd_id ad_id server_type w = (Ok (Success d), w') ->
  w' = w /\
  known_server_type server_type = true /\
  exists tree n holder hn server_id f2 f3,
    zookeeper w = Some tree /\
    tree !! lock_path_of isd_id ad_id server_type = Some n /\
    first_by_id (zchildren n) = Ok holder /\
    In holder (zchildren n) /\
    tree !! path_join (lock_path_of isd_id ad_id server_type) holder = Some hn /\
    split NUL (zdata hn) = [server_id; f2; f3] /\
    d = DStr server_id.
Proof.
  destruct (known_server_type server_type) eqn:Hk.
  2:{ rewrite (get_master_id_invalid_type _ _ _ _ Hk). discriminate. }
  destruct (zookeeper w) as [tree|] eqn:Hz.
  2:{ rewrite (get_master_id_no_session _ _ _ _ Hk Hz). discriminate. }
  destruct (tree !! lock_path_of isd_id ad_id server_type) as [n|] eqn:Hl.
  2:{ rewrite (get_master_id_no_lock_path _ _ _ _ _ Hk Hz Hl). discriminate. }
  destruct (zchildren n) as [|c0 cs] eqn:Hc.
  { rewrite (get_master_id_no_contenders _ _ _ _ _ _ Hk Hz Hl Hc). discriminate. }
  assert (Hne : zchildren n <> []) by (rewrite Hc; discriminate).
  destruct (first_by_id_least _ Hne) as (holder & Hf & Hin & _).
  rewrite (get_master_id_holder_run _ _ _ _ _ _ _ Hk Hz Hl Hne Hf).
  destruct (tree !! path_join _ holder) as [hn|] eqn:Hh; [|discriminate].
  destruct (split NUL (zdata hn)) as [|f1 [|f2 [|f3 [|f4 fs']]]] eqn:Hs;
    try discriminate.
  unfold str_utf8. destruct (utf8_valid _ _); [|discriminate].
  intros [= <- <-]. split; [reflexivity|]. split; [reflexivity|].
  exists tree, n, holder, hn, f1, f2, f3. auto 10.
Qed.

Lemma get_master_id_success_inv_witness :
  exists holder hn f2 f3,
    In holder ["c7f1__lock__0000000003"; "a2d4__lock__0000000001";
               "e9b0__lock__0000000007"] /\
    split NUL (zdata hn) = ["bs1-10-1"; f2; f3].
Proof.
  destruct (get_master_id_success_inv (IdInt 1) (IdInt 10) "bs"
              world_three_contenders world_three_contenders (DStr "bs1-10-1"))
    as (_ & _ & tree & n & holder & hn & s & f2 & f3 & Hz & Hl & _ & Hin & _ & Hs & Hd).
  - vm_compute. reflexivity.
  - injection Hd as <-. exists holder, hn, f2, f3. split; [|exact Hs].
    vm_compute in Hz. injection Hz as <-. vm_compute in Hl.
    injection Hl as <-. exact Hin.
Defined.

(** ** More on the topology diff *)

Section DiffMore.
Context `{Interpreter}.

Lemma sorted_cases {E} (l : list (string * E)) :
  (names_ok l /\ sorted Z.leb key_sort l = Ok (sorted_items l)) \/
  (~ names_ok l /\ sorted Z.leb key_sort l = Raise ValueError).
Proof.
  destruct (names_ok_dec l) as [Hn|Hn].
  - left. split; [exact Hn|now apply sorted_names_ok].
  - right. split; [exact Hn|now apply sorted_raises].
Qed.

Lemma collection_changes_cases {E} st fields (remote current : list (string * E)) :
  (names_ok remote /\ names_ok current /\
   exists l, collection_changes st fields remote current = Ok l) \/
  (~ (names_ok remote /\ names_ok current) /\
   collection_changes st fields remote current = Raise ValueError).
Proof.
  destruct (sorted_cases remote) as [[Hr Sr]|[Hr Sr]].
  - destruct (sorted_cases current) as [[Hc Sc]|[Hc Sc]].
    + left. split; [exact Hr|]. split; [exact Hc|].
      eexists. now apply collection_changes_ok.
    + right. split; [tauto|]. unfold collection_changes. now rewrite Sr, Sc.
  - right. split; [tauto|]. unfold collection_changes. now rewrite Sr.
Qed.

(** X10: the diff returns a list of changes exactly when every name of
    the path, certificate and beacon servers and of the edge routers of
    both documents denotes an integer for [int]; otherwise it raises
    [ValueError] (also when the counts of a collection differ). *)
Theorem get_changes_value_error (cur rem : Topology) :
  ((valid_topology cur /\ valid_topology rem) <->
   exists l, _get_changes cur rem = Ok l) /\
  (~ (valid_topology cur /\ valid_topology rem) <->
   _get_changes cur rem = Raise ValueError).
Proof.
  assert (Hc : (valid_topology cur /\ valid_topology rem /\
                exists l, _get_changes cur rem = Ok l) \/
               (~ (valid_topology cur /\ valid_topology rem) /\
                _get_changes cur rem = Raise ValueError)).
  { unfold _get_changes, valid_topology.
    destruct (collection_changes_cases "PathServers" server_fields
                (PathServers rem) (PathServers cur))
      as [(P1 & P2 & [ps ->])|[Pn ->]]; [|right; split; [tauto|reflexivity]].
    destruct (collection_changes_cases "CertificateServers" server_fields
                (CertificateServers rem) (CertificateServers cur))
      as [(C1 & C2 & [cs ->])|[Cn ->]]; [|right; split; [tauto|reflexivity]].
    destruct (collection_changes_cases "BeaconServers" server_fields
                (BeaconServers rem) (BeaconServers cur))
      as [(B1 & B2 & [bs ->])|[Bn ->]]; [|right; split; [tauto|reflexivity]].
    destruct (collection_changes_cases "EdgeRouters" router_fields
                (EdgeRouters rem) (EdgeRouters cur))
      as [(E1 & E2 & [er ->])|[En ->]]; [|right; split; [tauto|reflexivity]].
    left. cbn [rbind]. split; [tauto|]. split; [tauto|]. eauto. }
  destruct Hc as [(H1 & H2 & [l Hl])|[Hn Hr]].
  - split; split; try tauto; eauto. rewrite Hl. discriminate.
  - split; split; try tauto. intros [l Hl]. congruence.
Qed.










Lemma value_neq_sym a b : value_neq a b = value_neq b a.
Proof.
  destruct a, b; cbn [value_neq]; try reflexivity.
  - now rewrite Z.eqb_sym.
  - now rewrite String.eqb_sym.
Qed.

Lemma key_changes_length_sym {E} st (x y : E) key :
  length (key_changes st x y key) = length (key_changes st y x key).
Proof.
  destruct key as [k get|fn nested]; cbn [key_changes].
  - rewrite (value_neq_sym (get x) (get y)).
    now destruct (value_neq (get y) (get x)).
  - induction nested as [|[f get] nested IH]; [reflexivity|].
    cbn [flat_map]. rewrite !length_app, IH.
    rewrite (value_neq_sym (get x) (get y)).
    now destruct (value_neq (get y) (get x)).
Qed.

Lemma pair_changes_length_sym {E} st (fields : list (field_key E)) (x y : E) :
  length (pair_changes st fields (x, y)) = length (pair_changes st fields (y, x)).
Proof.
  unfold pair_changes. cbn [fst snd].
  induction fields as [|k fields IH]; [reflexivity|].
  cbn [flat_map]. now rewrite !length_app, IH, key_changes_length_sym.
Qed.

Lemma zip_changes_length_sym {E} st (fields : list (field_key E)) (a b : list E) :
  length (flat_map (pair_changes st fields) (combine a b))
  = length (flat_map (pair_changes st fields) (combine b a)).
Proof.
  revert b. induction a as [|x a IH]; intros [|y b]; try reflexivity.
  cbn [combine flat_map]. now rewrite !length_app, IH, pair_changes_length_sym.
Qed.

Lemma collection_changes_length_sym {E} st (fields : list (field_key E))
    (a b : list (string * E)) l1 l2 :
  collection_changes st fields a b = Ok l1 ->
  collection_changes st fields b a = Ok l2 ->
  length l1 = length l2.
Proof.
  destruct (collection_changes_cases st fields a b)
    as [(Ha & Hb & _)|[_ Hr]]; [|congruence].
  rewrite (collection_changes_ok _ _ _ _ Ha Hb).
  rewrite (collection_changes_ok _ _ _ _ Hb Ha).
  rewrite (Nat.eqb_sym (length b) (length a)).
  destruct (Nat.eqb (length a) (length b)); cbn [negb];
    intros [= <-] [= <-]; [|reflexivity].
  apply zip_changes_length_sym.
Qed.

Lemma scalar_changes_length_sym cur rem :
  length (scalar_changes cur rem) = length (scalar_changes rem cur).
Proof.
  unfold scalar_changes. cbn [flat_map scalar_keys].
  rewrite !length_app.
  rewrite (value_neq_sym (VInt (ADID rem))), (value_neq_sym (VInt (ISDID rem))),
    (value_neq_sym (VInt (Core rem))).
  destruct (value_neq (VInt (ADID cur)) _), (value_neq (VInt (ISDID cur)) _),
    (value_neq (VInt (Core cur)) _); reflexivity.
Qed.

(** X12: exchanging the two documents never changes how many
    differences the diff reports (only the words [Local] and [remote] of
    an entry change sides); in particular one direction is empty exactly
    when the other is. *)
Theorem get_changes_count_symmetric (cur rem : Topology) l1 l2 :
  _get_changes cur rem = Ok l1 ->
  _get_changes rem cur = Ok l2 ->
  length l1 = length l2 /\ (l1 = [] <-> l2 = []).
Proof.
  intros H1 H2.
  assert (Hlen : length l1 = length l2).
  { revert H1 H2. unfold _get_changes.
    destruct (collection_changes "PathServers" server_fields
                (PathServers rem) (PathServers cur)) as [ps|] eqn:P1;
      [|discriminate].
    destruct (collection_changes "CertificateServers" server_fields
                (CertificateServers rem) (CertificateServers cur)) as [cs|] eqn:C1;
      [|discriminate].
    destruct (collection_changes "BeaconServers" server_fields
                (BeaconServers rem) (BeaconServers cur)) as [bs|] eqn:B1;
      [|discriminate].
    destruct (collection_changes "EdgeRouters" router_fields
                (EdgeRouters rem) (EdgeRouters cur)) as [er|] eqn:E1;
      [|discriminate].
    destruct (collection_changes "PathServers" server_fields
                (PathServers cur) (PathServers rem)) as [ps'|] eqn:P2;
      [|discriminate].
    destruct (collection_changes "CertificateServers" server_fields
                (CertificateServers cur) (CertificateServers rem)) as [cs'|] eqn:C2;
      [|discriminate].
    destruct (collection_changes "BeaconServers" server_fields
                (BeaconServers cur) (BeaconServers rem)) as [bs'|] eqn:B2;
      [|discriminate].
    destruct (collection_changes "EdgeRouters" router_fields
                (EdgeRouters cur) (EdgeRouters rem)) as [er'|] eqn:E2;
      [|discriminate].
    cbn [rbind]. intros [= <-] [= <-]. rewrite !length_app.
    rewrite (scalar_changes_length_sym cur rem).
    rewrite (collection_changes_length_sym _ _ _ _ _ _ P1 P2).
    rewrite (collection_changes_length_sym _ _ _ _ _ _ C1 C2).
    rewrite (collection_changes_length_sym _ _ _ _ _ _ B1 B2).
    rewrite (collection_changes_length_sym _ _ _ _ _ _ E1 E2).
    reflexivity. }
  split; [exact Hlen|].
  split; intros ->; [destruct l2|destruct l1]; cbn [length] in Hlen;
    congruence.
Qed.
End DiffMore.

(** A document with a server that is named like a process. *)
Lemma get_changes_value_error_witness :
  _get_changes sample_topology
    (with_edge_routers [] (mkTopology 1 10 0 [] [("bs1", mkElement "IPv4" "10.0.1.1")]
                             [] [] []))
  = Raise ValueError.
Proof.
  apply (proj2 (get_changes_value_error _ _)).
  intros [_ (Hp & _)]. inversion Hp as [|? ? [z Hz] _].
  apply py_int_denotes in Hz. vm_compute in Hz. discriminate.
Defined.




Lemma get_changes_count_symmetric_witness :
  exists l1 l2,
    _get_changes sample_topology sample_topology_fewer = Ok l1 /\
    _get_changes sample_topology_fewer sample_topology = Ok l2 /\
    length l1 = length l2 /\ (l1 = [] <-> l2 = []).
Proof.
  eexists. eexists.
  split; [vm_compute; reflexivity|]. split; [vm_compute; reflexivity|].
  apply (get_changes_count_symmetric sample_topology sample_topology_fewer);
    vm_compute; reflexivity.
Defined.

(** ** The records of the web panel *)

Lemma extends_refl {R} (owner : R -> Z) pk (rows : list R) :
  extends owner pk rows rows.
Proof. exists []. split; [now rewrite app_nil_r|constructor]. Qed.

Lemma extends_trans {R} (owner : R -> Z) pk (a b c : list R) :
  extends owner pk a b -> extends owner pk b c -> extends owner pk a c.
Proof.
  intros [x [-> Hx]] [y [-> Hy]]. exists (x ++ y)%list.
  split; [now rewrite List.app_assoc|].
  apply List.Forall_app. now split.
Qed.

Lemma extends_snoc {R} (owner : R -> Z) (rows : list R) r :
  extends owner (owner r) rows (rows ++ [r]).
Proof. exists [r]. split; [reflexivity|]. now repeat constructor. Qed.

Lemma grows_refl pk db : grows pk db db.
Proof.
  split; [reflexivity|]. split; [apply extends_refl|].
  intros t. apply extends_refl.
Qed.

Lemma grows_trans pk a b c : grows pk a b -> grows pk b c -> grows pk a c.
Proof.
  intros (Ha & Hr & Hs) (Ha' & Hr' & Hs'). split; [congruence|].
  split; [eapply extends_trans; eauto|].
  intros t. eapply extends_trans; eauto.
Qed.

Lemma adds_rows_refl st : adds_rows st st.
Proof. split; [reflexivity|apply grows_refl]. Qed.

Lemma adds_rows_trans a b c : adds_rows a b -> adds_rows b c -> adds_rows a c.
Proof.
  intros [Ha Hg] [Hb Hg']. split; [congruence|].
  rewrite Ha in Hg'. eapply grows_trans; eauto.
Qed.

Lemma add_router_adds router st : adds_rows st (snd (add_router router st)).
Proof.
  destruct st as [self db].
  unfold add_router, AD_objects_get, save_router. run_monad.
  destruct (List.filter _ (ad_table db)) as [|a [|b l]]; cbn [snd];
    try apply adds_rows_refl.
  destruct (router_conflict _ _); cbn [snd]; [apply adds_rows_refl|].
  split; [reflexivity|]. cbn [fst snd]. split; [reflexivity|]. split.
  - unfold set_routers. cbn [routerweb_set].
    apply (extends_snoc rw_ad (routerweb_set db)
             (mkRouterWeb (router_addr router) (ad_pk self) (router_name router)
                (ad_pk a) (neighbor_type (interface router))
                (if_addr (interface router)) (to_addr (interface router))
                (if_id (interface router)))).
  - intros t. destruct t; apply extends_refl.
Qed.

Lemma add_server_adds t s st : adds_rows st (snd (add_server t s st)).
Proof.
  destruct st as [self db].
  unfold add_server, save_server. run_monad. cbn [fst].
  destruct (server_conflict _ _); cbn [snd]; [apply adds_rows_refl|].
  split; [reflexivity|]. cbn [fst snd]. split; [now destruct t|]. split.
  - destruct t; apply extends_refl.
  - intros t'.
    destruct t, t'; cbn [rows_of set_rows pathserverweb_set
                           certificateserverweb_set beaconserverweb_set
                           dnsserverweb_set];
      try apply extends_refl;
      apply (extends_snoc sw_ad _
               (mkServerWeb (server_addr s) (ad_pk self) (server_name s))).
Qed.

Lemma bind_rel {S A B} (R : S -> S -> Prop) (m : M S A) (k : A -> M S B) s :
  (forall a b c, R a b -> R b c -> R a c) ->
  R s (snd (m s)) ->
  (forall x s1, R s1 (snd (k x s1))) ->
  R s (snd (bind m k s)).
Proof.
  intros Ht Hm Hk. unfold bind.
  destruct (m s) as [[a|e] s1]; cbn [snd] in *; [|exact Hm].
  eapply Ht; [exact Hm|apply Hk].
Qed.

Lemma for_each_rel {S A} (R : S -> S -> Prop) (body : A -> M S unit) :
  (forall s, R s s) ->
  (forall a b c, R a b -> R b c -> R a c) ->
  (forall a s, R s (snd (body a s))) ->
  forall l s, R s (snd (for_each l body s)).
Proof.
  intros Hr Ht Hb. induction l as [|a l IH]; intros s; [apply Hr|].
  cbn [for_each]. apply bind_rel; auto.
Qed.

Lemma add_elements_adds topology st :
  adds_rows st (snd (add_elements topology st)).
Proof.
  pose proof adds_rows_trans as Ht.
  pose proof (fun t => for_each_rel adds_rows (add_server t) adds_rows_refl Ht
                         (add_server_adds t)) as Hs.
  unfold add_elements.
  apply bind_rel; [exact Ht| |intros _ s1].
  { apply for_each_rel; auto using adds_rows_refl, add_router_adds. }
  apply bind_rel; [exact Ht|apply Hs|intros _ s2].
  apply bind_rel; [exact Ht|apply Hs|intros _ s3].
  apply bind_rel; [exact Ht|apply Hs|intros _ s4].
  apply Hs.
Qed.

Lemma except_pass_state {S} (e : exn -> bool) (body : M S unit) s :
  snd (except_pass e body s) = snd (body s).
Proof.
  unfold except_pass. destruct (body s) as [[[]|x] s']; [reflexivity|].
  now destruct (e x).
Qed.

Lemma fill_from_topology_adds topology clear st :
  adds_rows (prepared topology clear st)
    (snd (fill_from_topology topology clear st)).
Proof.
  rewrite fill_from_topology_unfold, except_pass_state.
  apply add_elements_adds.
Qed.

(** X13: whatever the outcome of [fill_from_topology] (also when it
    raises), the instance keeps its keys and takes the core flag of the
    topology, the domain records are not touched, and every table of
    elements is the table at the start (emptied of the rows of this domain
    when [clear] is set) followed by rows of this domain: no row of
    another domain is added, removed or changed. *)
Theorem fill_from_topology_frame (topology : TopologyObj) (clear : bool)
    (st : ADrow * DB) :
  let out := snd (fill_from_topology topology clear st) in
  fst out = mkAD (ad_pk (fst st)) (ad_isd (fst st)) (topo_is_core_ad topology) /\
  grows (ad_pk (fst st))
    (if clear then delete_elements (fst st) (snd st) else snd st) (snd out).
Proof.
  destruct (fill_from_topology_adds topology clear st) as [Hf Hg].
  split; [exact Hf|exact Hg].
Qed.

Lemma filter_others_extends {R} (owner : R -> Z) pk (rows rows' : list R) :
  extends owner pk
    (List.filter (fun r => negb (owner r =? pk)) rows) rows' ->
  List.filter (fun r => negb (owner r =? pk)) rows'
  = List.filter (fun r => negb (owner r =? pk)) rows.
Proof.
  intros [added [-> Ha]]. rewrite List.filter_app.
  assert (Hn : List.filter (fun r => negb (owner r =? pk)) added = []).
  { induction Ha as [|r added Hr _ IH]; [reflexivity|].
    cbn [List.filter]. rewrite Hr, Z.eqb_refl. exact IH. }
  rewrite Hn, app_nil_r.
  induction rows as [|r rows IH]; [reflexivity|].
  cbn [List.filter]. destruct (negb (owner r =? pk)) eqn:Hr; [|exact IH].
  cbn [List.filter]. now rewrite Hr, IH.
Qed.

Lemma prepared_again topology st :
  prepared topology true (snd (fill_from_topology topology true st))
  = prepared topology true st.
Proof.
  destruct (fill_from_topology_adds topology true st) as [Hf (Ha & Hr & Hs)].
  destruct (snd (fill_from_topology topology true st)) as [self' db'].
  destruct st as [self db]. unfold prepared, delete_elements in *.
  cbn [fst snd ad_table routerweb_set ad_pk ad_isd] in *. subst self'.
  cbn [ad_pk ad_isd]. f_equal.
  pose proof (Hs PathT) as Hp. pose proof (Hs CertificateT) as Hc.
  pose proof (Hs BeaconT) as Hb. pose proof (Hs DnsT) as Hd.
  cbn [rows_of pathserverweb_set certificateserverweb_set beaconserverweb_set
         dnsserverweb_set] in *.
  rewrite Ha.
  rewrite (filter_others_extends rw_ad _ _ _ Hr).
  rewrite (filter_others_extends sw_ad _ _ _ Hp).
  rewrite (filter_others_extends sw_ad _ _ _ Hc).
  rewrite (filter_others_extends sw_ad _ _ _ Hb).
  rewrite (filter_others_extends sw_ad _ _ _ Hd).
  reflexivity.
Qed.

(** X14: [fill_from_topology] with [clear] set does not depend on what
    the domain held before: run again from the state that a first run
    left (whether it ended well or raised), it gives the same result and
    the same state. *)
Theorem fill_from_topology_clear_again (topology : TopologyObj)
    (st : ADrow * DB) :
  fill_from_topology topology true
    (snd (fill_from_topology topology true st))
  = fill_from_topology topology true st.
Proof.
  rewrite (fill_from_topology_unfold topology true
             (snd (fill_from_topology topology true st))).
  rewrite prepared_again. symmetry. apply fill_from_topology_unfold.
Qed.

Lemma rows_of_set_rows t rows db : rows_of t (set_rows t rows db) = rows.
Proof. now destruct t. Qed.

Lemma set_rows_set_rows t r r' db :
  set_rows t r (set_rows t r' db) = set_rows t r db.
Proof. now destruct t. Qed.

Lemma set_rows_same t db : set_rows t (rows_of t db) db = db.
Proof. now destruct t, db. Qed.

Lemma server_conflict_fresh r rows :
  (forall x, In x rows -> sw_ad x = sw_ad r -> sw_addr x <> sw_addr r) ->
  server_conflict r rows = false.
Proof.
  intros Hf. unfold server_conflict.
  destruct (existsb _ rows) eqn:He; [|reflexivity].
  apply existsb_exists in He as (x & Hin & Hx).
  apply andb_true_iff in Hx as [Ha Hs].
  apply Z.eqb_eq in Ha. apply String.eqb_eq in Hs.
  now destruct (Hf x Hin Ha).
Qed.

Lemma router_conflict_fresh r rows :
  (forall x, In x rows -> rw_ad x = rw_ad r -> rw_addr x <> rw_addr r) ->
  router_conflict r rows = false.
Proof.
  intros Hf. unfold router_conflict.
  destruct (existsb _ rows) eqn:He; [|reflexivity].
  apply existsb_exists in He as (x & Hin & Hx).
  apply andb_true_iff in Hx as [Ha Hs].
  apply Z.eqb_eq in Ha. apply String.eqb_eq in Hs.
  now destruct (Hf x Hin Ha).
Qed.

(** The loop over the servers of one type, when no address is taken. *)
Lemma for_each_add_server_ok t self l :
  forall db,
    List.NoDup (map server_addr l) ->
    (forall s x, In s l -> In x (rows_of t db) -> sw_ad x = ad_pk self ->
                 sw_addr x <> server_addr s) ->
    for_each l (add_server t) (self, db)
    = (Ok tt, (self, set_rows t (rows_of t db ++ map (server_row self) l) db)).
Proof.
  induction l as [|s l IH]; intros db Hnd Hfresh.
  - cbn [for_each map]. now rewrite app_nil_r, set_rows_same.
  - cbn [for_each]. unfold bind at 1.
    unfold add_server, save_server. run_monad. cbn [fst].
    rewrite server_conflict_fresh.
    2:{ intros x Hin Ha. cbn [sw_ad sw_addr] in *.
        apply (Hfresh s x); [now left|exact Hin|exact Ha]. }
    cbn [map] in Hnd. apply List.NoDup_cons_iff in Hnd as [Hs Hnd].
    rewrite IH.
    + rewrite rows_of_set_rows, set_rows_set_rows, <- List.app_assoc.
      reflexivity.
    + exact Hnd.
    + intros s' x Hin' Hx Ha. rewrite rows_of_set_rows in Hx.
      apply in_app_or in Hx as [Hx|[<-|[]]].
      * apply (Hfresh s' x); [now right|exact Hx|exact Ha].
      * cbn [sw_addr]. intros He. apply Hs. rewrite He.
        now apply in_map.
Qed.

Lemma filter_singleton {A} (f : A -> bool) (l : list A) a :
  List.filter f l = [a] -> In a l /\ f a = true.
Proof.
  intros Hf. apply List.filter_In. rewrite Hf. now left.
Qed.

(** The loop over the routers, when every neighbor has its record and no
    address is taken. *)
Lemma for_each_add_router_ok self l :
  forall db,
    Forall (resolves_once db) l ->
    List.NoDup (map router_addr l) ->
    (forall r x, In r l -> In x (routerweb_set db) -> rw_ad x = ad_pk self ->
                 rw_addr x <> router_addr r) ->
    for_each l add_router (self, db)
    = (Ok tt, (self, set_routers
                       (routerweb_set db ++ map (router_row self) l) db)).
Proof.
  induction l as [|r l IH]; intros db Hres Hnd Hfresh.
  - cbn [for_each map]. rewrite app_nil_r. now destruct db.
  - cbn [for_each]. unfold bind at 1.
    inversion Hres as [|? ? [a Ha] Hres']; subst.
    unfold add_router, AD_objects_get, save_router. run_monad. cbn [fst].
    rewrite Ha.
    apply filter_singleton in Ha as [_ Ha].
    apply andb_true_iff in Ha as [Ha _]. apply Z.eqb_eq in Ha. rewrite Ha.
    rewrite router_conflict_fresh.
    2:{ intros x Hin Hx. cbn [rw_ad rw_addr] in *.
        apply (Hfresh r x); [now left|exact Hin|exact Hx]. }
    cbn [map] in Hnd. apply List.NoDup_cons_iff in Hnd as [Hs Hnd].
    rewrite IH.
    + unfold set_routers.
      cbn [routerweb_set ad_table pathserverweb_set certificateserverweb_set
             beaconserverweb_set dnsserverweb_set].
      now rewrite <- List.app_assoc.
    + exact Hres'.
    + exact Hnd.
    + intros r' x Hin' Hx Hx'. unfold set_routers in Hx.
      cbn [routerweb_set] in Hx.
      apply in_app_or in Hx as [Hx|[<-|[]]].
      * apply (Hfresh r' x); [now right|exact Hx|exact Hx'].
      * cbn [rw_addr]. intros He. apply Hs. rewrite He. now apply in_map.
Qed.

Lemma filter_others_not_own {R} (owner : R -> Z) pk (rows : list R) x :
  In x (List.filter (fun r => negb (owner r =? pk)) rows) -> owner x <> pk.
Proof.
  intros Hin. apply List.filter_In in Hin as [_ Hn].
  apply negb_true_iff, Z.eqb_neq in Hn. exact Hn.
Qed.

Lemma add_elements_fills topology st :
  Forall (resolves_once (snd st)) (get_all_edge_routers topology) ->
  distinct_addresses topology ->
  add_elements topology (prepared topology true st)
  = (Ok tt, filled_state topology st).
Proof.
  destruct st as [self db].
  intros Hres (Hr & Hb & Hc & Hp & Hd).
  unfold filled_state, prepared, add_elements. cbn [fst snd] in *.
  set (self' := mkAD (ad_pk self) (ad_isd self) (topo_is_core_ad topology)).
  unfold bind at 1. rewrite for_each_add_router_ok; [|exact Hres|exact Hr|].
  2:{ intros r x _ Hin Hx.
      now destruct (filter_others_not_own rw_ad _ _ _ Hin). }
  unfold bind at 1. rewrite for_each_add_server_ok; [|exact Hb|].
  2:{ intros s x _ Hin Hx.
      now destruct (filter_others_not_own sw_ad _ _ _ Hin). }
  unfold bind at 1. rewrite for_each_add_server_ok; [|exact Hc|].
  2:{ intros s x _ Hin Hx.
      now destruct (filter_others_not_own sw_ad _ _ _ Hin). }
  unfold bind at 1. rewrite for_each_add_server_ok; [|exact Hp|].
  2:{ intros s x _ Hin Hx.
      now destruct (filter_others_not_own sw_ad _ _ _ Hin). }
  rewrite for_each_add_server_ok; [reflexivity|exact Hd|].
  intros s x _ Hin Hx.
  now destruct (filter_others_not_own sw_ad _ _ _ Hin).
Qed.

Lemma fill_from_topology_fills topology st :
  Forall (resolves_once (snd st)) (get_all_edge_routers topology) ->
  distinct_addresses topology ->
  fill_from_topology topology true st = (Ok tt, filled_state topology st).
Proof.
  intros Hres Hd. rewrite fill_from_topology_unfold. unfold except_pass.
  now rewrite add_elements_fills.
Qed.

(** X15: with [clear] set, when the neighbor of every router of the
    topology names one domain record and the addresses within each
    collection of the topology are distinct, [fill_from_topology] ends
    without an exception, and each table holds the rows of the other
    domains followed by one row of this domain for each element of the
    topology, in the order of the topology. *)
Theorem fill_from_topology_adds_all (topology : TopologyObj)
    (st : ADrow * DB) :
  Forall (resolves_once (snd st)) (get_all_edge_routers topology) ->
  distinct_addresses topology ->
  fill_from_topology topology true st = (Ok tt, filled_state topology st).
Proof. exact (fill_from_topology_fills topology st). Qed.

Lemma sample_full_topology_resolves :
  Forall (resolves_once sample_db) (get_all_edge_routers sample_full_topology).
Proof. repeat constructor. eexists. vm_compute. reflexivity. Qed.

Lemma sample_full_topology_distinct : distinct_addresses sample_full_topology.
Proof.
  unfold distinct_addresses, sample_full_topology.
  cbn [get_all_edge_routers beacon_servers certificate_servers path_servers
         dns_servers map router_addr server_addr].
  repeat split; repeat (constructor; [cbn [In]; intuition discriminate|]);
    constructor.
Qed.

Lemma fill_from_topology_adds_all_witness :
  fill_from_topology sample_full_topology true (mkAD 10 1 false, sample_db)
  = (Ok tt,
     (mkAD 10 1 true,
      mkDB [mkAD 10 1 false; mkAD 11 1 true]
           [mkRouterWeb "10.0.0.1" 10 "1" 11 "PARENT" "10.0.0.2" "10.0.0.3" 11]
           [mkServerWeb "10.0.1.1" 10 "1"]
           [mkServerWeb "10.0.3.1" 10 "1"]
           [mkServerWeb "10.0.2.1" 10 "1"; mkServerWeb "10.0.2.2" 10 "2"]
           [mkServerWeb "10.0.4.1" 10 "1"])).
Proof.
  exact (fill_from_topology_adds_all sample_full_topology
           (mkAD 10 1 false, sample_db)
           sample_full_topology_resolves sample_full_topology_distinct).
Defined.

(** ** From the records back to a dictionary *)

Lemma filter_none {A} (f : A -> bool) (l : list A) :
  (forall x, In x l -> f x = false) -> List.filter f l = [].
Proof.
  induction l as [|a l IH]; intros Hf; [reflexivity|].
  cbn [List.filter]. rewrite (Hf a (or_introl eq_refl)).
  apply IH. intros x Hx. apply Hf. now right.
Qed.

Lemma filter_all {A} (f : A -> bool) (l : list A) :
  (forall x, In x l -> f x = true) -> List.filter f l = l.
Proof.
  induction l as [|a l IH]; intros Hf; [reflexivity|].
  cbn [List.filter]. rewrite (Hf a (or_introl eq_refl)). f_equal.
  apply IH. intros x Hx. apply Hf. now right.
Qed.

Lemma own_rows_of_filled {R O} (owner : R -> Z) pk (row : O -> R)
    (rows : list R) (l : list O) :
  (forall o, owner (row o) = pk) ->
  List.filter (fun r => owner r =? pk)
    (List.filter (fun r => negb (owner r =? pk)) rows ++ map row l)
  = map row l.
Proof.
  intros Ho. rewrite List.filter_app.
  rewrite (filter_none (fun r => owner r =? pk)
             (List.filter (fun r => negb (owner r =? pk)) rows)).
  2:{ intros x Hx. apply filter_others_not_own in Hx. now apply Z.eqb_neq. }
  cbn [app]. apply filter_all. intros x Hx.
  apply in_map_iff in Hx as (o & <- & _). apply Z.eqb_eq, Ho.
Qed.

Lemma fold_dict_servers self (l : list ServerObj) :
  forall d,
    fold_left (fun d s => dict_set (sw_name s) (server_get_dict s) d)
      (map (server_row self) l) d
    = fold_left (fun d kv => dict_set (fst kv) (snd kv) d)
        (map server_entry l) d.
Proof.
  induction l as [|s l IH]; intros d; [reflexivity|].
  cbn [map fold_left]. apply IH.
Qed.

Lemma pk_lookup (l : list ADrow) a :
  List.NoDup (map ad_pk l) -> In a l ->
  List.filter (fun x => ad_pk x =? ad_pk a) l = [a].
Proof.
  induction l as [|x l IH]; intros Hnd Hin; [destruct Hin|].
  cbn [map] in Hnd. apply List.NoDup_cons_iff in Hnd as [Hx Hnd].
  cbn [List.filter]. destruct Hin as [->|Hin].
  - rewrite Z.eqb_refl. f_equal. apply filter_none.
    intros y Hy. apply Z.eqb_neq. intros He. apply Hx. rewrite <- He.
    now apply in_map.
  - assert (Hne : ad_pk x <> ad_pk a).
    { intros He. apply Hx. rewrite He. now apply in_map. }
    apply Z.eqb_neq in Hne. rewrite Hne. now apply IH.
Qed.

Lemma router_get_dict_row PORT db self router :
  List.NoDup (map ad_pk (ad_table db)) ->
  resolves_once db router ->
  router_get_dict PORT db (router_row self router)
  = Ok (snd (router_entry PORT router)).
Proof.
  intros Hnd [a Ha]. apply filter_singleton in Ha as [Hin Ha].
  apply andb_true_iff in Ha as [Hpk Hisd].
  apply Z.eqb_eq in Hpk. apply Z.eqb_eq in Hisd.
  unfold router_get_dict, router_row, router_entry.
  cbn [rw_neighbor_ad rw_addr rw_neighbor_type rw_interface_addr
         rw_interface_toaddr snd].
  rewrite <- Hpk, (pk_lookup _ _ Hnd Hin), <- Hisd. reflexivity.
Qed.

Lemma fill_routers_rows PORT db self (l : list RouterObj) :
  List.NoDup (map ad_pk (ad_table db)) ->
  Forall (resolves_once db) l ->
  forall d,
    fill_routers PORT db (map (router_row self) l) d
    = Ok (fold_left (fun d kv => dict_set (fst kv) (snd kv) d)
            (map (router_entry PORT) l) d).
Proof.
  intros Hnd. induction 1 as [|r l Hr _ IH]; intros d; [reflexivity|].
  cbn [map fill_routers fold_left].
  rewrite (router_get_dict_row PORT db self r Hnd Hr). cbn [rbind].
  apply IH.
Qed.

Lemma fill_routers_ad_table PORT db db' rows :
  ad_table db' = ad_table db ->
  forall d, fill_routers PORT db' rows d = fill_routers PORT db rows d.
Proof.
  intros Ha. induction rows as [|r rows IH]; intros d; [reflexivity|].
  cbn [fill_routers]. unfold router_get_dict. rewrite Ha.
  destruct (List.filter _ (ad_table db)) as [|a [|b l]]; cbn [rbind];
    try reflexivity.
  apply IH.
Qed.

Lemma generate_after_fill PORT topology st :
  List.NoDup (map ad_pk (ad_table (snd st))) ->
  Forall (resolves_once (snd st)) (get_all_edge_routers topology) ->
  generate_topology_dict PORT (fst (filled_state topology st))
    (snd (filled_state topology st))
  = match dns_servers topology with
    | [] =>
        Ok (mkTopologyDict (ad_isd (fst st)) (ad_pk (fst st))
              (Z.b2z (topo_is_core_ad topology))
              (dict_of_items
                 (map (router_entry PORT) (get_all_edge_routers topology)))
              (dict_of_items (map server_entry (path_servers topology)))
              (dict_of_items (map server_entry (beacon_servers topology)))
              (dict_of_items (map server_entry (certificate_servers topology))))
    | _ :: _ => Raise KeyError
    end.
Proof.
  destruct st as [self db]. cbn [fst snd]. intros Hnd Hres.
  unfold filled_state, prepared, filled, delete_elements. cbn [fst snd].
  set (self' := mkAD (ad_pk self) (ad_isd self) (topo_is_core_ad topology)).
  unfold generate_topology_dict, routers_of, servers_of, fill_servers.
  cbn [routerweb_set pathserverweb_set certificateserverweb_set
         beaconserverweb_set dnsserverweb_set ad_table].
  change (ad_pk self') with (ad_pk self).
  rewrite (own_rows_of_filled rw_ad (ad_pk self) (router_row self'))
    by reflexivity.
  rewrite !(own_rows_of_filled sw_ad (ad_pk self) (server_row self'))
    by reflexivity.
  rewrite (fill_routers_ad_table PORT db) by reflexivity.
  rewrite (fill_routers_rows PORT db self' _ Hnd Hres). cbn [rbind].
  rewrite !fold_dict_servers.
  destruct (dns_servers topology) as [|s l]; reflexivity.
Qed.

(** X16: a domain filled from a topology (with [clear] set, every
    neighbor naming one domain record, the identifiers of the domain
    records distinct and the addresses of each collection distinct) and
    then turned back into a dictionary by [generate_topology_dict]: when
    the topology has a DNS server the call raises [KeyError]; otherwise
    the dictionary holds, under its name, each router and each path,
    beacon and certificate server of the topology with its address, a
    later element taking the place of an earlier one of the same name.
    Of a router's interface, both ports are [PORT] and [IFID] is the
    identifier of the neighbor domain, whatever the topology had. *)
Theorem fill_then_generate (PORT : Z) (topology : TopologyObj)
    (st : ADrow * DB) :
  List.NoDup (map ad_pk (ad_table (snd st))) ->
  Forall (resolves_once (snd st)) (get_all_edge_routers topology) ->
  distinct_addresses topology ->
  let st' := snd (fill_from_topology topology true st) in
  generate_topology_dict PORT (fst st') (snd st')
  = match dns_servers topology with
    | [] =>
        Ok (mkTopologyDict (ad_isd (fst st)) (ad_pk (fst st))
              (Z.b2z (topo_is_core_ad topology))
              (dict_of_items
                 (map (router_entry PORT) (get_all_edge_routers topology)))
              (dict_of_items (map server_entry (path_servers topology)))
              (dict_of_items (map server_entry (beacon_servers topology)))
              (dict_of_items (map server_entry (certificate_servers topology))))
    | _ :: _ => Raise KeyError
    end.
Proof.
  intros Hnd Hres Hd. cbv zeta.
  rewrite (fill_from_topology_fills topology st Hres Hd). cbn [snd].
  now apply generate_after_fill.
Qed.

Lemma sample_db_keys : List.NoDup (map ad_pk (ad_table sample_db)).
Proof.
  cbn [sample_db ad_table map ad_pk].
  repeat (constructor; [cbn [In]; intuition discriminate|]). constructor.
Qed.

(** The sample topology without its DNS server: the interface of the
    router had the identifier 7 and comes back with 11. *)
Lemma fill_then_generate_witness :
  let topology :=
    mkTopologyObj true
      [mkRouterObj "10.0.0.1" "1"
         (mkInterfaceObj 11 1 "PARENT" "10.0.0.2" "10.0.0.3" 7)]
      [mkServerObj "10.0.2.1" "1"; mkServerObj "10.0.2.2" "2"]
      [mkServerObj "10.0.3.1" "1"]
      [mkServerObj "10.0.1.1" "1"] [] in
  let st' := snd (fill_from_topology topology true
                    (mkAD 10 1 false, sample_db)) in
  generate_topology_dict 50000 (fst st') (snd st')
  = Ok (mkTopologyDict 1 10 1
          [("1", mkRouter "IPv4" "10.0.0.1"
                   (mkInterface "PARENT" 1 11 "10.0.0.2" "IPv4" "10.0.0.3"
                      50000 50000 11))]
          [("1", mkElement "IPv4" "10.0.1.1")]
          [("1", mkElement "IPv4" "10.0.2.1"); ("2", mkElement "IPv4" "10.0.2.2")]
          [("1", mkElement "IPv4" "10.0.3.1")]).
Proof.
  intros topology.
  apply (fill_then_generate 50000 topology (mkAD 10 1 false, sample_db)).
  - exact sample_db_keys.
  - repeat constructor. eexists. vm_compute. reflexivity.
  - unfold distinct_addresses, topology.
    cbn [get_all_edge_routers beacon_servers certificate_servers path_servers
           dns_servers map router_addr server_addr].
    repeat split; repeat (constructor; [cbn [In]; intuition discriminate|]);
      constructor.
Defined.

Lemma fill_routers_known PORT db rows :
  Forall (neighbor_known db) rows ->
  forall d, exists d', fill_routers PORT db rows d = Ok d'.
Proof.
  induction 1 as [|r rows [n Hn] _ IH]; intros d; [now exists d|].
  cbn [fill_routers]. unfold router_get_dict. rewrite Hn. cbn [rbind].
  apply IH.
Qed.

(** X17: when the neighbor of every router of the domain has its
    record, [generate_topology_dict] returns a dictionary exactly when the
    domain has no DNS server; with a DNS server it raises [KeyError] (the
    dictionary is built without the key [DNSServers]). *)
Theorem generate_topology_dict_dns PORT self db :
  Forall (neighbor_known db) (routers_of self db) ->
  (servers_of self (dnsserverweb_set db) = [] <->
   exists d, generate_topology_dict PORT self db = Ok d) /\
  (servers_of self (dnsserverweb_set db) <> [] <->
   generate_topology_dict PORT self db = Raise KeyError).
Proof.
  intros Hk. unfold generate_topology_dict.
  destruct (fill_routers_known PORT db _ Hk []) as [d' ->]. cbn [rbind].
  destruct (servers_of self (dnsserverweb_set db)) as [|s l].
  - split; split; try congruence; eauto.
  - split; split; try congruence.
    intros [d Hd]. discriminate.
Qed.


(** The sample domain after it was filled from the sample topology,
    which has a DNS server. *)
Lemma generate_topology_dict_dns_witness :
  generate_topology_dict 50000 (mkAD 10 1 true)
    (filled sample_full_topology (mkAD 10 1 true)
       (delete_elements (mkAD 10 1 false) sample_db))
  = Raise KeyError.
Proof.
  apply (proj1 (proj2 (generate_topology_dict_dns 50000 (mkAD 10 1 true)
                         (filled sample_full_topology (mkAD 10 1 true)
                            (delete_elements (mkAD 10 1 false) sample_db))
                         ltac:(repeat constructor; eexists; vm_compute;
                               reflexivity)))).
  vm_compute. discriminate.
Defined.

(** ** The host of the monitoring daemon *)

Lemma find_first {A} (f : A -> bool) (l : list A) b :
  List.find f l = Some b ->
  exists pre post,
    l = (pre ++ b :: post)%list /\ Forall (fun x => f x = false) pre /\
    f b = true.
Proof.
  induction l as [|a l IH]; [discriminate|].
  cbn [List.find]. destruct (f a) eqn:Ha.
  - intros [= ->]. exists [], l. split; [reflexivity|]. split; [constructor|].
    exact Ha.
  - intros Hf. destruct (IH Hf) as (pre & post & -> & Hpre & Hb).
    exists (a :: pre), post. split; [reflexivity|].
    split; [now constructor|exact Hb].
Qed.

(** X18: the host of the monitoring daemon is [127.0.0.1] or the
    address of the first beacon server of the domain; it is never another
    address that starts with [127.], and the beacon servers after the
    first are never looked at. *)
Theorem get_monitoring_daemon_host_first (self : ADrow) (db : DB) :
  let host := get_monitoring_daemon_host self db in
  (String.prefix "127." host = true -> host = "127.0.0.1") /\
  (host <> "127.0.0.1" ->
   exists pre b post,
     beaconserverweb_set db = (pre ++ b :: post)%list /\
     Forall (fun r => sw_ad r <> ad_pk self) pre /\
     sw_ad b = ad_pk self /\ sw_addr b = host).
Proof.
  cbv zeta. unfold get_monitoring_daemon_host, first_beacon_server.
  destruct (List.find _ (beaconserverweb_set db)) as [b|] eqn:Hf.
  2:{ split; [reflexivity|congruence]. }
  destruct (String.prefix "127." (sw_addr b)) eqn:Hp; cbn [negb].
  - split; [reflexivity|congruence].
  - split; [congruence|]. intros _.
    destruct (find_first _ _ _ Hf) as (pre & post & Hl & Hpre & Hb).
    exists pre, b, post. split; [exact Hl|].
    split; [|split; [now apply Z.eqb_eq|reflexivity]].
    eapply List.Forall_impl; [|exact Hpre].
    intros r Hr. now apply Z.eqb_neq.
Qed.

(** ** The form of a new link *)

(** X19: [NewLinkView.form_valid] never passes the link types [CHILD]
    or [PARENT] on to [link_ads]; a link that one domain enters as
    [PARENT] is the link that the other end enters as [CHILD]; and the
    two domains are exchanged for [PARENT] only. *)
Theorem form_valid_link_direction {A : Type} (this_ad end_point : A)
    (link_type : string) :
  form_valid_link this_ad end_point "PARENT"
  = form_valid_link end_point this_ad "CHILD" /\
  snd (form_valid_link this_ad end_point link_type) <> "CHILD" /\
  snd (form_valid_link this_ad end_point link_type) <> "PARENT" /\
  (link_type <> "PARENT" ->
   fst (form_valid_link this_ad end_point link_type) = (this_ad, end_point)).
Proof.
  split; [reflexivity|]. unfold form_valid_link. cbn [existsb].
  destruct (String.eqb link_type "PARENT") eqn:Hp;
    destruct (String.eqb link_type "CHILD") eqn:Hc;
    cbn [orb fst snd];
    rewrite ?String.eqb_eq, ?String.eqb_neq in *;
    repeat split; try discriminate; try congruence.
Qed.
